(** * Meta MCP server: registry, analyzer, orchestrator and executor

    A shallow embedding of the request-orchestration core of the
    meta-mcp-server repository (JavaScript) and the properties of it that
    the specification states.

    Conventions of the embedding:
    - a JavaScript string is a [string]: the sequence of its characters, one
      [ascii] per character.  [String.prototype.includes] and the regular
      expressions of the analyzer only compare characters, and [\w], [\b]
      only ask whether a character is one of [A-Za-z0-9_].
      [String.prototype.toLowerCase] is a parameter of the analyzer (section
      variable); [toLowerCase_ascii] is what it does on ASCII text;
    - a JavaScript number is a binary64 [float] where the code does
      arithmetic on fractions (the confidence), and an integer where it only
      counts (scores, lengths);
    - a JavaScript object used as a record of optional properties is a Rocq
      record of [option] fields ([None]: the property is absent and reads as
      [undefined]); an object used as a dictionary is an insertion-ordered
      association list ([JsObject.t]);
    - tool descriptors are shared, mutable objects: they live in a heap
      ([gmap loc ToolDescriptor]) and the registry holds references;
    - a function that can throw returns a [completion]; what is thrown is
      an [Error] object or another value (a handler of a tool is foreign
      code and may reject with anything). *)

From Stdlib Require Import Ascii String ZArith Floats.
From stdpp Require Import base strings list gmap pretty sorting.

Set Warnings "-inexact-float,-register-all,-clear-no-such-hyp".
Set Default Proof Using "Type".

(** ** JavaScript values and primitives *)

Module Js.

(** An [Error] object, as far as the code reads it: [name] and [message]. *)
Record Error := mkError { error_name : string; message : string }.

(** A thrown value that is not an [Error] object: [undefined], [null], or
    a value whose [message] property reads [undefined] (a string, a number,
    an object without a message). *)
Inductive nonError : Type :=
| ThrownUndefined
| ThrownNull
| ThrownMessageless.

(** Outcome of evaluating code that may throw (of awaiting a promise that
    may reject). *)
Inductive completion (A : Type) : Type :=
| Normal (a : A)
| Throw (e : Error)
| ThrowValue (v : nonError).
Arguments Normal {A} a.
Arguments Throw {A} e.
Arguments ThrowValue {A} v.

Definition bind {A B} (c : completion A) (k : A → completion B) : completion B :=
  match c with
  | Normal a => k a
  | Throw e => Throw e
  | ThrowValue v => ThrowValue v
  end.

Definition TypeError (msg : string) : Error := mkError "TypeError" msg.
Definition PlainError (msg : string) : Error := mkError "Error" msg.

(** Values that travel through parameters, results and output schemas. *)
Inductive value : Type :=
| VUndefined
| VNull
| VBool (b : bool)
| VNum (n : float)
| VStr (s : string)
| VArr (l : list value)
| VObj (o : list (string * value)).

(** *** Characters and strings *)

Definition char_code (c : ascii) : nat := nat_of_ascii c.

Definition between (lo hi n : nat) : bool := (lo <=? n) && (n <=? hi).

Definition is_upper (c : ascii) : bool := between 65 90 (char_code c).
Definition is_lower (c : ascii) : bool := between 97 122 (char_code c).
Definition is_digit (c : ascii) : bool := between 48 57 (char_code c).

(** [\w] of a regular expression without the [u] flag. *)
Definition is_word (c : ascii) : bool :=
  is_upper c || is_lower c || is_digit c || bool_decide (c = "_"%char).

Definition lower_char (c : ascii) : ascii :=
  if is_upper c then ascii_of_nat (char_code c + 32) else c.

(** [toLowerCase] on text in the ASCII range. *)
Fixpoint toLowerCase_ascii (s : string) : string :=
  match s with
  | EmptyString => EmptyString
  | String c s' => String (lower_char c) (toLowerCase_ascii s')
  end.

(** [s.includes(kw)]: [kw] occurs in [s] as a contiguous substring. *)
Fixpoint includes (s kw : string) : bool :=
  String.prefix kw s ||
  match s with
  | EmptyString => false
  | String _ s' => includes s' kw
  end.

(** [s.split(sep)] for a one-character separator. *)
Fixpoint split (sep : ascii) (s : string) : list string :=
  match s with
  | EmptyString => [EmptyString]
  | String c s' =>
      if bool_decide (c = sep) then EmptyString :: split sep s'
      else match split sep s' with
           | [] => [String c EmptyString]
           | w :: ws => String c w :: ws
           end
  end.

(** [s.split(sep).pop()]: the last piece, that is the text after the last
    separator, or the whole string when there is none. *)
Definition split_pop (sep : ascii) (s : string) : string :=
  default EmptyString (last (split sep s)).

(** [l.join(sep)]. *)
Fixpoint join (sep : string) (l : list string) : string :=
  match l with
  | [] => EmptyString
  | [x] => x
  | x :: xs => x +:+ sep +:+ join sep xs
  end.

(** [s.replace(c, d)] with string patterns of one character: only the
    first occurrence is replaced. *)
Fixpoint replace_first (c d : ascii) (s : string) : string :=
  match s with
  | EmptyString => EmptyString
  | String x s' =>
      if bool_decide (x = c) then String d s' else String x (replace_first c d s')
  end.

(** [if (v)]: every value but [undefined], [null], [false], [0], [NaN] and
    the empty string is truthy. *)
Definition truthy (v : value) : bool :=
  match v with
  | VUndefined | VNull => false
  | VBool b => b
  | VNum n => negb (PrimFloat.is_zero n || PrimFloat.is_nan n)
  | VStr s => negb (bool_decide (s = EmptyString))
  | VArr _ | VObj _ => true
  end.

(** [[...new Set(l)]]: duplicates dropped, first occurrences kept in order. *)
Definition unique (l : list string) : list string :=
  foldl (λ acc x, if bool_decide (x ∈ acc) then acc else acc ++ [x]) [] l.

(** Template-literal rendering of a possibly undefined string. *)
Definition show (o : option string) : string := default "undefined" o.

(** *** Regular-expression pieces *)

Definition word_of (o : option ascii) : bool :=
  match o with Some c => is_word c | None => false end.

(** [\b] between the character before a position and the one at it. *)
Definition boundary (before after : option ascii) : bool :=
  xorb (word_of before) (word_of after).

Definition last_char (s : list ascii) : option ascii := last s.

(** Case-insensitive test that [pat] starts [s]; gives the rest of [s]. *)
Fixpoint strip_prefix_ci (pat s : list ascii) : option (list ascii) :=
  match pat, s with
  | [], _ => Some s
  | p :: pat', c :: s' =>
      if bool_decide (lower_char p = lower_char c) then strip_prefix_ci pat' s' else None
  | _ :: _, [] => None
  end.

(** Case-sensitive variant. *)
Fixpoint strip_prefix (pat s : list ascii) : option (list ascii) :=
  match pat, s with
  | [], _ => Some s
  | p :: pat', c :: s' =>
      if bool_decide (p = c) then strip_prefix pat' s' else None
  | _ :: _, [] => None
  end.

(** *** [Array.prototype.sort] with a comparator

    The sort is stable: an element moves in front of another only when the
    comparator is strictly positive for the pair in their original order.
    [insert_sorted x l] places [x], which stood before all of [l]. *)
Section Sort.
Context {A : Type} (cmp : A → A → Z).

Fixpoint insert_sorted (x : A) (l : list A) : list A :=
  match l with
  | [] => [x]
  | y :: l' =>
      if (cmp x y <=? 0)%Z then x :: y :: l' else y :: insert_sorted x l'
  end.

Fixpoint sort (l : list A) : list A :=
  match l with
  | [] => []
  | x :: l' => insert_sorted x (sort l')
  end.
End Sort.

End Js.

(** ** Objects used as dictionaries

    Own, enumerable, string-keyed properties in insertion order.  This is
    what a plain JavaScript object does for ordinary keys: keys that are no
    array index (a canonical numeral such as ["2"], which JavaScript
    enumerates first and in numeric order) and not ["__proto__"] (whose
    assignment sets the prototype and creates no own property).  The keys
    the program itself makes are ordinary: fixed parameter names, step ids
    [step_<n>] and data-flow keys [step_<n>:step_<m>]; the properties about
    dictionaries keyed by step ids are stated for ids of that form
    ([Spec.stepIds]). *)

Module JsObject.

Definition t (V : Type) : Type := list (string * V).

Section Ops.
Context {V : Type}.

Fixpoint get (o : t V) (k : string) : option V :=
  match o with
  | [] => None
  | (k', v) :: o' => if bool_decide (k' = k) then Some v else get o' k
  end.

(** [o[k] = v]: an existing key keeps its place, a new key goes last. *)
Fixpoint set (o : t V) (k : string) (v : V) : t V :=
  match o with
  | [] => [(k, v)]
  | (k', v') :: o' =>
      if bool_decide (k' = k) then (k', v) :: o' else (k', v') :: set o' k v
  end.

(** [Object.assign(target, source)] and the spread [{...target, ...source}]. *)
Definition assign (target source : t V) : t V :=
  foldl (λ acc kv, set acc kv.1 kv.2) target source.

(** [Object.values(o)]. *)
Definition values (o : t V) : list V := o.*2.

(** [Object.keys(o)] of a possibly absent object. *)
Definition keys_of (o : option (t V)) : list string := from_option (fmap fst) [] o.

End Ops.

End JsObject.

(** ** Data model *)

(** [INTENT_TYPES] of the analyzer. *)
Inductive Intent : Set :=
| FILE_OPERATION
| DATA_PROCESSING
| CODE_GENERATION
| VISUALIZATION
| KNOWLEDGE_RETRIEVAL
| TERMINAL_EXECUTION
| WEB_SEARCH
| UNKNOWN.

#[global] Instance Intent_eq_dec : EqDecision Intent.
Proof. solve_decision. Defined.

Definition Intent_code (i : Intent) : nat :=
  match i with
  | FILE_OPERATION => 0 | DATA_PROCESSING => 1 | CODE_GENERATION => 2
  | VISUALIZATION => 3 | KNOWLEDGE_RETRIEVAL => 4 | TERMINAL_EXECUTION => 5
  | WEB_SEARCH => 6 | UNKNOWN => 7
  end.

Definition Intent_of_code (n : nat) : Intent :=
  match n with
  | 0 => FILE_OPERATION | 1 => DATA_PROCESSING | 2 => CODE_GENERATION
  | 3 => VISUALIZATION | 4 => KNOWLEDGE_RETRIEVAL | 5 => TERMINAL_EXECUTION
  | 6 => WEB_SEARCH | _ => UNKNOWN
  end.

#[global] Instance Intent_countable : Countable Intent.
Proof. by apply (inj_countable' Intent_code Intent_of_code); intros []. Defined.

(** The string each member of [INTENT_TYPES] stands for. *)
Definition INTENT_TYPES (i : Intent) : string :=
  match i with
  | FILE_OPERATION => "FILE_OPERATION"
  | DATA_PROCESSING => "DATA_PROCESSING"
  | CODE_GENERATION => "CODE_GENERATION"
  | VISUALIZATION => "VISUALIZATION"
  | KNOWLEDGE_RETRIEVAL => "KNOWLEDGE_RETRIEVAL"
  | TERMINAL_EXECUTION => "TERMINAL_EXECUTION"
  | WEB_SEARCH => "WEB_SEARCH"
  | UNKNOWN => "UNKNOWN"
  end.

(** Parameter objects: [defaultParams], [inputParams], tool results. *)
Abbreviation Params := (JsObject.t Js.value).

(** [tool.capabilities].  A declared intent is compared with the members
    of [INTENT_TYPES] only, so [intents] lists members of [Intent]. *)
Module Capabilities.
Record t : Type := mk {
  intents : option (list Intent);
  fileTypes : option (list string);
  dataTypes : option (list string);
  languages : option (list string);
  visualizationTypes : option (list string)
}.
Definition empty : t := mk None None None None None.
End Capabilities.

(** [tool.executionConfig] of a declarative tool. *)
Module ExecutionConfig.
Record t : Type := mk {
  type : option string;
  url : option string;
  command : option string
}.
End ExecutionConfig.

(** A tool descriptor.  [execute] is the handler of a JS-based tool ([None]
    when the property is no function): foreign code, which returns a value
    or rejects with an [Error] or with any other value. *)
Module Tool.
Record t : Type := mk {
  id : option string;
  name : option string;
  version : option string;
  description : option string;
  type : option string;
  apiEndpoint : option string;
  capabilities : option Capabilities.t;
  defaultParams : option Params;
  outputs : option Js.value;
  execute : option (Params → Js.completion Js.value);
  executionConfig : option ExecutionConfig.t
}.

Definition empty : t :=
  mk None None None None None None None None None None None.

(** [tool.id = id] and [tool.type = type]: the other properties are kept. *)
Definition with_id (tool : t) (id' : string) : t :=
  mk (Some id') (name tool) (version tool) (description tool) (type tool)
     (apiEndpoint tool) (capabilities tool) (defaultParams tool) (outputs tool)
     (execute tool) (executionConfig tool).

Definition with_type (tool : t) (type' : string) : t :=
  mk (id tool) (name tool) (version tool) (description tool) (Some type')
     (apiEndpoint tool) (capabilities tool) (defaultParams tool) (outputs tool)
     (execute tool) (executionConfig tool).

(** One property of [Object.assign(target, source)]: the source's value
    when the source has the property, the target's otherwise. *)
Definition assign_property {A} (target source : option A) : option A :=
  match source with
  | Some v => Some v
  | None => target
  end.

(** [Object.assign(target, source)]: a shallow merge, property by property. *)
Definition assign (target source : t) : t :=
  {| id := assign_property (id target) (id source);
     name := assign_property (name target) (name source);
     version := assign_property (version target) (version source);
     description := assign_property (description target) (description source);
     type := assign_property (type target) (type source);
     apiEndpoint := assign_property (apiEndpoint target) (apiEndpoint source);
     capabilities := assign_property (capabilities target) (capabilities source);
     defaultParams := assign_property (defaultParams target) (defaultParams source);
     outputs := assign_property (outputs target) (outputs source);
     execute := assign_property (execute target) (execute source);
     executionConfig := assign_property (executionConfig target) (executionConfig source) |}.
End Tool.

(** ** The tool registry (class [ToolRegistry], singleton [registry])

    [heap] is the object memory the descriptors live in; [tools] is
    [this.tools], an array of references in registration order. *)

Module ToolRegistry.

Definition loc := nat.

Record t : Type := mk {
  heap : gmap loc Tool.t;
  tools : list loc
}.

(** [new ToolRegistry()] in a given memory. *)
Definition new (h : gmap loc Tool.t) : t := mk h [].

(** [this.tools.find(t => t.id === id)], as a reference and its object. *)
Fixpoint find (h : gmap loc Tool.t) (id : option string) (l : list loc)
  : option (loc * Tool.t) :=
  match l with
  | [] => None
  | r :: l' =>
      match h !! r with
      | Some t => if bool_decide (Tool.id t = id) then Some (r, t) else find h id l'
      | None => find h id l'
      end
  end.

(** [getTools()]: the descriptors, read through the references. *)
Definition getTools (st : t) : list Tool.t :=
  omap (λ r, heap st !! r) (tools st).

(** [registerTool(tool)]; [tool] is a reference to the payload object.
    The first branch cannot be taken by a reference to a live object. *)
Definition registerTool (st : t) (tool : loc) : t :=
  match heap st !! tool with
  | None => st
  | Some payload =>
      match find (heap st) (Tool.id payload) (tools st) with
      | Some (existingTool, old) =>
          {| heap := <[existingTool := Tool.assign old payload]> (heap st);
             tools := tools st |}
      | None =>
          {| heap := heap st; tools := tools st ++ [tool] |}
      end
  end.

(** The references of the registry are pairwise distinct and each points
    to an object. *)
Definition wf (st : t) : Prop :=
  NoDup (tools st) ∧ Forall (λ r, is_Some (heap st !! r)) (tools st).

End ToolRegistry.

(** ** Analyzer: intents, entities, matching tools, confidence *)

Module Entities.
Record t : Type := mk {
  files : list string;
  dataTypes : list string;
  codeLanguages : list string;
  visualizationTypes : list string
}.
End Entities.

Module MatchedTool.
Record t : Type := mk {
  tool : Tool.t;
  score : Z
}.
End MatchedTool.

Module Analysis.
Record t : Type := mk {
  query : string;
  intents : list Intent;
  entities : Entities.t;
  matchedTools : list MatchedTool.t;
  confidence : float;
  timestamp : string
}.
End Analysis.

Module Analyzer.

(** *** [extractFileReferences]

    The pattern is [/\b([\w-]+\.(csv|json|txt|md|py|js|html|css|xml|pdf))\b/g]
    and [matchAll] yields the successive non-overlapping matches, each found
    at the leftmost position at or after the end of the previous one. *)

Definition file_extensions : list string :=
  ["csv"; "json"; "txt"; "md"; "py"; "js"; "html"; "css"; "xml"; "pdf"].

(** The class [[\w-]]. *)
Definition is_name_char (c : ascii) : bool :=
  Js.is_word c || bool_decide (c = "-"%char).

(** Length of the longest prefix [[\w-]*] can take. *)
Fixpoint name_run (s : list ascii) : nat :=
  match s with
  | c :: s' => if is_name_char c then S (name_run s') else 0
  | [] => 0
  end.

(** After the dot: the alternatives in order, each followed by [\b]. *)
Fixpoint match_extension (exts : list string) (s : list ascii) : option (list ascii) :=
  match exts with
  | [] => None
  | e :: exts' =>
      let e' := list_ascii_of_string e in
      match Js.strip_prefix e' s with
      | Some rest =>
          if Js.boundary (last e') (head rest) then Some e' else match_extension exts' s
      | None => match_extension exts' s
      end
  end.

(** [[\w-]+] is greedy: it first takes [n] characters, the whole run, and
    gives them back one at a time while the rest of the pattern fails. *)
Fixpoint match_name (n : nat) (s : list ascii) : option (list ascii) :=
  match n with
  | 0 => None
  | S n' =>
      match drop n s with
      | c :: rest =>
          if bool_decide (c = "."%char)
          then match match_extension file_extensions rest with
               | Some e => Some (take n s ++ c :: e)
               | None => match_name n' s
               end
          else match_name n' s
      | [] => match_name n' s
      end
  end.

(** A match starting exactly here; [before] is the preceding character. *)
Definition match_file_at (before : option ascii) (s : list ascii) : option (list ascii) :=
  if Js.boundary before (head s) then match_name (name_run s) s else None.

(** The scan of [matchAll]; [skip] counts the characters of the previous
    match that are still to be passed over. *)
Fixpoint match_all (before : option ascii) (skip : nat) (s : list ascii) : list string :=
  match s with
  | [] => []
  | c :: s' =>
      match skip with
      | S k => match_all (Some c) k s'
      | 0 =>
          match match_file_at before s with
          | Some m => string_of_list_ascii m :: match_all (Some c) (length m - 1) s'
          | None => match_all (Some c) 0 s'
          end
      end
  end.

Definition extractFileReferences (query : string) : list string :=
  match_all None 0 (list_ascii_of_string query).

(** *** [extractCodeLanguages]

    Each pattern is [/\b(alt1|alt2|...)\b/i]; [pattern.test] asks for a match
    anywhere in the text. *)

Definition languagePatterns : list (list string * string) :=
  [ (["python"; "py"], "python");
    (["javascript"; "js"; "node"], "javascript");
    (["typescript"; "ts"], "typescript");
    (["java"], "java");
    (["c++"; "cpp"], "cpp");
    (["c#"; "csharp"], "csharp");
    (["ruby"; "rb"], "ruby");
    (["go"; "golang"], "go");
    (["php"], "php");
    (["sql"], "sql");
    (["bash"; "shell"], "bash");
    (["rust"], "rust");
    (["html"], "html");
    (["css"], "css") ].

(** One of the alternatives matches at the head of [s], then [\b]. *)
Definition match_alternatives (alts : list string) (s : list ascii) : bool :=
  existsb (λ alt,
    let a := list_ascii_of_string alt in
    match Js.strip_prefix_ci a s with
    | Some rest => Js.boundary (last a) (head rest)
    | None => false
    end) alts.

Fixpoint regex_test (alts : list string) (before : option ascii) (s : list ascii) : bool :=
  (Js.boundary before (head s) && match_alternatives alts s) ||
  match s with
  | [] => false
  | c :: s' => regex_test alts (Some c) s'
  end.

Section WithCaseMapping.

(** [String.prototype.toLowerCase]. *)
Variable toLowerCase : string → string.

Definition extractCodeLanguages (query : string) : list string :=
  let lowerQuery := toLowerCase query in
  (filter (λ p, regex_test p.1 None (list_ascii_of_string lowerQuery) = true)
          languagePatterns).*2.

(** [if (cond) arr.push(x)]. *)
Definition push_if {A} (cond : bool) (x : A) (arr : list A) : list A :=
  if cond then arr ++ [x] else arr.

Definition extractDataTypes (query : string) : list string :=
  let lowerQuery := toLowerCase query in
  let has := Js.includes lowerQuery in
  let dataTypes := [] in
  let dataTypes :=
    push_if (has "csv" || has "spreadsheet" || has "excel" || has "table")
            "tabular" dataTypes in
  let dataTypes :=
    push_if (has "json" || has "object" || has "dictionary") "json" dataTypes in
  let dataTypes :=
    push_if (has "text" || has "string" || has "document") "text" dataTypes in
  let dataTypes :=
    push_if (has "image" || has "picture" || has "photo" || has "graphic")
            "image" dataTypes in
  dataTypes.

Definition extractVisualizationTypes (query : string) : list string :=
  let lowerQuery := toLowerCase query in
  let has := Js.includes lowerQuery in
  let types := [] in
  let types := push_if (has "bar" || has "column") "bar_chart" types in
  let types := push_if (has "line" || has "trend") "line_chart" types in
  let types := push_if (has "pie" || has "donut") "pie_chart" types in
  let types := push_if (has "scatter" || has "point") "scatter_plot" types in
  let types := push_if (has "heatmap" || has "heat map") "heatmap" types in
  let types := push_if (has "histogram") "histogram" types in
  let types := push_if (has "box plot" || has "boxplot") "box_plot" types in
  types.

(** The keyword tests of [analyzeRequest], up to and including the
    fall-back to [UNKNOWN]. *)
Definition detectIntents (query : string) : list Intent :=
  let lowerQuery := toLowerCase query in
  let has := Js.includes lowerQuery in
  let intents := [] in
  let intents :=
    push_if (has "file" || has "read" || has "write" || has "save" ||
             has "load" || has "csv" || has "json" || has "txt")
            FILE_OPERATION intents in
  let intents :=
    push_if (has "process" || has "transform" || has "extract" ||
             has "convert" || has "analyze" || has "calculate")
            DATA_PROCESSING intents in
  let intents :=
    push_if (has "code" || has "program" || has "function" || has "script" ||
             has "algorithm" || has "develop")
            CODE_GENERATION intents in
  let intents :=
    push_if (has "visualize" || has "chart" || has "plot" || has "graph" ||
             has "dashboard" || has "display")
            VISUALIZATION intents in
  let intents :=
    push_if (has "search" || has "find" || has "lookup" || has "retrieve" ||
             has "get information")
            KNOWLEDGE_RETRIEVAL intents in
  let intents :=
    push_if (has "run" || has "execute" || has "terminal" || has "command" ||
             has "shell" || has "bash")
            TERMINAL_EXECUTION intents in
  let intents :=
    push_if (has "web" || has "internet" || has "online" || has "website" ||
             has "url" || has "http")
            WEB_SEARCH intents in
  push_if (bool_decide (length intents = 0)) UNKNOWN intents.

(** *** [calculateToolMatchScore] *)

(** [entities.filter(e => capability.includes(key(e))).length * weight],
    nothing when the capability is absent. *)
Definition score_term {A} (capability : Capabilities.t → option (list string))
    (key : A → string) (weight : Z) (tool : Tool.t) (values : list A) : Z :=
  match Tool.capabilities tool with
  | Some c =>
      match capability c with
      | Some declared =>
          (Z.of_nat (length (filter (λ v, key v ∈ declared) values)) * weight)%Z
      | None => 0%Z
      end
  | None => 0%Z
  end.

(** [file.split('.').pop().toLowerCase()]. *)
Definition extension (file : string) : string :=
  toLowerCase (Js.split_pop "." file).

Definition calculateToolMatchScore (tool : Tool.t) (entities : Entities.t) : Z :=
  let score := 0%Z in
  let score :=
    (score + score_term Capabilities.fileTypes extension 10 tool
                        (Entities.files entities))%Z in
  let score :=
    (score + score_term Capabilities.dataTypes (λ type, type) 5 tool
                        (Entities.dataTypes entities))%Z in
  let score :=
    (score + score_term Capabilities.languages (λ lang, lang) 8 tool
                        (Entities.codeLanguages entities))%Z in
  let score :=
    (score + score_term Capabilities.visualizationTypes (λ type, type) 7 tool
                        (Entities.visualizationTypes entities))%Z in
  score.

(** *** [matchToolsToIntents] *)

(** [tool.capabilities && tool.capabilities.intents &&
     tool.capabilities.intents.includes(intent)]. *)
Definition declares (tool : Tool.t) (intent : Intent) : bool :=
  match Tool.capabilities tool with
  | Some c =>
      match Capabilities.intents c with
      | Some declared => bool_decide (intent ∈ declared)
      | None => false
      end
  | None => false
  end.

Definition intentMatch (tool : Tool.t) (intents : list Intent) : bool :=
  existsb (declares tool) intents.

(** The loop over [allTools], before the sort. *)
Fixpoint collectMatches (allTools : list Tool.t) (intents : list Intent)
    (entities : Entities.t) : list MatchedTool.t :=
  match allTools with
  | [] => []
  | tool :: rest =>
      let others := collectMatches rest intents entities in
      if intentMatch tool intents then
        let score := calculateToolMatchScore tool entities in
        if (0 <? score)%Z then MatchedTool.mk tool score :: others else others
      else others
  end.

(** The comparator [(a, b) => b.score - a.score]. *)
Definition byScoreDescending (a b : MatchedTool.t) : Z :=
  (MatchedTool.score b - MatchedTool.score a)%Z.

Definition matchToolsToIntents (registry : ToolRegistry.t) (intents : list Intent)
    (entities : Entities.t) : list MatchedTool.t :=
  let allTools := ToolRegistry.getTools registry in
  let matchedTools := collectMatches allTools intents entities in
  Js.sort byScoreDescending matchedTools.

(** *** [calculateConfidence] *)

(** [Math.min] on two numbers. *)
Definition Math_min (a b : float) : float :=
  if PrimFloat.is_nan a || PrimFloat.is_nan b then PrimFloat.nan
  else if PrimFloat.ltb a b then a
  else if PrimFloat.ltb b a then b
  else if PrimFloat.get_sign a then a else b.

Definition calculateConfidence (intents : list Intent) (entities : Entities.t) : float :=
  let confidence := 0%float in
  let confidence :=
    if negb (bool_decide (UNKNOWN ∈ intents)) then (confidence + 0.4)%float
    else confidence in
  let confidence :=
    if (0 <? length (Entities.files entities))%nat then (confidence + 0.15)%float
    else confidence in
  let confidence :=
    if (0 <? length (Entities.dataTypes entities))%nat then (confidence + 0.15)%float
    else confidence in
  let confidence :=
    if (0 <? length (Entities.codeLanguages entities))%nat then (confidence + 0.15)%float
    else confidence in
  let confidence :=
    if (0 <? length (Entities.visualizationTypes entities))%nat
    then (confidence + 0.15)%float
    else confidence in
  Math_min confidence 1.0%float.

(** *** [analyzeRequest]

    [now] is the text of [new Date().toISOString()] at the time of the call. *)
Definition analyzeRequest (registry : ToolRegistry.t) (now : string)
    (query : string) : Analysis.t :=
  let intents := detectIntents query in
  let entities :=
    {| Entities.files := extractFileReferences query;
       Entities.dataTypes := extractDataTypes query;
       Entities.codeLanguages := extractCodeLanguages query;
       Entities.visualizationTypes := extractVisualizationTypes query |} in
  let matchedTools := matchToolsToIntents registry intents entities in
  {| Analysis.query := query;
     Analysis.intents := intents;
     Analysis.entities := entities;
     Analysis.matchedTools := matchedTools;
     Analysis.confidence := calculateConfidence intents entities;
     Analysis.timestamp := now |}.

End WithCaseMapping.

End Analyzer.

(** ** Orchestrator: execution plans *)

Module Mapping.
Record t : Type := mk {
  fromParam : string;
  toParam : string
}.
End Mapping.

(** One entry of [plan.dataFlow]. *)
Module DataFlow.
Record t : Type := mk {
  from : string;
  to : string;
  mappings : list Mapping.t
}.
End DataFlow.

Module Step.
Record t : Type := mk {
  stepId : string;
  intent : Intent;
  toolId : option string;
  toolName : option string;
  inputParams : Params;
  outputParams : Js.value
}.
End Step.

Module Suggestion.
Record t : Type := mk {
  intent : Intent;
  description : string;
  template : Tool.t
}.
End Suggestion.

(** The two plan objects [createExecutionPlan] returns have different
    properties; an absent one is [None]. *)
Module Plan.
Record t : Type := mk {
  planId : option string;
  canExecute : bool;
  reason : option string;
  steps : option (list Step.t);
  dataFlow : option (JsObject.t DataFlow.t);
  timestamp : option string;
  unaddressedIntents : option (list Intent);
  suggestedTools : option (list Suggestion.t)
}.
End Plan.

(** What the orchestrator reads from its environment: [Date.now()],
    [Math.floor(Math.random() * 1000)] and [new Date().toISOString()]. *)
Module Env.
Record t : Type := mk {
  dateNow : N;
  random1000 : N;
  isoString : string
}.
End Env.

Module Orchestrator.

(** [findBestToolForIntent] *)
Definition findBestToolForIntent (intent : Intent)
    (matchedTools : list MatchedTool.t) : option MatchedTool.t :=
  let toolsForIntent :=
    filter (λ tool, Analyzer.declares (MatchedTool.tool tool) intent = true)
           matchedTools in
  let toolsForIntent := Js.sort Analyzer.byScoreDescending toolsForIntent in
  if (0 <? length toolsForIntent)%nat then head toolsForIntent else None.

(** [if (arr.length > 0) params[key] = arr[0]]. *)
Definition set_first (key : string) (arr : list string) (params : Params) : Params :=
  match arr with
  | first :: _ => JsObject.set params key (Js.VStr first)
  | [] => params
  end.

(** [determineInputParams] *)
Definition determineInputParams (intent : Intent) (entities : Entities.t)
    (tool : Tool.t) : Params :=
  let params : Params := [] in
  let params :=
    match intent with
    | FILE_OPERATION =>
        set_first "filePath" (Entities.files entities) params
    | DATA_PROCESSING =>
        let params := set_first "inputFile" (Entities.files entities) params in
        set_first "dataType" (Entities.dataTypes entities) params
    | CODE_GENERATION =>
        set_first "language" (Entities.codeLanguages entities) params
    | VISUALIZATION =>
        let params := set_first "dataSource" (Entities.files entities) params in
        set_first "visualizationType" (Entities.visualizationTypes entities) params
    | KNOWLEDGE_RETRIEVAL => params
    | TERMINAL_EXECUTION => params
    | WEB_SEARCH => params
    | UNKNOWN => params
    end in
  match Tool.defaultParams tool with
  | Some defaultParams => JsObject.assign defaultParams params
  | None => params
  end.

(** The generic output schema of an intent. *)
Definition genericOutputs (intent : Intent) : Js.value :=
  let success := ("success", Js.VBool true) in
  match intent with
  | FILE_OPERATION => Js.VObj [success; ("filePath", Js.VStr "")]
  | DATA_PROCESSING => Js.VObj [success; ("result", Js.VObj [])]
  | CODE_GENERATION => Js.VObj [success; ("code", Js.VStr "")]
  | VISUALIZATION => Js.VObj [success; ("visualizationPath", Js.VStr "")]
  | KNOWLEDGE_RETRIEVAL => Js.VObj [success; ("knowledge", Js.VObj [])]
  | TERMINAL_EXECUTION => Js.VObj [success; ("output", Js.VStr "")]
  | WEB_SEARCH => Js.VObj [success; ("results", Js.VArr [])]
  | UNKNOWN => Js.VObj [success]
  end.

(** [determineOutputParams] *)
Definition determineOutputParams (intent : Intent) (tool : Tool.t) : Js.value :=
  match Tool.outputs tool with
  | Some outputs => if Js.truthy outputs then outputs else genericOutputs intent
  | None => genericOutputs intent
  end.

(** The loop of [createDataFlowMap]: one entry per step that has a successor. *)
Fixpoint createDataFlowMap_from (steps : list Step.t)
    (dataFlow : JsObject.t DataFlow.t) : JsObject.t DataFlow.t :=
  match steps with
  | [] => dataFlow
  | currentStep :: rest =>
      match rest with
      | [] => dataFlow
      | nextStep :: _ =>
          createDataFlowMap_from rest
            (JsObject.set dataFlow
               (Step.stepId currentStep +:+ ":" +:+ Step.stepId nextStep)
               {| DataFlow.from := Step.stepId currentStep;
                  DataFlow.to := Step.stepId nextStep;
                  DataFlow.mappings :=
                    [ {| Mapping.fromParam := "result"; Mapping.toParam := "input" |} ] |})
      end
  end.

Definition createDataFlowMap (steps : list Step.t) : JsObject.t DataFlow.t :=
  createDataFlowMap_from steps [].

(** [generatePlanId] *)
Definition generatePlanId (env : Env.t) : string :=
  "plan_" +:+ pretty (Env.dateNow env) +:+ "_" +:+ pretty (Env.random1000 env).

(** [intent.toLowerCase()]; the names of the intents are ASCII. *)
Definition lowerName (intent : Intent) : string :=
  Js.toLowerCase_ascii (INTENT_TYPES intent).

(** [word.charAt(0) + word.slice(1).toLowerCase()] *)
Definition capitalized (word : string) : string :=
  match word with
  | EmptyString => EmptyString
  | String c rest => String c (Js.toLowerCase_ascii rest)
  end.

(** [generateToolTemplate] *)
Definition generateToolTemplate (intent : Intent) (entities : Entities.t) : Tool.t :=
  let success := ("success", Js.VBool true) in
  let capabilities := Capabilities.mk (Some [intent]) None None None None in
  let template (capabilities : Capabilities.t) (defaultParams : Params)
      (outputs : list (string * Js.value)) : Tool.t :=
    {| Tool.id := Some (lowerName intent +:+ "_tool");
       Tool.name :=
         Some (Js.join " " (capitalized <$> Js.split "_" (INTENT_TYPES intent)) +:+ " Tool");
       Tool.version := Some "0.1.0";
       Tool.description :=
         Some ("A tool for " +:+ Js.replace_first "_" " " (lowerName intent));
       Tool.type := None;
       Tool.apiEndpoint := None;
       Tool.capabilities := Some capabilities;
       Tool.defaultParams := Some defaultParams;
       Tool.outputs := Some (Js.VObj outputs);
       Tool.execute := None;
       Tool.executionConfig := None |} in
  match intent with
  | FILE_OPERATION =>
      template
        (Capabilities.mk (Some [intent])
           (Some (Js.split_pop "." <$> Entities.files entities)) None None None)
        [("filePath", Js.VStr "")]
        [success; ("filePath", Js.VStr "")]
  | DATA_PROCESSING =>
      template
        (Capabilities.mk (Some [intent]) None (Some (Entities.dataTypes entities))
           None None)
        [("inputData", Js.VObj [])]
        [success; ("result", Js.VObj [])]
  | CODE_GENERATION =>
      template
        (Capabilities.mk (Some [intent]) None None
           (Some (Entities.codeLanguages entities)) None)
        [("prompt", Js.VStr "")]
        [success; ("code", Js.VStr "")]
  | VISUALIZATION =>
      template
        (Capabilities.mk (Some [intent]) None None None
           (Some (Entities.visualizationTypes entities)))
        [("data", Js.VObj [])]
        [success; ("visualizationPath", Js.VStr "")]
  | KNOWLEDGE_RETRIEVAL =>
      template capabilities [("query", Js.VStr "")] [success; ("knowledge", Js.VObj [])]
  | TERMINAL_EXECUTION =>
      template capabilities [("command", Js.VStr "")] [success; ("output", Js.VStr "")]
  | WEB_SEARCH =>
      template capabilities [("query", Js.VStr "")] [success; ("results", Js.VArr [])]
  | UNKNOWN =>
      template capabilities [] []
  end.

(** The description of one suggestion. *)
Definition describe (intent : Intent) (entities : Entities.t) : string :=
  let description :=
    "A tool that can handle " +:+ Js.replace_first "_" " " (lowerName intent) in
  let nonempty (l : list string) := (0 <? length l)%nat in
  let description :=
    if bool_decide (intent = FILE_OPERATION) && nonempty (Entities.files entities)
    then
      let extensions := Js.unique (Js.split_pop "." <$> Entities.files entities) in
      description +:+ " for " +:+ Js.join ", " extensions +:+ " files"
    else description in
  let description :=
    if bool_decide (intent = DATA_PROCESSING) && nonempty (Entities.dataTypes entities)
    then description +:+ " with " +:+ Js.join ", " (Entities.dataTypes entities) +:+ " data"
    else description in
  let description :=
    if bool_decide (intent = CODE_GENERATION) && nonempty (Entities.codeLanguages entities)
    then description +:+ " in " +:+ Js.join ", " (Entities.codeLanguages entities)
    else description in
  let description :=
    if bool_decide (intent = VISUALIZATION) &&
       nonempty (Entities.visualizationTypes entities)
    then description +:+ " for " +:+
         Js.join ", " (Entities.visualizationTypes entities) +:+ " visualizations"
    else description in
  description.

(** [suggestToolsToCreate] *)
Fixpoint suggestToolsToCreate (intents : list Intent) (entities : Entities.t)
  : list Suggestion.t :=
  match intents with
  | [] => []
  | intent :: rest =>
      if bool_decide (intent = UNKNOWN) then suggestToolsToCreate rest entities
      else
        {| Suggestion.intent := intent;
           Suggestion.description := describe intent entities;
           Suggestion.template := generateToolTemplate intent entities |}
        :: suggestToolsToCreate rest entities
  end.

(** One turn of the loop over the intents: [steps] and [addressedIntents]
    after it. *)
Definition addressIntent (entities : Entities.t) (matchedTools : list MatchedTool.t)
    (state : list Step.t * gset Intent) (intent : Intent)
  : list Step.t * gset Intent :=
  let '(steps, addressedIntents) := state in
  if bool_decide (intent = UNKNOWN) then state
  else
    match findBestToolForIntent intent matchedTools with
    | Some toolForIntent =>
        let tool := MatchedTool.tool toolForIntent in
        (steps ++
           [ {| Step.stepId := "step_" +:+ pretty (length steps + 1);
                Step.intent := intent;
                Step.toolId := Tool.id tool;
                Step.toolName := Tool.name tool;
                Step.inputParams := determineInputParams intent entities tool;
                Step.outputParams := determineOutputParams intent tool |} ],
         {[ intent ]} ∪ addressedIntents)
    | None => state
    end.

(** The steps the loop over the intents pushes when [n] steps are already
    there, by recursion on the intents still to come. *)
Fixpoint emitted (entities : Entities.t) (matchedTools : list MatchedTool.t)
    (n : nat) (intents : list Intent) : list Step.t :=
  match intents with
  | [] => []
  | intent :: rest =>
      if bool_decide (intent = UNKNOWN) then emitted entities matchedTools n rest
      else
        match findBestToolForIntent intent matchedTools with
        | Some toolForIntent =>
            let tool := MatchedTool.tool toolForIntent in
            {| Step.stepId := "step_" +:+ pretty (n + 1);
               Step.intent := intent;
               Step.toolId := Tool.id tool;
               Step.toolName := Tool.name tool;
               Step.inputParams := determineInputParams intent entities tool;
               Step.outputParams := determineOutputParams intent tool |}
            :: emitted entities matchedTools (S n) rest
        | None => emitted entities matchedTools n rest
        end
  end.

(** [createExecutionPlan] *)
Definition createExecutionPlan (env : Env.t) (analysis : Analysis.t) : Plan.t :=
  let intents := Analysis.intents analysis in
  let entities := Analysis.entities analysis in
  let matchedTools := Analysis.matchedTools analysis in
  if bool_decide (length matchedTools = 0) then
    {| Plan.planId := None;
       Plan.canExecute := false;
       Plan.reason := Some "No suitable tools found";
       Plan.steps := None;
       Plan.dataFlow := None;
       Plan.timestamp := None;
       Plan.unaddressedIntents := None;
       Plan.suggestedTools := Some (suggestToolsToCreate intents entities) |}
  else
    let '(steps, addressedIntents) :=
      foldl (addressIntent entities matchedTools) ([], ∅) intents in
    let unaddressedIntents :=
      filter (λ intent, intent ≠ UNKNOWN ∧ intent ∉ addressedIntents) intents in
    {| Plan.planId := Some (generatePlanId env);
       Plan.canExecute := (0 <? length steps)%nat;
       Plan.reason := None;
       Plan.steps := Some steps;
       Plan.dataFlow := Some (createDataFlowMap steps);
       Plan.timestamp := Some (Env.isoString env);
       Plan.unaddressedIntents :=
         if (0 <? length unaddressedIntents)%nat then Some unaddressedIntents else None;
       Plan.suggestedTools :=
         if (0 <? length unaddressedIntents)%nat
         then Some (suggestToolsToCreate unaddressedIntents entities)
         else None |}.

End Orchestrator.

(** ** Executor: running a plan *)

(** An entry of [stepResults]: [{success: true, result}] or
    [{success: false, error}]. *)
Module StepResult.
Record t : Type := mk {
  success : bool;
  result : option Js.value;
  error : option string
}.
Definition succeeded (result : Js.value) : t := mk true (Some result) None.
Definition failed (error : string) : t := mk false None (Some error).
End StepResult.

(** What [executeRequest] returns: [{success, reason, suggestedTools}] for
    a plan that cannot be executed, and
    [{planId, success, stepResults, error, timestamp}] otherwise
    ([error] is [null] when [None] there). *)
Module ExecutionResult.
Record t : Type := mk {
  planId : option string;
  success : bool;
  reason : option string;
  suggestedTools : option (list Suggestion.t);
  stepResults : option (JsObject.t StepResult.t);
  error : option string;
  timestamp : option string
}.
End ExecutionResult.

Module Executor.

(** [getToolInstance] *)
Definition getToolInstance (registry : ToolRegistry.t) (toolId : option string)
  : option Tool.t :=
  snd <$> ToolRegistry.find (ToolRegistry.heap registry) toolId
                            (ToolRegistry.tools registry).

(** [sourceStepResult.result[fromParam]].  Reading a property of
    [undefined] or [null] throws; own properties of objects are read;
    properties of other values are not modelled and read as [undefined]. *)
Definition readProperty (result : option Js.value) (fromParam : string)
  : Js.completion Js.value :=
  match result with
  | None | Some Js.VUndefined =>
      Js.Throw (Js.TypeError
        ("Cannot read properties of undefined (reading '" +:+ fromParam +:+ "')"))
  | Some Js.VNull =>
      Js.Throw (Js.TypeError
        ("Cannot read properties of null (reading '" +:+ fromParam +:+ "')"))
  | Some (Js.VObj o) => Js.Normal (default Js.VUndefined (JsObject.get o fromParam))
  | Some _ => Js.Normal Js.VUndefined
  end.

(** The inner loop of [transformInputParams] over one connection's mappings. *)
Fixpoint applyMappings (sourceResult : option Js.value) (mappings : list Mapping.t)
    (inputParams : Params) : Js.completion Params :=
  match mappings with
  | [] => Js.Normal inputParams
  | mapping :: rest =>
      Js.bind (readProperty sourceResult (Mapping.fromParam mapping)) (λ sourceValue,
        applyMappings sourceResult rest
          match sourceValue with
          | Js.VUndefined => inputParams
          | _ => JsObject.set inputParams (Mapping.toParam mapping) sourceValue
          end)
  end.

(** The outer loop of [transformInputParams] over the connections. *)
Fixpoint applyConnections (stepResults : JsObject.t StepResult.t)
    (connections : list DataFlow.t) (inputParams : Params) : Js.completion Params :=
  match connections with
  | [] => Js.Normal inputParams
  | connection :: rest =>
      match JsObject.get stepResults (DataFlow.from connection) with
      | Some sourceStepResult =>
          if StepResult.success sourceStepResult then
            Js.bind (applyMappings (StepResult.result sourceStepResult)
                                   (DataFlow.mappings connection) inputParams)
                    (applyConnections stepResults rest)
          else applyConnections stepResults rest inputParams
      | None => applyConnections stepResults rest inputParams
      end
  end.

(** [transformInputParams]; [Object.values] throws on an absent [dataFlow]. *)
Definition transformInputParams (step : Step.t)
    (stepResults : JsObject.t StepResult.t)
    (dataFlow : option (JsObject.t DataFlow.t)) : Js.completion Params :=
  let inputParams := Step.inputParams step in
  match dataFlow with
  | None => Js.Throw (Js.TypeError "Cannot convert undefined or null to object")
  | Some dataFlow =>
      let connections :=
        filter (λ flow, DataFlow.to flow = Step.stepId step) (JsObject.values dataFlow) in
      applyConnections stepResults connections inputParams
  end.

Definition placeholderResult (message : string) (params : Params) : Js.value :=
  Js.VObj [ ("status", Js.VStr "success");
            ("message", Js.VStr message);
            ("params", Js.VObj params) ].

(** [executeHttpTool] *)
Definition executeHttpTool (config : ExecutionConfig.t) (params : Params)
  : Js.completion Js.value :=
  Js.Normal (placeholderResult "HTTP tool executed successfully" params).

(** [executeCommandLineTool] *)
Definition executeCommandLineTool (config : ExecutionConfig.t) (params : Params)
  : Js.completion Js.value :=
  Js.Normal (placeholderResult "Command-line tool executed successfully" params).

(** [executeDeclarativeTool] *)
Definition executeDeclarativeTool (executionConfig : ExecutionConfig.t)
    (params : Params) : Js.completion Js.value :=
  let type := ExecutionConfig.type executionConfig in
  if bool_decide (type = Some "http") then executeHttpTool executionConfig params
  else if bool_decide (type = Some "command-line")
  then executeCommandLineTool executionConfig params
  else Js.Throw (Js.PlainError ("Unknown execution type: " +:+ Js.show type)).

(** [!s] for a possibly absent string. *)
Definition falsy (s : option string) : bool :=
  match s with
  | None => true
  | Some s => bool_decide (s = EmptyString)
  end.

(** [executeMcpServer] *)
Definition executeMcpServer (tool : Tool.t) (params : Params) : Js.completion Js.value :=
  if falsy (Tool.apiEndpoint tool) then
    Js.Throw (Js.PlainError
      ("MCP server " +:+ Js.show (Tool.id tool) +:+ " doesn't have an API endpoint"))
  else
    Js.Normal (Js.VObj
      [ ("status", Js.VStr "success");
        ("message", Js.VStr "MCP server executed successfully");
        ("result", Js.VObj
           [ ("data", Js.VObj []);
             ("metadata", Js.VObj
                [ ("processingTime", Js.VStr "50ms");
                  ("server", from_option Js.VStr Js.VUndefined (Tool.id tool)) ]) ]) ]).

(** [executeTool]: the three mechanisms in order of priority. *)
Definition executeTool (tool : Tool.t) (params : Params) : Js.completion Js.value :=
  match Tool.execute tool with
  | Some execute => execute params
  | None =>
      match Tool.executionConfig tool with
      | Some executionConfig => executeDeclarativeTool executionConfig params
      | None =>
          if bool_decide (Tool.type tool = Some "mcp-server")
          then executeMcpServer tool params
          else Js.Throw (Js.PlainError
                 ("Tool " +:+ Js.show (Tool.id tool) +:+
                  " doesn't have a valid execution mechanism"))
      end
  end.

(** The state of the loop of [executeRequest]. *)
Record Run : Type := mkRun {
  stepResults : JsObject.t StepResult.t;
  overallSuccess : bool;
  errorMessage : option string
}.

(** [error.message] in the [catch] block of the loop: the message of an
    [Error]; [undefined] for a thrown value without one; reading it off a
    thrown [undefined] or [null] throws in turn. *)
Definition caughtMessage (thrown : Js.Error + Js.nonError)
  : Js.completion (option string) :=
  match thrown with
  | inl error => Js.Normal (Some (Js.message error))
  | inr Js.ThrownMessageless => Js.Normal None
  | inr Js.ThrownUndefined =>
      Js.Throw (Js.TypeError "Cannot read properties of undefined (reading 'message')")
  | inr Js.ThrownNull =>
      Js.Throw (Js.TypeError "Cannot read properties of null (reading 'message')")
  end.

(** The [catch] block of the loop: [{success: false, error: error.message}]
    is recorded under the step id and the loop ends; when [error.message]
    throws, nothing is recorded and the exception leaves [executeRequest]. *)
Definition catchStep (step : Step.t) (stepResults : JsObject.t StepResult.t)
    (thrown : Js.Error + Js.nonError) : Js.completion Run :=
  Js.bind (caughtMessage thrown) (λ message,
    Js.Normal
      (mkRun (JsObject.set stepResults (Step.stepId step)
                {| StepResult.success := false;
                   StepResult.result := None;
                   StepResult.error := message |})
             false
             (Some ("Error in step " +:+ Step.stepId step +:+ ": " +:+ Js.show message)))).

(** The loop over [plan.steps]: each body either records a success and goes
    on, or records a failure and breaks, or (in the [catch] block) throws.
    [stepResults] is a plain object keyed by step ids; see [JsObject] for
    the ids on which an insertion-ordered dictionary is what it does. *)
Fixpoint runSteps (registry : ToolRegistry.t)
    (dataFlow : option (JsObject.t DataFlow.t)) (steps : list Step.t)
    (stepResults : JsObject.t StepResult.t) : Js.completion Run :=
  match steps with
  | [] => Js.Normal (mkRun stepResults true None)
  | step :: rest =>
      match getToolInstance registry (Step.toolId step) with
      | None =>
          let error := "Tool " +:+ Js.show (Step.toolId step) +:+ " not found" in
          Js.Normal
            (mkRun (JsObject.set stepResults (Step.stepId step) (StepResult.failed error))
                   false (Some error))
      | Some toolInstance =>
          match Js.bind (transformInputParams step stepResults dataFlow)
                        (executeTool toolInstance) with
          | Js.Normal result =>
              runSteps registry dataFlow rest
                (JsObject.set stepResults (Step.stepId step) (StepResult.succeeded result))
          | Js.Throw error => catchStep step stepResults (inl error)
          | Js.ThrowValue value => catchStep step stepResults (inr value)
          end
      end
  end.

(** [executeRequest]; [now] is the text of [new Date().toISOString()].
    The first statement logs [plan.steps.length], which throws when the
    plan has no [steps] property; an exception of the [catch] block of the
    loop is not caught. *)
Definition executeRequest (now : string) (registry : ToolRegistry.t) (plan : Plan.t)
  : Js.completion ExecutionResult.t :=
  match Plan.steps plan with
  | None =>
      Js.Throw (Js.TypeError "Cannot read properties of undefined (reading 'length')")
  | Some steps =>
      if negb (Plan.canExecute plan) then
        Js.Normal
          {| ExecutionResult.planId := None;
             ExecutionResult.success := false;
             ExecutionResult.reason :=
               Some (if falsy (Plan.reason plan) then "Plan cannot be executed"
                     else Js.show (Plan.reason plan));
             ExecutionResult.suggestedTools := Plan.suggestedTools plan;
             ExecutionResult.stepResults := None;
             ExecutionResult.error := None;
             ExecutionResult.timestamp := None |}
      else
        Js.bind (runSteps registry (Plan.dataFlow plan) steps []) (λ run,
          Js.Normal
            {| ExecutionResult.planId := Plan.planId plan;
               ExecutionResult.success := overallSuccess run;
               ExecutionResult.reason := None;
               ExecutionResult.suggestedTools := None;
               ExecutionResult.stepResults := Some (stepResults run);
               ExecutionResult.error := errorMessage run;
               ExecutionResult.timestamp := Some now |})
  end.

(** [createMcpServer], up to the registration: the definition object is
    completed in place, then registered. *)
Definition createMcpServer (dateNow : N) (registry : ToolRegistry.t)
    (definition : ToolRegistry.loc) : ToolRegistry.t :=
  match ToolRegistry.heap registry !! definition with
  | None => registry
  | Some d =>
      let d :=
        if falsy (Tool.id d) then Tool.with_id d ("mcp-server-" +:+ pretty dateNow)
        else d in
      let d := Tool.with_type d "mcp-server" in
      ToolRegistry.registerTool
        {| ToolRegistry.heap := <[definition := d]> (ToolRegistry.heap registry);
           ToolRegistry.tools := ToolRegistry.tools registry |}
        definition
  end.

End Executor.

(** ** Tool generator and the registration route *)

(** What the file system answers to the calls of [generateToolDefinition]
    on the tools directory and the definition file: [None] when the call
    succeeds, the error it rejects with otherwise. *)
Module Fs.
Record t : Type := mk {
  access : option Js.Error;
  mkdir : option Js.Error;
  writeFile : option Js.Error
}.
End Fs.

Module ToolGenerator.

(** [/[^a-z0-9]+/g] replaced by ['-']: every maximal run of characters
    other than lower-case letters and digits becomes one dash. *)
Definition keeps (c : ascii) : bool := Js.is_lower c || Js.is_digit c.

Fixpoint dashes (inRun : bool) (s : string) : string :=
  match s with
  | EmptyString => EmptyString
  | String c s' =>
      if keeps c then String c (dashes false s')
      else if inRun then dashes true s'
      else String "-" (dashes true s')
  end.

Section WithCaseMapping.
Variable toLowerCase : string → string.

(** [definition.name.toLowerCase().replace(/[^a-z0-9]+/g, '-')] *)
Definition slug (name : string) : string := dashes false (toLowerCase name).

(** The statement of [generateToolDefinition] that completes the
    definition: [if (!definition.id) definition.id = slug(definition.name)].
    Reading [toLowerCase] of an absent name throws. *)
Definition deriveId (heap : gmap ToolRegistry.loc Tool.t) (definition : ToolRegistry.loc)
  : Js.completion (gmap ToolRegistry.loc Tool.t) :=
  match heap !! definition with
  | None => Js.Normal heap
  | Some d =>
      if Executor.falsy (Tool.id d) then
        match Tool.name d with
        | None =>
            Js.Throw (Js.TypeError
              "Cannot read properties of undefined (reading 'toLowerCase')")
        | Some name =>
            Js.Normal (<[definition := Tool.with_id d (slug name)]> heap)
        end
      else Js.Normal heap
  end.

(** The first statement of [generateToolDefinition]: the tools directory
    is there, or it is created; a failing [mkdir] is not caught here. *)
Definition ensureToolsDir (fs : Fs.t) : Js.completion () :=
  match Fs.access fs with
  | None => Js.Normal ()
  | Some _ => from_option Js.Throw (Js.Normal ()) (Fs.mkdir fs)
  end.

(** [generateToolDefinition]: the directory, then the id, then the file.
    The outer [catch] logs and rethrows.  The result is the heap, where the
    definition may have got its id, and how the call completes; the path it
    returns and the text of the file are not modelled. *)
Definition generateToolDefinition (fs : Fs.t) (heap : gmap ToolRegistry.loc Tool.t)
    (definition : ToolRegistry.loc)
  : gmap ToolRegistry.loc Tool.t * Js.completion () :=
  match ensureToolsDir fs with
  | Js.Normal _ =>
      match deriveId heap definition with
      | Js.Normal heap => (heap, from_option Js.Throw (Js.Normal ()) (Fs.writeFile fs))
      | Js.Throw error => (heap, Js.Throw error)
      | Js.ThrowValue value => (heap, Js.ThrowValue value)
      end
  | Js.Throw error => (heap, Js.Throw error)
  | Js.ThrowValue value => (heap, Js.ThrowValue value)
  end.

(** The handler of [POST /register]: a body without a name is refused;
    otherwise the tool is registered first, and only then, and only for an
    MCP server, is the definition file generated, which is where a missing
    id is derived; an exception of the generator is logged and dropped.
    The registry after the request. *)
Definition registerRoute (fs : Fs.t) (registry : ToolRegistry.t)
    (toolDefinition : ToolRegistry.loc) : ToolRegistry.t :=
  match ToolRegistry.heap registry !! toolDefinition with
  | None => registry
  | Some body =>
      if Executor.falsy (Tool.name body) then registry
      else
        let registry := ToolRegistry.registerTool registry toolDefinition in
        if bool_decide (Tool.type body = Some "mcp-server") then
          {| ToolRegistry.heap :=
               (generateToolDefinition fs (ToolRegistry.heap registry) toolDefinition).1;
             ToolRegistry.tools := ToolRegistry.tools registry |}
        else registry
  end.

End WithCaseMapping.

End ToolGenerator.

(** ** The specification's own notions *)

Module Spec.

(** The keyword table of the intent classifier, one row per intent. *)
Definition intentKeywords (intent : Intent) : list string :=
  match intent with
  | FILE_OPERATION => ["file"; "read"; "write"; "save"; "load"; "csv"; "json"; "txt"]
  | DATA_PROCESSING =>
      ["process"; "transform"; "extract"; "convert"; "analyze"; "calculate"]
  | CODE_GENERATION =>
      ["code"; "program"; "function"; "script"; "algorithm"; "develop"]
  | VISUALIZATION => ["visualize"; "chart"; "plot"; "graph"; "dashboard"; "display"]
  | KNOWLEDGE_RETRIEVAL => ["search"; "find"; "lookup"; "retrieve"; "get information"]
  | TERMINAL_EXECUTION => ["run"; "execute"; "terminal"; "command"; "shell"; "bash"]
  | WEB_SEARCH => ["web"; "internet"; "online"; "website"; "url"; "http"]
  | UNKNOWN => []
  end.

(** The intents in the order the classifier tests them. *)
Definition classifiedIntents : list Intent :=
  [ FILE_OPERATION; DATA_PROCESSING; CODE_GENERATION; VISUALIZATION;
    KNOWLEDGE_RETRIEVAL; TERMINAL_EXECUTION; WEB_SEARCH ].

(** Some keyword of the intent occurs in the lower-cased query. *)
Definition triggered (lowerQuery : string) (intent : Intent) : bool :=
  existsb (Js.includes lowerQuery) (intentKeywords intent).

(** The number of entity categories that are not empty. *)
Definition nonEmptyCategories (entities : Entities.t) : nat :=
  let one (l : list string) := if l is [] then 0 else 1 in
  one (Entities.files entities) + one (Entities.dataTypes entities) +
  one (Entities.codeLanguages entities) + one (Entities.visualizationTypes entities).

(** 0.4 for recognised intents, plus 0.15 per non-empty category, capped
    at 1.0; sums are sums of numbers, taken one term after the other. *)
Definition confidence (recognised : bool) (categories : nat) : float :=
  let base := if recognised then 0.4%float else 0%float in
  Analyzer.Math_min (Nat.iter categories (λ c, (c + 0.15)%float) base) 1.0%float.

(** The parameters derived from the entities for an intent: for
    FILE_OPERATION the first file as [filePath]; for DATA_PROCESSING the
    first file as [inputFile] and the first data type as [dataType]; for
    CODE_GENERATION the first language; for VISUALIZATION the first file as
    [dataSource] and the first visualization type; none for the others. *)
Definition entityDefaults (intent : Intent) (entities : Entities.t) : Params :=
  let first (key : string) (values : list string) : Params :=
    from_option (λ v, [(key, Js.VStr v)]) [] (head values) in
  match intent with
  | FILE_OPERATION => first "filePath" (Entities.files entities)
  | DATA_PROCESSING =>
      first "inputFile" (Entities.files entities) ++
      first "dataType" (Entities.dataTypes entities)
  | CODE_GENERATION => first "language" (Entities.codeLanguages entities)
  | VISUALIZATION =>
      first "dataSource" (Entities.files entities) ++
      first "visualizationType" (Entities.visualizationTypes entities)
  | _ => []
  end.

(** How many of the entity values the tool's capability set holds too; an
    undeclared capability set holds nothing. *)
Definition matched (values : list string) (capability : option (list string)) : Z :=
  Z.of_nat (length (filter (λ v, v ∈ default [] capability) values)).

(** The score of a tool against the entities; a file counts by its
    extension, lower-cased. *)
Definition score (toLowerCase : string → string) (tool : Tool.t)
    (entities : Entities.t) : Z :=
  let capability (set : Capabilities.t → option (list string)) :=
    Tool.capabilities tool ≫= set in
  let extensions :=
    (λ file, toLowerCase (Js.split_pop "." file)) <$> Entities.files entities in
  (10 * matched extensions (capability Capabilities.fileTypes) +
   5 * matched (Entities.dataTypes entities) (capability Capabilities.dataTypes) +
   8 * matched (Entities.codeLanguages entities) (capability Capabilities.languages) +
   7 * matched (Entities.visualizationTypes entities)
               (capability Capabilities.visualizationTypes))%Z.

(** The declared intents of the tool and the intents of the query have a
    member in common. *)
Definition intentsIntersect (tool : Tool.t) (intents : list Intent) : Prop :=
  ∃ declared intent,
    Tool.capabilities tool ≫= Capabilities.intents = Some declared ∧
    intent ∈ declared ∧ intent ∈ intents.

(** Descending by score. *)
Definition scoreDescending (a b : MatchedTool.t) : Prop :=
  (MatchedTool.score b ≤ MatchedTool.score a)%Z.

(** The id of the [n]-th emitted step, counting from 1. *)
Definition stepId (n : nat) : string := "step_" +:+ pretty n.

(** The data-flow entry from step [n] to step [n + 1], under its key. *)
Definition chainEdge (n : nat) : string * DataFlow.t :=
  (stepId n +:+ ":" +:+ stepId (S n),
   {| DataFlow.from := stepId n;
      DataFlow.to := stepId (S n);
      DataFlow.mappings :=
        [ {| Mapping.fromParam := "result"; Mapping.toParam := "input" |} ] |}).

(** An intent is addressed when it is not UNKNOWN and a matched tool
    declares it. *)
Definition addressable (matchedTools : list MatchedTool.t) (intent : Intent) : bool :=
  negb (bool_decide (intent = UNKNOWN)) &&
  existsb (λ mt, Analyzer.declares (MatchedTool.tool mt) intent) matchedTools.

(** The addressed intents, in classification order. *)
Definition addressed (matchedTools : list MatchedTool.t) (intents : list Intent)
  : list Intent :=
  List.filter (addressable matchedTools) intents.

(** [mt] is the highest-scoring matched tool declaring the intent, the
    first of them in the order of [matchedTools] when several tie. *)
Definition bestFor (intent : Intent) (matchedTools : list MatchedTool.t)
    (mt : MatchedTool.t) : Prop :=
  ∃ before after,
    matchedTools = before ++ mt :: after ∧
    Analyzer.declares (MatchedTool.tool mt) intent = true ∧
    (∀ other, other ∈ before → Analyzer.declares (MatchedTool.tool other) intent = true →
              (MatchedTool.score other < MatchedTool.score mt)%Z) ∧
    (∀ other, other ∈ after → Analyzer.declares (MatchedTool.tool other) intent = true →
              (MatchedTool.score other ≤ MatchedTool.score mt)%Z).

(** The steps carry ids as the orchestrator makes them, [step_<n>], no two
    of them equal. *)
Definition stepIds (steps : list Step.t) : Prop :=
  NoDup (Step.stepId <$> steps) ∧
  Forall (λ step, ∃ n, Step.stepId step = stepId n) steps.


(** The stored descriptor reads the payload's value for a property the
    payload has. *)
Definition carriesProperty {A} (property : Tool.t → option A)
    (payload stored : Tool.t) : Prop :=
  ∀ value, property payload = Some value → property stored = Some value.

(** The stored descriptor carries every property of the payload. *)
Definition carries (payload stored : Tool.t) : Prop :=
  carriesProperty Tool.id payload stored ∧
  carriesProperty Tool.name payload stored ∧
  carriesProperty Tool.version payload stored ∧
  carriesProperty Tool.description payload stored ∧
  carriesProperty Tool.type payload stored ∧
  carriesProperty Tool.apiEndpoint payload stored ∧
  carriesProperty Tool.capabilities payload stored ∧
  carriesProperty Tool.defaultParams payload stored ∧
  carriesProperty Tool.outputs payload stored ∧
  carriesProperty Tool.execute payload stored ∧
  carriesProperty Tool.executionConfig payload stored.

(** A property the payload lacks is as it was in the old entry. *)
Definition keepsProperty {A} (property : Tool.t → option A)
    (old payload merged : Tool.t) : Prop :=
  property payload = None → property merged = property old.

(** [merged] is the shallow merge of the payload into the old entry: every
    property of the payload, with the payload's value, and the properties
    of the old entry that the payload lacks, as they were. *)
Definition shallowMerge (old payload merged : Tool.t) : Prop :=
  carries payload merged ∧
  keepsProperty Tool.id old payload merged ∧
  keepsProperty Tool.name old payload merged ∧
  keepsProperty Tool.version old payload merged ∧
  keepsProperty Tool.description old payload merged ∧
  keepsProperty Tool.type old payload merged ∧
  keepsProperty Tool.apiEndpoint old payload merged ∧
  keepsProperty Tool.capabilities old payload merged ∧
  keepsProperty Tool.defaultParams old payload merged ∧
  keepsProperty Tool.outputs old payload merged ∧
  keepsProperty Tool.execute old payload merged ∧
  keepsProperty Tool.executionConfig old payload merged.

(** No character of the string is a colon (as in a decimal numeral). *)
Fixpoint colonFree (s : string) : Prop :=
  match s with
  | EmptyString => True
  | String c s' => c ≠ ":"%char ∧ colonFree s'
  end.

(** The example tool [file-processor] of the repository. *)
Definition fileProcessor : Tool.t :=
  {| Tool.id := Some "file-processor";
     Tool.name := Some "File Processor";
     Tool.version := Some "0.1.0";
     Tool.description := Some "A tool for reading and processing various file types";
     Tool.type := Some "mcp-server";
     Tool.apiEndpoint := Some "http://localhost:3001/api/process";
     Tool.capabilities :=
       Some {| Capabilities.intents := Some [FILE_OPERATION; DATA_PROCESSING];
               Capabilities.fileTypes := Some ["csv"; "json"; "txt"];
               Capabilities.dataTypes := Some ["tabular"; "json"; "text"];
               Capabilities.languages := None;
               Capabilities.visualizationTypes := None |};
     Tool.defaultParams :=
       Some [("filePath", Js.VStr ""); ("outputFormat", Js.VStr "json")];
     Tool.outputs :=
       Some (Js.VObj [ ("success", Js.VBool true); ("result", Js.VObj []);
                       ("processingTime", Js.VStr "0ms") ]);
     Tool.execute := None;
     Tool.executionConfig :=
       Some {| ExecutionConfig.type := Some "http";
               ExecutionConfig.url := Some "http://localhost:3001/api/process";
               ExecutionConfig.command := None |} |}.

End Spec.

(** ** The request route and further notions *)

(** The handler of [POST /api/request]: the three stages in sequence; a
    missing query is refused, an exception of a stage becomes a 500 with
    [error.message] ([None]: the property is [undefined]); were
    [undefined] or [null] thrown, reading the message would throw in the
    handler's own [catch] block and no response would be sent. *)
Module Api.


Section WithCaseMapping.
Variable toLowerCase : string → string.


End WithCaseMapping.

End Api.

(** What the extracted entities look like. *)
Module Shape.

(** A file reference: a non-empty name of letters, digits, underscores
    and dashes, a dot, and one of the ten extensions. *)
Definition fileReference (f : string) : Prop :=
  ∃ name ext,
    f = string_of_list_ascii name +:+ "." +:+ ext ∧
    name ≠ [] ∧
    Forall (λ c, Analyzer.is_name_char c = true) name ∧
    ext ∈ Analyzer.file_extensions.

Definition dataTypes : list string := ["tabular"; "json"; "text"; "image"].

Definition visualizationTypes : list string :=
  ["bar_chart"; "line_chart"; "pie_chart"; "scatter_plot"; "heatmap"; "histogram";
   "box_plot"].

Definition codeLanguages : list string :=
  ["python"; "javascript"; "typescript"; "java"; "cpp"; "csharp"; "ruby"; "go";
   "php"; "sql"; "bash"; "rust"; "html"; "css"].

(** No character of the string is [c]. *)
Fixpoint without (c : ascii) (s : string) : Prop :=
  match s with
  | EmptyString => True
  | String x s' => x ≠ c ∧ without c s'
  end.

End Shape.

(** * Properties *)

(** ** Objects *)

Section JsObjectFacts.
Context {V : Type}.
Implicit Types (o : JsObject.t V) (k : string) (v : V).

Lemma get_set_eq o k v : JsObject.get (JsObject.set o k v) k = Some v.
Proof.
  induction o as [|[k' v'] o IH]; simpl.
  - by rewrite bool_decide_eq_true_2.
  - case_bool_decide; simpl; case_bool_decide; done.
Qed.

Lemma get_set_ne o k k' v : k ≠ k' → JsObject.get (JsObject.set o k v) k' = JsObject.get o k'.
Proof.
  intros Hne. induction o as [|[k0 v0] o IH]; simpl.
  - by rewrite bool_decide_eq_false_2.
  - case_bool_decide; simpl; case_bool_decide; congruence.
Qed.

Lemma get_set o k k' v :
  JsObject.get (JsObject.set o k v) k' = if decide (k = k') then Some v else JsObject.get o k'.
Proof. case_decide; [subst; apply get_set_eq | by apply get_set_ne]. Qed.

Lemma get_None o k : JsObject.get o k = None ↔ k ∉ o.*1.
Proof.
  induction o as [|[k' v'] o IH]; simpl.
  - split; [intros _; apply not_elem_of_nil | done].
  - rewrite not_elem_of_cons, <- IH.
    case_bool_decide; split; try done; [by intros [] | by intros [_ ?]].
Qed.

(** A new key goes to the end. *)
Lemma set_fresh o k v : k ∉ o.*1 → JsObject.set o k v = o ++ [(k, v)].
Proof.
  induction o as [|[k' v'] o IH]; simpl; [done|].
  rewrite not_elem_of_cons. intros [Hne Hnot].
  rewrite bool_decide_eq_false_2 by done. by rewrite IH.
Qed.

(** In a merge the source wins: its last binding of a key is the result's. *)
Lemma get_assign (target source : JsObject.t V) k :
  JsObject.get (JsObject.assign target source) k =
  match JsObject.get (reverse source) k with
  | Some v => Some v
  | None => JsObject.get target k
  end.
Proof.
  unfold JsObject.assign. revert target.
  induction source as [|[k' v'] source IH] using rev_ind; intros target; [done|].
  rewrite foldl_app, reverse_app. simpl.
  rewrite get_set. case_decide as Hk; simpl.
  - by rewrite bool_decide_eq_true_2.
  - rewrite bool_decide_eq_false_2 by done. apply IH.
Qed.

End JsObjectFacts.

(** ** Orchestrator: input parameters *)

(** The parameters the orchestrator derives from the entities, before the
    tool's defaults are merged in, are the ones the specification lists. *)
Lemma entity_params_as_specified intent entities tool :
  Tool.defaultParams tool = None →
  Orchestrator.determineInputParams intent entities tool =
  Spec.entityDefaults intent entities.
Proof.
  unfold Orchestrator.determineInputParams, Spec.entityDefaults. intros ->.
  destruct entities as [files dataTypes codeLanguages visualizationTypes]; simpl.
  destruct intent, files, dataTypes, codeLanguages, visualizationTypes; reflexivity.
Qed.

Lemma entityDefaults_reverse intent entities k :
  JsObject.get (reverse (Spec.entityDefaults intent entities)) k =
  JsObject.get (Spec.entityDefaults intent entities) k.
Proof.
  destruct entities as [files dataTypes codeLanguages visualizationTypes].
  destruct intent, files, dataTypes, codeLanguages, visualizationTypes;
    unfold Spec.entityDefaults; simpl; try reflexivity;
    repeat case_bool_decide; simplify_eq; reflexivity.
Qed.

(** [determineInputParams] key by key: the tool's default parameters
    overlaid with the parameters derived from the entities. *)
Lemma determineInputParams_lookup
    (intent : Intent) (entities : Entities.t) (tool : Tool.t) (key : string) :
  JsObject.get (Orchestrator.determineInputParams intent entities tool) key =
  match JsObject.get (Spec.entityDefaults intent entities) key with
  | Some v => Some v
  | None => Tool.defaultParams tool ≫= λ defaultParams, JsObject.get defaultParams key
  end.
Proof.
  pose proof (entity_params_as_specified intent entities
                (Tool.mk None None None None None None None None None None None) eq_refl)
    as Hparams.
  unfold Orchestrator.determineInputParams in *. simpl in Hparams.
  destruct (Tool.defaultParams tool) as [defaultParams|]; simpl.
  - rewrite get_assign, Hparams. by rewrite entityDefaults_reverse.
  - rewrite Hparams. by destruct (JsObject.get _ _).
Qed.

(** ** Analyzer *)

Section AnalyzerFacts.
Variable toLowerCase : string → string.

Lemma triggered_unfold lq intent :
  Spec.triggered lq intent =
  match intent with
  | FILE_OPERATION =>
      Js.includes lq "file" || Js.includes lq "read" || Js.includes lq "write" ||
      Js.includes lq "save" || Js.includes lq "load" || Js.includes lq "csv" ||
      Js.includes lq "json" || Js.includes lq "txt"
  | DATA_PROCESSING =>
      Js.includes lq "process" || Js.includes lq "transform" || Js.includes lq "extract" ||
      Js.includes lq "convert" || Js.includes lq "analyze" || Js.includes lq "calculate"
  | CODE_GENERATION =>
      Js.includes lq "code" || Js.includes lq "program" || Js.includes lq "function" ||
      Js.includes lq "script" || Js.includes lq "algorithm" || Js.includes lq "develop"
  | VISUALIZATION =>
      Js.includes lq "visualize" || Js.includes lq "chart" || Js.includes lq "plot" ||
      Js.includes lq "graph" || Js.includes lq "dashboard" || Js.includes lq "display"
  | KNOWLEDGE_RETRIEVAL =>
      Js.includes lq "search" || Js.includes lq "find" || Js.includes lq "lookup" ||
      Js.includes lq "retrieve" || Js.includes lq "get information"
  | TERMINAL_EXECUTION =>
      Js.includes lq "run" || Js.includes lq "execute" || Js.includes lq "terminal" ||
      Js.includes lq "command" || Js.includes lq "shell" || Js.includes lq "bash"
  | WEB_SEARCH =>
      Js.includes lq "web" || Js.includes lq "internet" || Js.includes lq "online" ||
      Js.includes lq "website" || Js.includes lq "url" || Js.includes lq "http"
  | UNKNOWN => false
  end.
Proof.
  destruct intent; unfold Spec.triggered, Spec.intentKeywords, existsb;
    rewrite ?orb_false_r, ?orb_assoc; reflexivity.
Qed.

(** The classifier returns the triggered intents in table order, or
    [UNKNOWN] alone when there is none. *)
Lemma detectIntents_table query :
  Analyzer.detectIntents toLowerCase query =
  let hits := List.filter (Spec.triggered (toLowerCase query)) Spec.classifiedIntents in
  if hits is [] then [UNKNOWN] else hits.
Proof.
  unfold Analyzer.detectIntents, Spec.classifiedIntents, List.filter.
  cbv zeta.
  rewrite <- (triggered_unfold _ FILE_OPERATION), <- (triggered_unfold _ DATA_PROCESSING),
    <- (triggered_unfold _ CODE_GENERATION), <- (triggered_unfold _ VISUALIZATION),
    <- (triggered_unfold _ KNOWLEDGE_RETRIEVAL), <- (triggered_unfold _ TERMINAL_EXECUTION),
    <- (triggered_unfold _ WEB_SEARCH).
  generalize (Spec.triggered (toLowerCase query)); intros t.
  destruct (t FILE_OPERATION), (t DATA_PROCESSING), (t CODE_GENERATION),
    (t VISUALIZATION), (t KNOWLEDGE_RETRIEVAL), (t TERMINAL_EXECUTION), (t WEB_SEARCH);
    reflexivity.
Qed.
Lemma detectIntents_nonempty query : Analyzer.detectIntents toLowerCase query ≠ [].
Proof.
  rewrite detectIntents_table. cbn zeta.
  destruct (List.filter _ _); discriminate.
Qed.

Lemma detectIntents_unknown query :
  (∀ intent kw, kw ∈ Spec.intentKeywords intent →
                Js.includes (toLowerCase query) kw = false) →
  Analyzer.detectIntents toLowerCase query = [UNKNOWN].
Proof.
  intros Hno. rewrite detectIntents_table. cbn zeta.
  assert (∀ intent, Spec.triggered (toLowerCase query) intent = false) as Hnot.
  { intros intent. unfold Spec.triggered.
    destruct (existsb _ _) eqn:E; [|done].
    apply existsb_exists in E as (kw & Hin & Hkw).
    rewrite (Hno intent kw) in Hkw; [done|]. by apply list_elem_of_In. }
  unfold Spec.classifiedIntents. cbn [List.filter]. by rewrite !Hnot.
Qed.

Lemma calculateConfidence_count intents entities :
  Analyzer.calculateConfidence intents entities =
  Spec.confidence (negb (bool_decide (UNKNOWN ∈ intents))) (Spec.nonEmptyCategories entities).
Proof.
  unfold Analyzer.calculateConfidence, Spec.confidence, Spec.nonEmptyCategories.
  destruct entities as [[|? ?] [|? ?] [|? ?] [|? ?]];
    destruct (bool_decide (UNKNOWN ∈ intents)); reflexivity.
Qed.

End AnalyzerFacts.

(** C8. Classification always yields at least one intent; when no keyword
    of the table occurs in the lower-cased query the intents are [UNKNOWN]
    alone, and the confidence is then 0.0 if no entity was extracted; in
    general the confidence is 0.4 when the intents are not [UNKNOWN] alone,
    plus 0.15 per non-empty entity category, capped at 1.0. *)
Theorem classification_intents_and_confidence
    (toLowerCase : string → string) (registry : ToolRegistry.t) (now query : string) :
  let analysis := Analyzer.analyzeRequest toLowerCase registry now query in
  let noKeyword :=
    ∀ intent kw, kw ∈ Spec.intentKeywords intent →
                 Js.includes (toLowerCase query) kw = false in
  Analysis.intents analysis ≠ [] ∧
  (noKeyword → Analysis.intents analysis = [UNKNOWN]) ∧
  (noKeyword → Spec.nonEmptyCategories (Analysis.entities analysis) = 0 →
   Analysis.confidence analysis = 0%float) ∧
  Analysis.confidence analysis =
    Spec.confidence (bool_decide (Analysis.intents analysis ≠ [UNKNOWN]))
                    (Spec.nonEmptyCategories (Analysis.entities analysis)).
Proof.
  intros analysis noKeyword. subst analysis noKeyword. cbn [Analysis.intents
    Analysis.confidence Analysis.entities Analyzer.analyzeRequest].
  assert (bool_decide (Analyzer.detectIntents toLowerCase query ≠ [UNKNOWN]) =
          negb (bool_decide (UNKNOWN ∈ Analyzer.detectIntents toLowerCase query))) as Hrec.
  { rewrite detectIntents_table. cbn zeta.
    unfold Spec.classifiedIntents. cbn [List.filter].
    generalize (Spec.triggered (toLowerCase query)); intros t.
    destruct (t FILE_OPERATION), (t DATA_PROCESSING), (t CODE_GENERATION),
      (t VISUALIZATION), (t KNOWLEDGE_RETRIEVAL), (t TERMINAL_EXECUTION), (t WEB_SEARCH);
      reflexivity. }
  split_and!.
  - apply detectIntents_nonempty.
  - apply detectIntents_unknown.
  - intros Hno Hcat. rewrite calculateConfidence_count, Hcat.
    by rewrite (detectIntents_unknown _ _ Hno).
  - by rewrite calculateConfidence_count, Hrec.
Qed.

Lemma classification_intents_and_confidence_witness :
  let analysis :=
    Analyzer.analyzeRequest Js.toLowerCase_ascii (ToolRegistry.new ∅) "" "Hello there" in
  Analysis.intents analysis = [UNKNOWN] ∧ Analysis.confidence analysis = 0%float.
Proof.
  assert (∀ intent kw, kw ∈ Spec.intentKeywords intent →
            Js.includes (Js.toLowerCase_ascii "Hello there") kw = false) as Hno.
  { intros intent kw Hin. apply list_elem_of_In in Hin.
    destruct intent; simpl in Hin; intuition (subst; reflexivity). }
  pose proof (classification_intents_and_confidence Js.toLowerCase_ascii
                (ToolRegistry.new ∅) "" "Hello there") as (_ & Hunknown & Hzero & _).
  split; [exact (Hunknown Hno) | exact (Hzero Hno eq_refl)].
Defined.

(** C1 as stated fails: the query contains "csv", a keyword of
    FILE_OPERATION, so three intents are returned, not two. *)
Lemma end_to_end_intents_counterexample :
  let analysis :=
    Analyzer.analyzeRequest Js.toLowerCase_ascii (ToolRegistry.new ∅) ""
      "Extract data from sales.csv and create a bar chart" in
  ¬ (Analysis.intents analysis = [DATA_PROCESSING; VISUALIZATION] ∧
     Entities.files (Analysis.entities analysis) = ["sales.csv"] ∧
     Entities.visualizationTypes (Analysis.entities analysis) = ["bar_chart"]).
Proof. intros analysis (Hintents & _). vm_compute in Hintents. discriminate. Qed.

(** C1, amended. For the query "Extract data from sales.csv and create a
    bar chart" the intents are FILE_OPERATION, DATA_PROCESSING and
    VISUALIZATION in this order, the files are ["sales.csv"] and the
    visualization types are ["bar_chart"], whatever the registry holds. *)
Theorem end_to_end_classification (registry : ToolRegistry.t) (now : string) :
  let analysis :=
    Analyzer.analyzeRequest Js.toLowerCase_ascii registry now
      "Extract data from sales.csv and create a bar chart" in
  Analysis.intents analysis = [FILE_OPERATION; DATA_PROCESSING; VISUALIZATION] ∧
  Entities.files (Analysis.entities analysis) = ["sales.csv"] ∧
  Entities.visualizationTypes (Analysis.entities analysis) = ["bar_chart"].
Proof.
  cbn [Analysis.intents Analysis.entities Analyzer.analyzeRequest
       Entities.files Entities.visualizationTypes].
  split_and!; vm_compute; reflexivity.
Qed.

(** ** Sorting *)

Section SortFacts.
Context {A : Type} (key : A → Z).

Let descending (a b : A) : Z := (key b - key a)%Z.

Lemma insert_sorted_perm x l : Js.insert_sorted descending x l ≡ₚ x :: l.
Proof.
  induction l as [|y l IH]; simpl; [done|].
  case_match; [done|]. rewrite IH. apply Permutation_swap.
Qed.

Lemma sort_perm l : Js.sort descending l ≡ₚ l.
Proof.
  induction l as [|x l IH]; simpl; [done|].
  by rewrite insert_sorted_perm, IH.
Qed.

Lemma elem_of_sort x l : x ∈ Js.sort descending l ↔ x ∈ l.
Proof. by rewrite sort_perm. Qed.

Lemma insert_sorted_sorted x l :
  StronglySorted (λ a b, (key b ≤ key a)%Z) l →
  StronglySorted (λ a b, (key b ≤ key a)%Z) (Js.insert_sorted descending x l).
Proof.
  induction 1 as [|y l Hl IH Hy]; simpl.
  - repeat constructor.
  - unfold descending at 1. destruct (Z.leb_spec (key y - key x) 0).
    + constructor; [by constructor|].
      constructor; [lia|]. eapply Forall_impl; [exact Hy|]. simpl. lia.
    + constructor; [done|].
      rewrite insert_sorted_perm. constructor; [lia|done].
Qed.

Lemma sort_sorted l : StronglySorted (λ a b, (key b ≤ key a)%Z) (Js.sort descending l).
Proof.
  induction l as [|x l IH]; simpl; [constructor|]. by apply insert_sorted_sorted.
Qed.

(** The sort is stable, so its first element is the first of the greatest
    elements of the input. *)
Lemma head_sort l x :
  head (Js.sort descending l) = Some x →
  ∃ l1 l2, l = l1 ++ x :: l2 ∧
           (∀ y, y ∈ l1 → (key y < key x)%Z) ∧ (∀ y, y ∈ l2 → (key y ≤ key x)%Z).
Proof.
  revert x. induction l as [|a l IH]; intros x; simpl; [done|].
  destruct (Js.sort descending l) as [|y s] eqn:Hs; simpl.
  - intros [= <-]. pose proof (sort_perm l) as Hp. rewrite Hs in Hp.
    apply Permutation_nil in Hp. subst l.
    exists [], []. split_and!; [done|..]; intros ? ?%elem_of_nil; done.
  - destruct (IH y eq_refl) as (l1 & l2 & -> & Hl1 & Hl2).
    unfold descending at 1. destruct (Z.leb_spec (key y - key a) 0); simpl; intros [= <-].
    + exists [], (l1 ++ y :: l2). split_and!; [done| |].
      * intros ? ?%elem_of_nil; done.
      * intros z [Hz|[->|Hz]%elem_of_cons]%elem_of_app.
        -- specialize (Hl1 z Hz). lia.
        -- lia.
        -- specialize (Hl2 z Hz). lia.
    + exists (a :: l1), l2. split_and!; [done| |done].
      intros z [->|Hz]%elem_of_cons; [lia|auto].
Qed.

Lemma head_sort_None l : head (Js.sort descending l) = None → l = [].
Proof.
  intros Hh. pose proof (sort_perm l) as Hp.
  destruct (Js.sort descending l); [|done]. by apply Permutation_nil in Hp.
Qed.

End SortFacts.

(** ** Matching tools *)

Section MatcherFacts.
Variable toLowerCase : string → string.

Lemma filter_key_length {A} (key : A → string) (declared : list string) (values : list A) :
  length (filter (λ v, key v ∈ declared) values) =
  length (filter (λ v, v ∈ declared) (key <$> values)).
Proof.
  induction values as [|v values IH]; [done|].
  rewrite fmap_cons, !filter_cons. repeat case_decide; simpl; congruence.
Qed.

Lemma filter_elem_of_nil (values : list string) :
  filter (λ v, v ∈ @nil string) values = [].
Proof.
  induction values as [|v values IH]; [done|].
  rewrite filter_cons. case_decide as Hin; [by apply elem_of_nil in Hin | done].
Qed.

Lemma score_term_matched {A} capability (key : A → string) weight tool values :
  Analyzer.score_term capability key weight tool values =
  (weight * Spec.matched (key <$> values) (Tool.capabilities tool ≫= capability))%Z.
Proof.
  unfold Analyzer.score_term, Spec.matched.
  destruct (Tool.capabilities tool) as [c|]; simpl;
    [destruct (capability c) as [declared|]; simpl|].
  - rewrite filter_key_length. lia.
  - rewrite filter_elem_of_nil. simpl. lia.
  - rewrite filter_elem_of_nil. simpl. lia.
Qed.

Lemma calculateToolMatchScore_formula tool entities :
  Analyzer.calculateToolMatchScore toLowerCase tool entities =
  Spec.score toLowerCase tool entities.
Proof.
  unfold Analyzer.calculateToolMatchScore, Spec.score, Analyzer.extension.
  rewrite !score_term_matched, !list_fmap_id. lia.
Qed.

Lemma intentMatch_intersect tool intents :
  Analyzer.intentMatch tool intents = true ↔ Spec.intentsIntersect tool intents.
Proof.
  unfold Analyzer.intentMatch, Spec.intentsIntersect, Analyzer.declares.
  rewrite existsb_exists. split.
  - intros (intent & Hin%list_elem_of_In & Hd).
    destruct (Tool.capabilities tool) as [c|]; [|done]. simpl.
    destruct (Capabilities.intents c) as [declared|]; [|done].
    apply bool_decide_eq_true in Hd. eauto.
  - intros (declared & intent & Hc & Hd & Hi).
    exists intent. split; [by apply list_elem_of_In|].
    destruct (Tool.capabilities tool) as [c|]; [|done]. simpl in Hc. rewrite Hc.
    by apply bool_decide_eq_true.
Qed.

Lemma elem_of_collectMatches mt allTools intents entities :
  mt ∈ Analyzer.collectMatches toLowerCase allTools intents entities ↔
  MatchedTool.tool mt ∈ allTools ∧
  Analyzer.intentMatch (MatchedTool.tool mt) intents = true ∧
  MatchedTool.score mt =
    Analyzer.calculateToolMatchScore toLowerCase (MatchedTool.tool mt) entities ∧
  (0 < MatchedTool.score mt)%Z.
Proof.
  induction allTools as [|tool rest IH]; simpl.
  - split; [by intros ?%elem_of_nil | by intros [?%elem_of_nil _]].
  - destruct (Analyzer.intentMatch tool intents) eqn:Hm;
      [destruct (Z.ltb_spec 0 (Analyzer.calculateToolMatchScore toLowerCase tool entities))
        as [Hpos|Hpos]|];
      rewrite !elem_of_cons, IH.
    + split.
      * intros [->|(? & ? & ? & ?)]; simpl; [by auto|by auto].
      * intros ([Heq|?] & ? & Hs & ?); [left | by auto].
        destruct mt as [t sc]; simpl in *. by subst.
    + split; [intros (? & ? & ? & ?); by auto|].
      intros ([Heq|?] & ? & Hs & ?); [exfalso | by auto].
      rewrite Heq in Hs. lia.
    + split; [intros (? & ? & ? & ?); by auto|].
      intros ([Heq|?] & Him & ? & ?); [exfalso | by auto].
      rewrite Heq in Him. congruence.
Qed.

End MatcherFacts.

(** C5. A tool is among the matched tools only if its declared intents
    intersect the query's intents and its score,
    10 x matched file extensions + 5 x matched data types + 8 x matched
    languages + 7 x matched visualization types, is strictly positive (and
    every registered tool that meets both conditions is there, with that
    score); a tool whose capabilities object is empty is never there; the
    list is sorted by score, descending. *)
Theorem matched_tools_intent_and_positive_score
    (toLowerCase : string → string) (registry : ToolRegistry.t)
    (intents : list Intent) (entities : Entities.t) :
  let matchedTools := Analyzer.matchToolsToIntents toLowerCase registry intents entities in
  (∀ mt, mt ∈ matchedTools ↔
         MatchedTool.tool mt ∈ ToolRegistry.getTools registry ∧
         Spec.intentsIntersect (MatchedTool.tool mt) intents ∧
         MatchedTool.score mt = Spec.score toLowerCase (MatchedTool.tool mt) entities ∧
         (0 < MatchedTool.score mt)%Z) ∧
  (∀ mt, Tool.capabilities (MatchedTool.tool mt) = Some Capabilities.empty →
         mt ∉ matchedTools) ∧
  StronglySorted Spec.scoreDescending matchedTools.
Proof.
  intros matchedTools. subst matchedTools. unfold Analyzer.matchToolsToIntents.
  assert (∀ mt, mt ∈ Js.sort Analyzer.byScoreDescending
                    (Analyzer.collectMatches toLowerCase (ToolRegistry.getTools registry)
                       intents entities) ↔
            MatchedTool.tool mt ∈ ToolRegistry.getTools registry ∧
            Spec.intentsIntersect (MatchedTool.tool mt) intents ∧
            MatchedTool.score mt = Spec.score toLowerCase (MatchedTool.tool mt) entities ∧
            (0 < MatchedTool.score mt)%Z) as Hiff.
  { intros mt. rewrite (elem_of_sort MatchedTool.score), elem_of_collectMatches.
    by rewrite intentMatch_intersect, calculateToolMatchScore_formula. }
  split_and!.
  - exact Hiff.
  - intros mt Hempty (_ & (declared & intent & Hc & _) & _)%Hiff.
    by rewrite Hempty in Hc.
  - apply (sort_sorted MatchedTool.score).
Qed.

(** ** Orchestrator: the plan *)

Lemma filter_eq_app_cons {A} (P : A → Prop) `{!∀ x, Decision (P x)}
    (l l1 l2 : list A) (x : A) :
  filter P l = l1 ++ x :: l2 →
  ∃ k1 k2, l = k1 ++ x :: k2 ∧ filter P k1 = l1 ∧ filter P k2 = l2 ∧ P x.
Proof.
  revert l1. induction l as [|a l IH]; intros l1.
  - rewrite filter_nil. by destruct l1.
  - rewrite filter_cons. case_decide as Ha.
    + destruct l1 as [|b l1]; simpl; intros [= -> Hrest].
      * exists [], l. by rewrite filter_nil.
      * destruct (IH _ Hrest) as (k1 & k2 & -> & <- & <- & Hx).
        exists (b :: k1), k2. by rewrite filter_cons, decide_True.
    + intros Hrest. destruct (IH _ Hrest) as (k1 & k2 & -> & <- & <- & Hx).
      exists (a :: k1), k2. by rewrite filter_cons, decide_False.
Qed.

Section PlanFacts.
Variables (entities : Entities.t) (matchedTools : list MatchedTool.t).

Lemma findBestToolForIntent_best intent mt :
  Orchestrator.findBestToolForIntent intent matchedTools = Some mt →
  Spec.bestFor intent matchedTools mt.
Proof.
  unfold Orchestrator.findBestToolForIntent. case_match; [|done].
  intros (l1 & l2 & Hfilter & Hl1 & Hl2)%(head_sort MatchedTool.score).
  apply filter_eq_app_cons in Hfilter as (before & after & -> & <- & <- & Hmt).
  exists before, after. split_and!; [done..| |].
  - intros other Hin Hd. apply Hl1. by apply list_elem_of_filter.
  - intros other Hin Hd. apply Hl2. by apply list_elem_of_filter.
Qed.

Lemma findBestToolForIntent_None intent :
  Orchestrator.findBestToolForIntent intent matchedTools = None ↔
  existsb (λ mt, Analyzer.declares (MatchedTool.tool mt) intent) matchedTools = false.
Proof.
  split.
  - intros Hnone. destruct (existsb _ _) eqn:Hex; [exfalso|done].
    apply existsb_exists in Hex as (mt & Hin%list_elem_of_In & Hd).
    unfold Orchestrator.findBestToolForIntent in Hnone.
    assert (mt ∈ Js.sort Analyzer.byScoreDescending
                   (filter (λ tool, Analyzer.declares (MatchedTool.tool tool) intent = true)
                           matchedTools)) as Hsorted.
    { apply (elem_of_sort MatchedTool.score). by apply list_elem_of_filter. }
    destruct (Js.sort _ _); [by apply elem_of_nil in Hsorted | done].
  - intros Hex. destruct (Orchestrator.findBestToolForIntent intent matchedTools)
      as [mt|] eqn:Hbest; [exfalso|done].
    apply findBestToolForIntent_best in Hbest as (before & after & Heq & Hd & _).
    assert (existsb (λ mt, Analyzer.declares (MatchedTool.tool mt) intent) matchedTools = true)
      as Htrue; [|congruence].
    apply existsb_exists. exists mt. split; [|done].
    apply list_elem_of_In. rewrite Heq. set_solver.
Qed.

Lemma foldl_addressIntent intents steps addressedIntents :
  (foldl (Orchestrator.addressIntent entities matchedTools) (steps, addressedIntents)
         intents).1 =
  steps ++ Orchestrator.emitted entities matchedTools (length steps) intents.
Proof.
  revert steps addressedIntents.
  induction intents as [|intent rest IH]; intros steps addressedIntents; simpl.
  - by rewrite app_nil_r.
  - case_bool_decide; [apply IH|].
    destruct (Orchestrator.findBestToolForIntent intent matchedTools); [|apply IH].
    rewrite IH, length_app, <- app_assoc. simpl.
    by replace (length steps + 1) with (S (length steps)) by lia.
Qed.

Lemma emitted_intents n intents :
  Step.intent <$> Orchestrator.emitted entities matchedTools n intents =
  Spec.addressed matchedTools intents.
Proof.
  revert n. induction intents as [|intent rest IH]; intros n; simpl; [done|].
  unfold Spec.addressable at 1.
  case_bool_decide; simpl; [apply IH|].
  destruct (Orchestrator.findBestToolForIntent intent matchedTools) eqn:Hbest.
  - destruct (existsb _ _) eqn:Hex.
    + simpl. f_equal. apply IH.
    + apply findBestToolForIntent_None in Hex. congruence.
  - apply findBestToolForIntent_None in Hbest as ->. apply IH.
Qed.

Lemma emitted_length n intents :
  length (Orchestrator.emitted entities matchedTools n intents) =
  length (Spec.addressed matchedTools intents).
Proof. by rewrite <- (emitted_intents n), length_fmap. Qed.

Lemma emitted_stepIds n intents :
  Step.stepId <$> Orchestrator.emitted entities matchedTools n intents =
  Spec.stepId <$> seq (S n) (length (Spec.addressed matchedTools intents)).
Proof.
  rewrite <- (emitted_length n). revert n.
  induction intents as [|intent rest IH]; intros n; simpl; [done|].
  case_bool_decide; [apply IH|].
  destruct (Orchestrator.findBestToolForIntent intent matchedTools); [|apply IH].
  simpl. rewrite IH. unfold Spec.stepId.
  by replace (n + 1) with (S n) by lia.
Qed.

Lemma emitted_best n intents :
  Forall (λ step, ∃ mt,
            Spec.bestFor (Step.intent step) matchedTools mt ∧
            Step.toolId step = Tool.id (MatchedTool.tool mt) ∧
            Step.toolName step = Tool.name (MatchedTool.tool mt) ∧
            Step.inputParams step =
              Orchestrator.determineInputParams (Step.intent step) entities
                                                (MatchedTool.tool mt) ∧
            Step.outputParams step =
              Orchestrator.determineOutputParams (Step.intent step) (MatchedTool.tool mt))
         (Orchestrator.emitted entities matchedTools n intents).
Proof.
  revert n. induction intents as [|intent rest IH]; intros n; simpl; [constructor|].
  case_bool_decide; [apply IH|].
  destruct (Orchestrator.findBestToolForIntent intent matchedTools) as [mt|] eqn:Hbest;
    [|apply IH].
  constructor; [|apply IH].
  exists mt. simpl. split_and!; try done. by apply findBestToolForIntent_best.
Qed.

End PlanFacts.

(** *** Keys of the data-flow map *)

Lemma pretty_N_go_digits x s : Spec.colonFree s → Spec.colonFree (pretty_N_go x s).
Proof.
  revert s. induction (N.lt_wf_0 x) as [x _ IH]; intros s Hs.
  destruct (decide (x = 0)%N) as [->|]; [by rewrite pretty_N_go_0|].
  rewrite pretty_N_go_step by lia.
  apply IH; [apply N.div_lt; lia|].
  split; [|done]. unfold pretty_N_char. by repeat case_match.
Qed.

Lemma pretty_nat_digits (n : nat) : Spec.colonFree (pretty n).
Proof.
  unfold pretty, pretty_nat, pretty, pretty_N.
  case_decide; [by repeat split | by apply pretty_N_go_digits].
Qed.

Lemma append_colon_inj s1 s2 t1 t2 :
  Spec.colonFree s1 → Spec.colonFree s2 →
  s1 +:+ String ":" t1 = s2 +:+ String ":" t2 → s1 = s2.
Proof.
  revert s2. induction s1 as [|c s1 IH]; intros [|d s2]; simpl.
  - done.
  - intros _ [Hd _] [= <- _]. done.
  - intros [Hc _] _ [= -> _]. done.
  - intros [_ H1] [_ H2] [= -> Heq]. f_equal. by apply IH.
Qed.

Lemma chainEdge_key_inj n m : (Spec.chainEdge n).1 = (Spec.chainEdge m).1 → n = m.
Proof.
  unfold Spec.chainEdge, Spec.stepId. cbn [fst].
  change (("step_" +:+ pretty n) +:+ ":" +:+ "step_" +:+ pretty (S n))
    with ("step_" +:+ (pretty n +:+ String ":" ("step_" +:+ pretty (S n)))).
  change (("step_" +:+ pretty m) +:+ ":" +:+ "step_" +:+ pretty (S m))
    with ("step_" +:+ (pretty m +:+ String ":" ("step_" +:+ pretty (S m)))).
  intros Heq%(inj (String.app "step_")).
  apply append_colon_inj in Heq; [|apply pretty_nat_digits..].
  by apply (inj pretty).
Qed.

Lemma chainEdge_fresh j : (Spec.chainEdge (S j)).1 ∉ (Spec.chainEdge <$> seq 1 j).*1.
Proof.
  rewrite <- list_fmap_compose.
  intros (i & Hkey & Hi)%list_elem_of_fmap. apply elem_of_seq in Hi.
  apply chainEdge_key_inj in Hkey. lia.
Qed.

Lemma createDataFlowMap_from_chain steps j :
  Step.stepId <$> steps = Spec.stepId <$> seq (S j) (length steps) →
  Orchestrator.createDataFlowMap_from steps (Spec.chainEdge <$> seq 1 j) =
  Spec.chainEdge <$> seq 1 (j + (length steps - 1)).
Proof.
  revert j. induction steps as [|currentStep rest IH]; intros j; simpl.
  - intros _. by rewrite Nat.add_0_r.
  - destruct rest as [|nextStep rest].
    + intros _. by rewrite Nat.add_0_r.
    + intros [= Hcur Hnext Hrest]. rewrite Hcur, Hnext.
      rewrite set_fresh by exact (chainEdge_fresh j).
      match goal with
      | |- Orchestrator.createDataFlowMap_from _ ?acc = _ =>
          replace acc with (Spec.chainEdge <$> seq 1 (S j))
            by (by rewrite seq_S, fmap_app)
      end.
      rewrite IH.
      * f_equal. f_equal. simpl. lia.
      * simpl. by rewrite Hnext, Hrest.
Qed.

Lemma createDataFlowMap_chain steps :
  Step.stepId <$> steps = Spec.stepId <$> seq 1 (length steps) →
  Orchestrator.createDataFlowMap steps = Spec.chainEdge <$> seq 1 (length steps - 1).
Proof. intros Hids. by apply (createDataFlowMap_from_chain steps 0). Qed.

Lemma createExecutionPlan_steps env analysis :
  Analysis.matchedTools analysis ≠ [] →
  let plan := Orchestrator.createExecutionPlan env analysis in
  let steps :=
    Orchestrator.emitted (Analysis.entities analysis) (Analysis.matchedTools analysis) 0
                         (Analysis.intents analysis) in
  Plan.steps plan = Some steps ∧
  Plan.dataFlow plan = Some (Orchestrator.createDataFlowMap steps) ∧
  Plan.canExecute plan = (0 <? length steps)%nat.
Proof.
  intros Hne. unfold Orchestrator.createExecutionPlan.
  rewrite bool_decide_eq_false_2 by (by destruct (Analysis.matchedTools analysis)).
  pose proof (foldl_addressIntent (Analysis.entities analysis)
                (Analysis.matchedTools analysis) (Analysis.intents analysis) [] ∅) as Hfold.
  destruct (foldl _ _ _) as [steps addressedIntents]. simpl in Hfold. subst steps.
  done.
Qed.

(** C6. With matched tools, if N intents are addressed the plan has
    exactly N steps, with ids step_1 to step_N in emission order, and
    exactly N - 1 data-flow entries, the i-th from step_i to step_(i+1)
    with the one mapping of [result] to [input]; the plan can be executed
    exactly when at least one step was emitted. *)
Theorem plan_is_linear_chain (env : Env.t) (analysis : Analysis.t) :
  Analysis.matchedTools analysis ≠ [] →
  let plan := Orchestrator.createExecutionPlan env analysis in
  let addressed :=
    Spec.addressed (Analysis.matchedTools analysis) (Analysis.intents analysis) in
  let N := length addressed in
  ∃ steps dataFlow,
    Plan.steps plan = Some steps ∧
    Plan.dataFlow plan = Some dataFlow ∧
    length steps = N ∧
    Step.intent <$> steps = addressed ∧
    Step.stepId <$> steps = Spec.stepId <$> seq 1 N ∧
    length dataFlow = N - 1 ∧
    dataFlow = Spec.chainEdge <$> seq 1 (N - 1) ∧
    (Plan.canExecute plan = true ↔ 0 < length steps).
Proof.
  intros Hne plan addressed N. subst plan.
  destruct (createExecutionPlan_steps env analysis Hne) as (Hsteps & Hflow & Hcan).
  eexists _, _. split; [exact Hsteps|]. split; [exact Hflow|].
  assert (length (Orchestrator.emitted (Analysis.entities analysis)
                    (Analysis.matchedTools analysis) 0 (Analysis.intents analysis)) = N)
    as Hlen by apply emitted_length.
  assert (Orchestrator.createDataFlowMap
            (Orchestrator.emitted (Analysis.entities analysis)
               (Analysis.matchedTools analysis) 0 (Analysis.intents analysis)) =
          Spec.chainEdge <$> seq 1 (N - 1)) as Hchain.
  { rewrite <- Hlen. apply createDataFlowMap_chain.
    rewrite emitted_stepIds. by rewrite emitted_length. }
  split_and!.
  - exact Hlen.
  - apply emitted_intents.
  - apply emitted_stepIds.
  - by rewrite Hchain, length_fmap, length_seq.
  - exact Hchain.
  - rewrite Hcan. apply Nat.ltb_lt.
Qed.

Lemma plan_is_linear_chain_witness :
  let tool := MatchedTool.mk Spec.fileProcessor 10 in
  let analysis :=
    Analysis.mk "Process sales.csv" [FILE_OPERATION; DATA_PROCESSING]
                (Entities.mk ["sales.csv"] ["tabular"] [] []) [tool] 0.7%float "" in
  ∃ steps dataFlow,
    Plan.steps (Orchestrator.createExecutionPlan (Env.mk 0 0 "") analysis) = Some steps ∧
    Plan.dataFlow (Orchestrator.createExecutionPlan (Env.mk 0 0 "") analysis)
      = Some dataFlow ∧
    length steps = 2 ∧ length dataFlow = 1.
Proof.
  intros tool analysis.
  destruct (plan_is_linear_chain (Env.mk 0 0 "") analysis) as
    (steps & dataFlow & Hs & Hd & Hlen & _ & _ & Hflow & _); [done|].
  exists steps, dataFlow. split_and!; [exact Hs | exact Hd | exact Hlen | exact Hflow].
Defined.



(** *** Input parameters of the steps *)

(** C2 as stated fails: registered alone, the example tool
    [file-processor], whose defaults hold [filePath: ''], is selected for
    the query "Read sales.csv", and the one step of the plan has the file
    as its [filePath], not the tool's default. *)
Lemma step_input_params_tool_default_wins_counterexample :
  let registry := ToolRegistry.mk {[ 0 := Spec.fileProcessor ]} [0] in
  let analysis :=
    Analyzer.analyzeRequest Js.toLowerCase_ascii registry "" "Read sales.csv" in
  let plan := Orchestrator.createExecutionPlan (Env.mk 0 0 "") analysis in
  ¬ (∀ steps step key v,
       Plan.steps plan = Some steps → step ∈ steps →
       (Tool.defaultParams Spec.fileProcessor ≫= λ d, JsObject.get d key) = Some v →
       JsObject.get (Step.inputParams step) key = Some v).
Proof.
  intros registry analysis plan Hwins.
  set (step :=
    Step.mk "step_1" FILE_OPERATION (Some "file-processor") (Some "File Processor")
            [("filePath", Js.VStr "sales.csv"); ("outputFormat", Js.VStr "json")]
            (Js.VObj [ ("success", Js.VBool true); ("result", Js.VObj []);
                       ("processingTime", Js.VStr "0ms") ])).
  assert (Plan.steps plan = Some [step]) as Hsteps by (vm_compute; reflexivity).
  specialize (Hwins [step] step "filePath" (Js.VStr "") Hsteps).
  assert (JsObject.get (Step.inputParams step) "filePath" = Some (Js.VStr "")) as Hget.
  { apply Hwins; [apply list_elem_of_here | reflexivity]. }
  vm_compute in Hget. discriminate.
Qed.

(** C2, amended. With matched tools, every step of the plan has a
    selected tool, the best matched tool for the step's intent, and the
    step's input parameters are that tool's own default parameters
    overlaid with the parameters derived from the entities for the intent:
    on a key both define, the entity-derived value wins, and a tool default
    is used only for a key the entities do not set. *)
Theorem step_input_params_entities_over_tool_defaults
    (env : Env.t) (analysis : Analysis.t) :
  Analysis.matchedTools analysis ≠ [] →
  ∀ steps, Plan.steps (Orchestrator.createExecutionPlan env analysis) = Some steps →
  ∀ step, step ∈ steps →
    ∃ mt, mt ∈ Analysis.matchedTools analysis ∧
          Spec.bestFor (Step.intent step) (Analysis.matchedTools analysis) mt ∧
          Step.toolId step = Tool.id (MatchedTool.tool mt) ∧
          ∀ key,
            JsObject.get (Step.inputParams step) key =
            match JsObject.get (Spec.entityDefaults (Step.intent step)
                                                    (Analysis.entities analysis)) key with
            | Some v => Some v
            | None =>
                Tool.defaultParams (MatchedTool.tool mt) ≫= λ defaultParams,
                  JsObject.get defaultParams key
            end.
Proof.
  intros Hne steps Hsteps step Hin.
  destruct (createExecutionPlan_steps env analysis Hne) as (Hemitted & _ & _).
  rewrite Hemitted in Hsteps. injection Hsteps as <-.
  pose proof (emitted_best (Analysis.entities analysis) (Analysis.matchedTools analysis)
                0 (Analysis.intents analysis)) as Hbest.
  rewrite Forall_forall in Hbest.
  destruct (Hbest step Hin) as (mt & Hb & Hid & _ & Hparams & _).
  exists mt. split_and!; [|done..|].
  - destruct Hb as (before & after & -> & _). set_solver.
  - intros key. rewrite Hparams. apply determineInputParams_lookup.
Qed.

Lemma step_input_params_entities_over_tool_defaults_witness :
  let tool := MatchedTool.mk Spec.fileProcessor 15 in
  let analysis :=
    Analysis.mk "Read sales.csv" [FILE_OPERATION]
                (Entities.mk ["sales.csv"] ["tabular"] [] []) [tool] 0.7%float "" in
  let step :=
    Step.mk "step_1" FILE_OPERATION (Some "file-processor") (Some "File Processor")
            [("filePath", Js.VStr "sales.csv"); ("outputFormat", Js.VStr "json")]
            (Js.VObj [ ("success", Js.VBool true); ("result", Js.VObj []);
                       ("processingTime", Js.VStr "0ms") ]) in
  Plan.steps (Orchestrator.createExecutionPlan (Env.mk 0 0 "") analysis) = Some [step] ∧
  JsObject.get (Step.inputParams step) "filePath" = Some (Js.VStr "sales.csv") ∧
  JsObject.get (Step.inputParams step) "outputFormat" = Some (Js.VStr "json").
Proof.
  intros tool analysis step.
  assert (Plan.steps (Orchestrator.createExecutionPlan (Env.mk 0 0 "") analysis)
          = Some [step]) as Hsteps by reflexivity.
  destruct (step_input_params_entities_over_tool_defaults
              (Env.mk 0 0 "") analysis ltac:(done) [step] Hsteps step)
    as (mt & Hmt & _ & _ & Hkey).
  - apply list_elem_of_here.
  - apply list_elem_of_singleton in Hmt as ->.
    split_and!; [exact Hsteps | exact (Hkey "filePath") | exact (Hkey "outputFormat")].
Defined.

(** ** Executor *)

Section RunFacts.
Variables (registry : ToolRegistry.t) (dataFlow : option (JsObject.t DataFlow.t)).

(** The [catch] block ends the loop with a failure, or throws. *)
Lemma catchStep_Normal step results thrown run :
  Executor.catchStep step results thrown = Js.Normal run →
  Executor.overallSuccess run = false.
Proof.
  unfold Executor.catchStep.
  destruct thrown as [error|[| |]]; simpl; intros [= <-]; done.
Qed.

(** Running a sequence of steps: the steps after a prefix run only when
    the whole prefix succeeded, from the results the prefix left. *)
Lemma runSteps_app pre rest results :
  Executor.runSteps registry dataFlow (pre ++ rest) results =
  Js.bind (Executor.runSteps registry dataFlow pre results) (λ run,
    if Executor.overallSuccess run
    then Executor.runSteps registry dataFlow rest (Executor.stepResults run)
    else Js.Normal run).
Proof.
  revert results. induction pre as [|step pre IH]; intros results; simpl; [done|].
  destruct (Executor.getToolInstance registry (Step.toolId step)); [|done].
  destruct (Js.bind _ _) as [result|error|value]; [apply IH | |].
  - done.
  - by destruct value.
Qed.

(** A run that succeeded recorded a success for each of its steps and
    touched no other key. *)
Lemma runSteps_success steps results run :
  Executor.runSteps registry dataFlow steps results = Js.Normal run →
  Executor.overallSuccess run = true →
  (∀ step, step ∈ steps →
     ∃ result, JsObject.get (Executor.stepResults run) (Step.stepId step) =
               Some (StepResult.succeeded result)) ∧
  (∀ key, key ∉ Step.stepId <$> steps →
          JsObject.get (Executor.stepResults run) key = JsObject.get results key).
Proof.
  revert results. induction steps as [|step steps IH]; intros results; simpl.
  - intros [= <-] _. split; [by intros ? ?%elem_of_nil | done].
  - destruct (Executor.getToolInstance registry (Step.toolId step));
      [|by intros [= <-]].
    destruct (Js.bind _ _) as [result|error|value].
    2,3: by intros ->%catchStep_Normal.
    intros Hrun Hok. destruct (IH _ Hrun Hok) as [Hsteps Hother]. split.
    + intros s Hin.
      destruct (decide (Step.stepId s ∈ Step.stepId <$> steps)) as [Hlater|Hnot].
      * apply list_elem_of_fmap in Hlater as (s' & -> & Hs'). by apply Hsteps.
      * apply elem_of_cons in Hin as [->|Hin].
        -- rewrite (Hother _ Hnot), get_set_eq. by exists result.
        -- destruct Hnot. apply list_elem_of_fmap. eauto.
    + intros key [Hne Hnot]%not_elem_of_cons.
      rewrite (Hother _ Hnot). by apply get_set_ne.
Qed.

(** With fresh, pairwise distinct step ids the results are recorded in
    the order of the steps. *)
Lemma runSteps_keys steps results run :
  Executor.runSteps registry dataFlow steps results = Js.Normal run →
  Executor.overallSuccess run = true →
  NoDup (results.*1 ++ (Step.stepId <$> steps)) →
  (Executor.stepResults run).*1 = results.*1 ++ (Step.stepId <$> steps).
Proof.
  revert results. induction steps as [|step steps IH]; intros results; simpl.
  - intros [= <-] _ _. by rewrite app_nil_r.
  - destruct (Executor.getToolInstance registry (Step.toolId step));
      [|by intros [= <-]].
    destruct (Js.bind _ _) as [result|error|value].
    2,3: by intros ->%catchStep_Normal.
    intros Hrun Hok Hnodup.
    assert (Step.stepId step ∉ results.*1) as Hfresh.
    { apply NoDup_app in Hnodup as (_ & Hdisjoint & _).
      intros Hin. apply (Hdisjoint _ Hin). apply elem_of_cons. by left. }
    rewrite set_fresh in Hrun by done.
    rewrite (IH _ Hrun Hok).
    + by rewrite fmap_app, <- app_assoc.
    + rewrite fmap_app, <- app_assoc. exact Hnodup.
Qed.

End RunFacts.

(** A plan that has its steps and cannot be executed is answered by the
    structured failure, with the plan's reason and suggestions, and no tool
    is looked up or run. *)
Lemma executeRequest_not_executable now registry plan steps :
  Plan.steps plan = Some steps → Plan.canExecute plan = false →
  Executor.executeRequest now registry plan =
  Js.Normal
    {| ExecutionResult.planId := None;
       ExecutionResult.success := false;
       ExecutionResult.reason :=
         Some (if Executor.falsy (Plan.reason plan) then "Plan cannot be executed"
               else Js.show (Plan.reason plan));
       ExecutionResult.suggestedTools := Plan.suggestedTools plan;
       ExecutionResult.stepResults := None;
       ExecutionResult.error := None;
       ExecutionResult.timestamp := None |}.
Proof. unfold Executor.executeRequest. by intros -> ->. Qed.

(** C3, the code at the failing input. The plan built when no tool
    matched has no [steps] property, and [executeRequest] reads
    [plan.steps.length] for its log line before it tests [plan.canExecute]:
    a TypeError escapes instead of the structured failure. *)
Theorem executeRequest_throws_without_steps
    (now : string) (registry : ToolRegistry.t) (env : Env.t) (analysis : Analysis.t) :
  Analysis.matchedTools analysis = [] →
  let plan := Orchestrator.createExecutionPlan env analysis in
  Plan.canExecute plan = false ∧
  Plan.reason plan = Some "No suitable tools found" ∧
  Executor.executeRequest now registry plan =
    Js.Throw (Js.TypeError "Cannot read properties of undefined (reading 'length')").
Proof.
  intros Hnone. unfold Orchestrator.createExecutionPlan. rewrite Hnone. done.
Qed.

Lemma executeRequest_throws_without_steps_witness :
  let registry := ToolRegistry.new ∅ in
  let analysis := Analyzer.analyzeRequest Js.toLowerCase_ascii registry "" "Hello there" in
  Executor.executeRequest "" registry (Orchestrator.createExecutionPlan (Env.mk 0 0 "") analysis)
  = Js.Throw (Js.TypeError "Cannot read properties of undefined (reading 'length')").
Proof.
  intros registry analysis.
  apply (executeRequest_throws_without_steps "" registry (Env.mk 0 0 "") analysis).
  reflexivity.
Defined.

(** C4. When the steps of an executable plan (step ids as the
    orchestrator makes them, [step_<n>], pairwise distinct) succeed up to a
    step whose tool id is not in the registry, the result has
    success = false and the error "Tool <id> not found"; the step results
    hold the successes recorded for the earlier steps, the failure of that
    step, and nothing for any later step. *)
Theorem missing_tool_halts_execution
    (now : string) (registry : ToolRegistry.t) (plan : Plan.t)
    (before : list Step.t) (step : Step.t) (after : list Step.t)
    (earlier : Executor.Run) :
  Plan.canExecute plan = true →
  Plan.steps plan = Some (before ++ step :: after) →
  Spec.stepIds (before ++ step :: after) →
  Executor.runSteps registry (Plan.dataFlow plan) before [] = Js.Normal earlier →
  Executor.overallSuccess earlier = true →
  Executor.getToolInstance registry (Step.toolId step) = None →
  let error := "Tool " +:+ Js.show (Step.toolId step) +:+ " not found" in
  ∃ result stepResults,
    Executor.executeRequest now registry plan = Js.Normal result ∧
    ExecutionResult.success result = false ∧
    ExecutionResult.error result = Some error ∧
    ExecutionResult.stepResults result = Some stepResults ∧
    (∀ s, s ∈ before →
       JsObject.get stepResults (Step.stepId s) =
         JsObject.get (Executor.stepResults earlier) (Step.stepId s) ∧
       ∃ value, JsObject.get stepResults (Step.stepId s) =
                  Some (StepResult.succeeded value)) ∧
    JsObject.get stepResults (Step.stepId step) = Some (StepResult.failed error) ∧
    (∀ s, s ∈ after → JsObject.get stepResults (Step.stepId s) = None) ∧
    stepResults.*1 = Step.stepId <$> before ++ [step].
Proof.
  intros Hcan Hsteps [Hnodup _] Hearlier Hok Hmissing error. subst error.
  unfold Executor.executeRequest. rewrite Hsteps, Hcan. cbn [negb].
  rewrite runSteps_app, Hearlier. cbn [Js.bind]. rewrite Hok.
  cbn [Executor.runSteps]. rewrite Hmissing.
  eexists _, _. split; [reflexivity|]. simpl.
  rewrite fmap_app, fmap_cons in Hnodup.
  apply NoDup_app in Hnodup as (Hbefore & Hdisjoint & [Hstep Hafter]%NoDup_cons).
  destruct (runSteps_success registry (Plan.dataFlow plan) before [] earlier Hearlier Hok)
    as [Hsuccess Hother].
  assert (∀ s, s ∈ before → Step.stepId s ≠ Step.stepId step) as Hdistinct.
  { intros s Hin Heq. apply (Hdisjoint (Step.stepId s)).
    - apply list_elem_of_fmap. eauto.
    - rewrite Heq. apply elem_of_cons. by left. }
  split_and!; try done.
  - intros s Hin. rewrite get_set_ne by (intros Heq; by apply (Hdistinct s)).
    split; [done|]. by apply Hsuccess.
  - apply get_set_eq.
  - intros s Hin.
    assert (Step.stepId step ≠ Step.stepId s) as Hne.
    { intros Heq. apply Hstep. rewrite Heq. apply list_elem_of_fmap. eauto. }
    rewrite get_set_ne by done. rewrite Hother; [done|].
    intros Hin'. apply (Hdisjoint _ Hin').
    apply elem_of_cons. right. apply list_elem_of_fmap. eauto.
  - rewrite set_fresh.
    + rewrite !fmap_app. simpl. f_equal.
      apply (runSteps_keys registry (Plan.dataFlow plan) before [] earlier Hearlier Hok).
      by rewrite app_nil_l.
    + apply get_None. rewrite Hother; [done|].
      intros Hin. apply (Hdisjoint _ Hin). apply elem_of_cons. by left.
Qed.

Lemma missing_tool_halts_execution_witness :
  let registry := ToolRegistry.mk {[ 0 := Spec.fileProcessor ]} [0] in
  let step n intent toolId :=
    Step.mk (Spec.stepId n) intent (Some toolId) None [] (Js.VObj []) in
  let steps :=
    [ step 1 FILE_OPERATION "file-processor"; step 2 VISUALIZATION "chart-maker";
      step 3 DATA_PROCESSING "file-processor" ] in
  let plan :=
    Plan.mk (Some "plan_0_0") true None (Some steps)
            (Some (Orchestrator.createDataFlowMap steps)) (Some "") None None in
  ∃ result,
    Executor.executeRequest "" registry plan = Js.Normal result ∧
    ExecutionResult.success result = false ∧
    ExecutionResult.error result = Some "Tool chart-maker not found" ∧
    JsObject.keys_of (ExecutionResult.stepResults result) = ["step_1"; "step_2"].
Proof.
  intros registry step steps plan.
  destruct (missing_tool_halts_execution "" registry plan
              [step 1 FILE_OPERATION "file-processor"]
              (step 2 VISUALIZATION "chart-maker")
              [step 3 DATA_PROCESSING "file-processor"]
              (Executor.mkRun
                 [("step_1",
                   StepResult.succeeded
                     (Executor.placeholderResult "HTTP tool executed successfully" []))]
                 true None))
    as (result & stepResults & Hresult & Hsuccess & Herror & Hresults & _ & _ & _ & Hkeys).
  - reflexivity.
  - reflexivity.
  - split.
    + apply (bool_decide_unpack _). vm_compute. exact I.
    + repeat constructor; [by exists 1 | by exists 2 | by exists 3].
  - reflexivity.
  - reflexivity.
  - reflexivity.
  - exists result. split_and!; [exact Hresult | exact Hsuccess | exact Herror |].
    rewrite Hresults. exact Hkeys.
Defined.

(** ** Registry *)

Lemma assign_property_idem {A} (target source : option A) :
  Tool.assign_property (Tool.assign_property target source) source =
  Tool.assign_property target source.
Proof. by destruct source. Qed.

Lemma assign_property_self {A} (o : option A) : Tool.assign_property o o = o.
Proof. by destruct o. Qed.

Lemma assign_idem target source :
  Tool.assign (Tool.assign target source) source = Tool.assign target source.
Proof. unfold Tool.assign. simpl. by rewrite !assign_property_idem. Qed.

Lemma assign_self tool : Tool.assign tool tool = tool.
Proof. destruct tool. unfold Tool.assign. simpl. by rewrite !assign_property_self. Qed.

Lemma assign_id target source :
  Tool.id target = Tool.id source → Tool.id (Tool.assign target source) = Tool.id source.
Proof. unfold Tool.assign. simpl. intros ->. apply assign_property_self. Qed.

(** [Object.assign] is the shallow merge of the specification. *)
Lemma assign_shallowMerge old payload :
  Spec.shallowMerge old payload (Tool.assign old payload).
Proof.
  unfold Spec.shallowMerge, Spec.carries, Spec.carriesProperty, Spec.keepsProperty.
  unfold Tool.assign. simpl.
  split_and!; first [ by intros value -> | by intros -> ].
Qed.

(** A descriptor that merging the payload leaves as it is carries every
    property of the payload. *)
Lemma assign_fixed_carries stored payload :
  Tool.assign stored payload = stored → Spec.carries payload stored.
Proof.
  intros Hfixed. unfold Spec.carries, Spec.carriesProperty.
  rewrite <- Hfixed. unfold Tool.assign. simpl.
  split_and!; by intros value ->.
Qed.

Section RegistryFacts.
Implicit Types (h : gmap ToolRegistry.loc Tool.t) (l : list ToolRegistry.loc).
Implicit Types (st : ToolRegistry.t) (id : option string).

Lemma find_Some h id l r t :
  ToolRegistry.find h id l = Some (r, t) →
  ∃ i, l !! i = Some r ∧ h !! r = Some t ∧ Tool.id t = id ∧
       ∀ j r' t', j < i → l !! j = Some r' → h !! r' = Some t' → Tool.id t' ≠ id.
Proof.
  induction l as [|r0 l IH]; simpl; [done|].
  destruct (h !! r0) as [t0|] eqn:Hr0.
  - case_bool_decide as Hid.
    + intros [= -> ->]. exists 0. split_and!; [done..|]. intros; lia.
    + intros (i & Hi & Hr & Ht & Hearlier)%IH. exists (S i). split_and!; [done..|].
      intros [|j] r' t' Hlt; simpl.
      * intros [= <-]. rewrite Hr0. by intros [= <-].
      * apply Hearlier. lia.
  - intros (i & Hi & Hr & Ht & Hearlier)%IH. exists (S i). split_and!; [done..|].
    intros [|j] r' t' Hlt; simpl.
    + intros [= <-]. by rewrite Hr0.
    + apply Hearlier. lia.
Qed.

Lemma find_None h id l :
  ToolRegistry.find h id l = None →
  ∀ r t, r ∈ l → h !! r = Some t → Tool.id t ≠ id.
Proof.
  induction l as [|r0 l IH]; simpl; [by intros _ ? ? ?%elem_of_nil|].
  destruct (h !! r0) as [t0|] eqn:Hr0.
  - case_bool_decide as Hid; [done|].
    intros Hnone r t [->|Hin]%elem_of_cons; [|by apply IH].
    rewrite Hr0. by intros [= <-].
  - intros Hnone r t [->|Hin]%elem_of_cons; [|by apply IH]. by rewrite Hr0.
Qed.

Lemma find_first h id l i r t :
  l !! i = Some r → h !! r = Some t → Tool.id t = id →
  (∀ j r' t', j < i → l !! j = Some r' → h !! r' = Some t' → Tool.id t' ≠ id) →
  ToolRegistry.find h id l = Some (r, t).
Proof.
  revert i. induction l as [|r0 l IH]; intros [|i]; simpl; try done.
  - intros [= ->] -> Hid _. by rewrite bool_decide_eq_true_2.
  - intros Hi Hr Hid Hearlier.
    destruct (h !! r0) as [t0|] eqn:Hr0.
    + rewrite bool_decide_eq_false_2.
      * apply (IH i); try done. intros j r' t' Hlt. apply (Hearlier (S j)). lia.
      * apply (Hearlier 0 r0 t0); [lia|done..].
    + apply (IH i); try done. intros j r' t' Hlt. apply (Hearlier (S j)). lia.
Qed.

(** After the merge in place, a search for the same id finds the same
    entry, now holding the merged object. *)
Lemma find_after_merge h id l e old merged :
  ToolRegistry.find h id l = Some (e, old) → Tool.id merged = id →
  ToolRegistry.find (<[e := merged]> h) id l = Some (e, merged).
Proof.
  intros Hfind Hid.
  destruct (find_Some _ _ _ _ _ Hfind) as (_ & _ & He & Hold & _).
  induction l as [|r0 l IH]; simpl in *; [done|].
  destruct (decide (r0 = e)) as [->|Hne].
  - rewrite lookup_insert_eq. by rewrite bool_decide_eq_true_2.
  - rewrite lookup_insert_ne by done.
    destruct (h !! r0) as [t0|]; [|by apply IH].
    case_bool_decide; [|by apply IH]. by simplify_eq.
Qed.

Lemma omap_lookup_total {A B} (f : A → option B) (l : list A) i :
  Forall (λ x, is_Some (f x)) l → omap f l !! i = l !! i ≫= f.
Proof.
  intros Hall. revert i. induction Hall as [|x l [y Hy] _ IH]; intros i; simpl; [done|].
  rewrite Hy. destruct i; simpl; [done | apply IH].
Qed.

Lemma omap_length_total {A B} (f : A → option B) (l : list A) :
  Forall (λ x, is_Some (f x)) l → length (omap f l) = length l.
Proof.
  induction 1 as [|x l [y Hy] _ IH]; simpl; [done|]. rewrite Hy. simpl. f_equal. exact IH.
Qed.

Lemma getTools_lookup st i :
  ToolRegistry.wf st →
  ToolRegistry.getTools st !! i =
  ToolRegistry.tools st !! i ≫= (ToolRegistry.heap st !!.).
Proof. intros [_ Hall]. by apply omap_lookup_total. Qed.

Lemma getTools_length st :
  ToolRegistry.wf st → length (ToolRegistry.getTools st) = length (ToolRegistry.tools st).
Proof.
  intros [_ Hall]. by apply omap_length_total.
Qed.

Lemma elem_of_getTools st t :
  t ∈ ToolRegistry.getTools st ↔
  ∃ r, r ∈ ToolRegistry.tools st ∧ ToolRegistry.heap st !! r = Some t.
Proof. unfold ToolRegistry.getTools. by rewrite list_elem_of_omap. Qed.

(** What [registerTool] does, reference by reference. *)
Lemma registerTool_existing st tool payload existing old :
  ToolRegistry.heap st !! tool = Some payload →
  ToolRegistry.find (ToolRegistry.heap st) (Tool.id payload) (ToolRegistry.tools st)
    = Some (existing, old) →
  ToolRegistry.registerTool st tool =
  ToolRegistry.mk (<[existing := Tool.assign old payload]> (ToolRegistry.heap st))
                  (ToolRegistry.tools st).
Proof. unfold ToolRegistry.registerTool. by intros -> ->. Qed.

Lemma registerTool_fresh st tool payload :
  ToolRegistry.heap st !! tool = Some payload →
  ToolRegistry.find (ToolRegistry.heap st) (Tool.id payload) (ToolRegistry.tools st) = None →
  ToolRegistry.registerTool st tool =
  ToolRegistry.mk (ToolRegistry.heap st) (ToolRegistry.tools st ++ [tool]).
Proof. unfold ToolRegistry.registerTool. by intros -> ->. Qed.

Lemma registerTool_wf st tool payload :
  ToolRegistry.wf st → ToolRegistry.heap st !! tool = Some payload →
  ToolRegistry.wf (ToolRegistry.registerTool st tool).
Proof.
  intros [Hnodup Hall] Htool.
  destruct (ToolRegistry.find (ToolRegistry.heap st) (Tool.id payload) (ToolRegistry.tools st))
    as [[existing old]|] eqn:Hfind.
  - rewrite (registerTool_existing _ _ _ _ _ Htool Hfind). split; [done|]. simpl.
    eapply Forall_impl; [exact Hall|]. intros r Hr. simpl.
    rewrite lookup_insert. case_decide; [by eexists | done].
  - rewrite (registerTool_fresh _ _ _ Htool Hfind). split; simpl.
    + apply NoDup_app. split_and!; [done| |apply NoDup_singleton].
      intros r Hin ->%list_elem_of_singleton.
      apply (find_None _ _ _ Hfind tool payload); done.
    + apply Forall_app. split; [done|]. by repeat constructor.
Qed.

(** The snapshot after a merge in place differs at one position. *)
Lemma getTools_after_merge st i existing merged :
  ToolRegistry.wf st → ToolRegistry.tools st !! i = Some existing →
  ToolRegistry.getTools
    (ToolRegistry.mk (<[existing := merged]> (ToolRegistry.heap st)) (ToolRegistry.tools st))
  = <[i := merged]> (ToolRegistry.getTools st).
Proof.
  intros Hwf Hi.
  assert (ToolRegistry.wf
            (ToolRegistry.mk (<[existing := merged]> (ToolRegistry.heap st))
                             (ToolRegistry.tools st))) as Hwf'.
  { destruct Hwf as [Hnodup Hall]. split; [done|]. simpl.
    eapply Forall_impl; [exact Hall|]. intros r Hr. simpl.
    rewrite lookup_insert. case_decide; [by eexists | done]. }
  apply list_eq. intros j.
  rewrite (getTools_lookup _ _ Hwf'). simpl.
  destruct (decide (i = j)) as [<-|Hne].
  - rewrite Hi. simpl. rewrite lookup_insert_eq.
    rewrite list_lookup_insert_eq; [done|].
    rewrite getTools_length by done. by eapply lookup_lt_Some.
  - rewrite list_lookup_insert_ne by done. rewrite (getTools_lookup _ _ Hwf).
    destruct (ToolRegistry.tools st !! j) as [r|] eqn:Hj; simpl; [|done].
    rewrite lookup_insert_ne; [done|]. intros <-.
    destruct Hwf as [Hnodup _]. apply Hne. by eapply NoDup_lookup.
Qed.

Lemma getTools_after_push st tool payload :
  ToolRegistry.heap st !! tool = Some payload →
  ToolRegistry.getTools (ToolRegistry.mk (ToolRegistry.heap st) (ToolRegistry.tools st ++ [tool]))
  = ToolRegistry.getTools st ++ [payload].
Proof.
  intros Htool. unfold ToolRegistry.getTools. simpl.
  rewrite omap_app. simpl. by rewrite Htool.
Qed.

(** Registering again an object with the content just registered changes
    nothing. *)
Lemma registerTool_again st tool payload again :
  ToolRegistry.heap st !! tool = Some payload →
  let st' := ToolRegistry.registerTool st tool in
  ToolRegistry.heap st' !! again = Some payload →
  ToolRegistry.registerTool st' again = st'.
Proof.
  intros Htool st' Hagain. subst st'.
  destruct (ToolRegistry.find (ToolRegistry.heap st) (Tool.id payload) (ToolRegistry.tools st))
    as [[existing old]|] eqn:Hfind.
  - rewrite (registerTool_existing _ _ _ _ _ Htool Hfind) in Hagain |- *.
    destruct (find_Some _ _ _ _ _ Hfind) as (_ & _ & _ & Hold & _).
    set (st1 := ToolRegistry.mk _ _) in *.
    assert (ToolRegistry.find (ToolRegistry.heap st1) (Tool.id payload)
              (ToolRegistry.tools st1) = Some (existing, Tool.assign old payload)) as Hfind1.
    { subst st1. simpl. apply (find_after_merge _ _ _ _ old); [exact Hfind|].
      by apply assign_id. }
    rewrite (registerTool_existing _ _ _ _ _ Hagain Hfind1). subst st1. simpl.
    by rewrite assign_idem, insert_insert_eq.
  - rewrite (registerTool_fresh _ _ _ Htool Hfind) in Hagain |- *.
    set (st1 := ToolRegistry.mk _ _) in *.
    assert (ToolRegistry.find (ToolRegistry.heap st1) (Tool.id payload)
              (ToolRegistry.tools st1) = Some (tool, payload)) as Hfind1.
    { subst st1. simpl.
      apply (find_first _ _ _ (length (ToolRegistry.tools st)) tool payload).
      - by rewrite lookup_app_r, Nat.sub_diag.
      - done.
      - done.
      - intros j r' t' Hlt Hj Hr'. rewrite lookup_app_l in Hj by done.
        apply (find_None _ _ _ Hfind r' t'); [|done]. by eapply list_elem_of_lookup_2. }
    rewrite (registerTool_existing _ _ _ _ _ Hagain Hfind1). subst st1. simpl.
    rewrite assign_self. by rewrite insert_id.
Qed.

(** After a registration some entry of the registry holds every property
    of the payload, under the payload's id. *)
Lemma registerTool_holds_payload st tool payload :
  ToolRegistry.heap st !! tool = Some payload →
  ∃ stored, stored ∈ ToolRegistry.getTools (ToolRegistry.registerTool st tool) ∧
            Tool.id stored = Tool.id payload ∧ Tool.assign stored payload = stored.
Proof.
  intros Htool.
  destruct (ToolRegistry.find (ToolRegistry.heap st) (Tool.id payload) (ToolRegistry.tools st))
    as [[existing old]|] eqn:Hfind.
  - rewrite (registerTool_existing _ _ _ _ _ Htool Hfind).
    destruct (find_Some _ _ _ _ _ Hfind) as (i & Hi & _ & Hid & _).
    exists (Tool.assign old payload). split_and!.
    + apply elem_of_getTools. exists existing. simpl.
      split; [by eapply list_elem_of_lookup_2 | apply lookup_insert_eq].
    + by apply assign_id.
    + apply assign_idem.
  - rewrite (registerTool_fresh _ _ _ Htool Hfind).
    exists payload. split_and!; [|done|apply assign_self].
    rewrite (getTools_after_push _ _ payload) by done.
    apply elem_of_app. right. by apply list_elem_of_singleton.
Qed.

End RegistryFacts.

(** C7. Registration is an upsert by id that keeps the order: for an id
    already present the payload is shallow-merged into the first entry with
    that id, in place (the entry then reads the payload's value for every
    property the payload has and its old value for every other property;
    the references of the registry and every other entry are unchanged); a
    new id is appended at the end, and the stored descriptor is then the
    payload itself; registering a payload a second time changes nothing, so
    the length stays and the stored descriptor still carries every property
    of the payload; no entry is ever removed. *)
Theorem registerTool_idempotent_upsert
    (st : ToolRegistry.t) (tool : ToolRegistry.loc) (payload : Tool.t) :
  ToolRegistry.wf st →
  ToolRegistry.heap st !! tool = Some payload →
  let st' := ToolRegistry.registerTool st tool in
  (∀ i old,
     ToolRegistry.getTools st !! i = Some old →
     Tool.id old = Tool.id payload →
     (∀ j other, j < i → ToolRegistry.getTools st !! j = Some other →
                 Tool.id other ≠ Tool.id payload) →
     ToolRegistry.tools st' = ToolRegistry.tools st ∧
     ∃ merged,
       Spec.shallowMerge old payload merged ∧
       ToolRegistry.getTools st' = <[i := merged]> (ToolRegistry.getTools st)) ∧
  ((∀ other, other ∈ ToolRegistry.getTools st → Tool.id other ≠ Tool.id payload) →
     ToolRegistry.tools st' = ToolRegistry.tools st ++ [tool] ∧
     ToolRegistry.getTools st' = ToolRegistry.getTools st ++ [payload] ∧
     ∀ again, ToolRegistry.heap st' !! again = Some payload →
              ToolRegistry.getTools (ToolRegistry.registerTool st' again) =
              ToolRegistry.getTools st ++ [payload]) ∧
  (∀ again, ToolRegistry.heap st' !! again = Some payload →
            ToolRegistry.registerTool st' again = st') ∧
  (∃ stored, stored ∈ ToolRegistry.getTools st' ∧
             Tool.id stored = Tool.id payload ∧ Spec.carries payload stored) ∧
  ToolRegistry.tools st `prefix_of` ToolRegistry.tools st' ∧
  length (ToolRegistry.getTools st) ≤ length (ToolRegistry.getTools st') ∧
  ToolRegistry.wf st'.
Proof.
  intros Hwf Htool st'.
  pose proof (registerTool_wf st tool payload Hwf Htool) as Hwf'. fold st' in Hwf'.
  assert (ToolRegistry.tools st `prefix_of` ToolRegistry.tools st') as Hprefix.
  { subst st'. unfold ToolRegistry.registerTool. rewrite Htool.
    destruct (ToolRegistry.find _ _ _) as [[??]|]; simpl; [done|].
    by apply prefix_app_r. }
  split_and!.
  - intros i old Hi Hid Hearlier.
    rewrite (getTools_lookup _ _ Hwf) in Hi.
    destruct (ToolRegistry.tools st !! i) as [existing|] eqn:Hexisting; [|done].
    simpl in Hi.
    assert (ToolRegistry.find (ToolRegistry.heap st) (Tool.id payload) (ToolRegistry.tools st)
            = Some (existing, old)) as Hfind.
    { apply (find_first _ _ _ i); [done..|].
      intros j r' t' Hlt Hj Hr'. apply (Hearlier j); [done|].
      rewrite (getTools_lookup _ _ Hwf), Hj. done. }
    subst st'. rewrite (registerTool_existing _ _ _ _ _ Htool Hfind).
    split; [done|]. exists (Tool.assign old payload).
    split; [apply assign_shallowMerge | by apply getTools_after_merge].
  - intros Hnew.
    assert (ToolRegistry.find (ToolRegistry.heap st) (Tool.id payload) (ToolRegistry.tools st)
            = None) as Hfind.
    { destruct (ToolRegistry.find _ _ _) as [[existing old]|] eqn:Hfind; [exfalso|done].
      apply find_Some in Hfind as (i & Hi & Hold & Hid & _).
      apply (Hnew old); [|done]. apply elem_of_getTools.
      exists existing. split; [by eapply list_elem_of_lookup_2 | done]. }
    pose proof (registerTool_again st tool payload) as Hagain.
    subst st'. rewrite (registerTool_fresh _ _ _ Htool Hfind) in Hagain |- *.
    split_and!; [done | by apply getTools_after_push |].
    intros again Hcontent. rewrite (Hagain again Htool Hcontent).
    by apply getTools_after_push.
  - intros again. by apply registerTool_again.
  - destruct (registerTool_holds_payload st tool payload Htool)
      as (stored & Hin & Hid & Hfixed).
    exists stored. split_and!; [done..|]. by apply assign_fixed_carries.
  - exact Hprefix.
  - rewrite !getTools_length by done. by apply prefix_length.
  - exact Hwf'.
Qed.

Lemma registerTool_idempotent_upsert_witness :
  let renamed :=
    Tool.mk (Some "file-processor") (Some "Renamed") None None None None None None None
            None None in
  let st := ToolRegistry.mk {[ 0 := Spec.fileProcessor; 1 := renamed ]} [0] in
  let st' := ToolRegistry.registerTool st 1 in
  ∃ merged,
    ToolRegistry.getTools st' = [merged] ∧
    Tool.id merged = Some "file-processor" ∧
    Tool.name merged = Some "Renamed" ∧
    Tool.version merged = Some "0.1.0" ∧
    Tool.apiEndpoint merged = Some "http://localhost:3001/api/process" ∧
    ToolRegistry.registerTool st' 1 = st'.
Proof.
  intros renamed st st'.
  destruct (registerTool_idempotent_upsert st 1 renamed)
    as (Hexisting & _ & Hagain & _).
  - split; [apply NoDup_singleton|]. repeat constructor. by exists Spec.fileProcessor.
  - reflexivity.
  - destruct (Hexisting 0 Spec.fileProcessor) as (_ & merged & Hmerge & Htools).
    + reflexivity.
    + reflexivity.
    + intros j other Hj. lia.
    + destruct Hmerge as
        ((Hid & Hname & _) & _ & _ & Hversion & _ & _ & HapiEndpoint & _).
      exists merged. split_and!.
      * fold st' in Htools. rewrite Htools. reflexivity.
      * by apply Hid.
      * by apply Hname.
      * by rewrite Hversion.
      * by rewrite HapiEndpoint.
      * apply Hagain. reflexivity.
Defined.

(** C9, the code at the failing input. [registerTool] stores a tool
    registered without an id as it is: the entry that holds the payload's
    properties afterwards has no id, nothing derives one from the name. *)
Theorem registerTool_keeps_missing_id
    (st : ToolRegistry.t) (tool : ToolRegistry.loc) (payload : Tool.t) :
  ToolRegistry.heap st !! tool = Some payload →
  Tool.id payload = None →
  ∃ stored, stored ∈ ToolRegistry.getTools (ToolRegistry.registerTool st tool) ∧
            Tool.assign stored payload = stored ∧
            Tool.id stored = None.
Proof.
  intros Htool Hid.
  destruct (registerTool_holds_payload st tool payload Htool)
    as (stored & Hin & Hstored & Hassign).
  exists stored. split_and!; [done..|congruence].
Qed.

Lemma registerTool_keeps_missing_id_witness :
  let myTool :=
    Tool.mk None (Some "My Tool") None (Some "Description of my tool") None None
            None None None None None in
  let st := ToolRegistry.mk {[ 0 := myTool ]} [] in
  ∃ stored, stored ∈ ToolRegistry.getTools (ToolRegistry.registerTool st 0) ∧
            Tool.id stored = None.
Proof.
  intros myTool st.
  destruct (registerTool_keeps_missing_id st 0 myTool) as (stored & Hin & _ & Hid).
  - reflexivity.
  - reflexivity.
  - by exists stored.
Defined.

Section RouteFacts.
Variable toLowerCase : string → string.

(** Through [POST /register] a tool that is not an MCP server is stored
    exactly as [registerTool] stores it. *)
Lemma registerRoute_plain_tool fs registry toolDefinition body :
  ToolRegistry.heap registry !! toolDefinition = Some body →
  Executor.falsy (Tool.name body) = false →
  Tool.type body ≠ Some "mcp-server" →
  ToolGenerator.registerRoute toLowerCase fs registry toolDefinition =
  ToolRegistry.registerTool registry toolDefinition.
Proof.
  intros Hbody Hname Htype. unfold ToolGenerator.registerRoute.
  rewrite Hbody, Hname. by rewrite bool_decide_eq_false_2.
Qed.

End RouteFacts.

(** For an MCP server the id is derived only after the registration, on
    the payload object; a new entry is that object and so gets the id late,
    and not at all when the tools directory is missing and cannot be
    created. *)
Example registerRoute_mcp_server :
  let myTool :=
    Tool.mk None (Some "My Tool") None None (Some "mcp-server")
            (Some "http://localhost:3001/api/process") None None None None None in
  let st := ToolRegistry.mk {[ 0 := myTool ]} [] in
  let denied := Js.mkError "Error" "EACCES: permission denied" in
  Tool.id <$> ToolRegistry.getTools (ToolRegistry.registerTool st 0) = [None] ∧
  Tool.id <$> ToolRegistry.getTools
                (ToolGenerator.registerRoute Js.toLowerCase_ascii (Fs.mk None None None) st 0)
    = [Some "my-tool"] ∧
  Tool.id <$> ToolRegistry.getTools
                (ToolGenerator.registerRoute Js.toLowerCase_ascii
                   (Fs.mk (Some denied) (Some denied) None) st 0)
    = [None].
Proof. split_and!; vm_compute; reflexivity. Qed.

(** * Further properties *)

(** ** Strings *)

Lemma string_of_list_ascii_app (a b : list ascii) :
  string_of_list_ascii (a ++ b) = string_of_list_ascii a +:+ string_of_list_ascii b.
Proof. induction a as [|c a IH]; simpl; [done | by rewrite IH]. Qed.

Lemma prefix_app_true (m r : string) : String.prefix m (m +:+ r) = true.
Proof.
  induction m as [|c m IH]; simpl; [by destruct r|].
  destruct (ascii_dec c c); [exact IH | done].
Qed.

Lemma includes_prefix (s kw : string) : String.prefix kw s = true → Js.includes s kw = true.
Proof. intros Hp. destruct s; cbn [Js.includes]; by rewrite Hp. Qed.

Lemma includes_app (pre m post : string) : Js.includes (pre +:+ m +:+ post) m = true.
Proof.
  induction pre as [|c pre IH].
  - change (Js.includes (m +:+ post) m = true).
    apply includes_prefix. apply prefix_app_true.
  - change (Js.includes (String c (pre +:+ m +:+ post)) m = true).
    cbn [Js.includes]. rewrite IH. apply orb_true_r.
Qed.

Lemma strip_prefix_Some (pat s rest : list ascii) :
  Js.strip_prefix pat s = Some rest → s = pat ++ rest.
Proof.
  revert s. induction pat as [|p pat IH]; intros [|c s]; simpl; try done.
  - by intros [= <-].
  - by intros [= <-].
  - case_bool_decide; [|done]. intros Hrest. subst. f_equal. by apply IH.
Qed.

Lemma split_nonempty sep s : Js.split sep s ≠ [].
Proof. destruct s as [|c s]; simpl; [done|]. case_bool_decide; [done|]. by destruct (Js.split sep s). Qed.

Lemma split_without sep s : Shape.without sep s → Js.split sep s = [s].
Proof.
  induction s as [|c s IH]; simpl; [done|]. intros [Hc Hs].
  rewrite bool_decide_eq_false_2 by done. by rewrite IH.
Qed.

Lemma split_app_sep sep s1 s2 :
  ∃ firsts, firsts ≠ [] ∧ Js.split sep (s1 +:+ String sep s2) = firsts ++ Js.split sep s2.
Proof.
  induction s1 as [|c s1 (firsts & Hne & IH)]; simpl.
  - rewrite bool_decide_eq_true_2 by done. by exists [EmptyString].
  - rewrite IH. case_bool_decide.
    + by exists (EmptyString :: firsts).
    + destruct firsts as [|f fs]; [done|]. simpl. by exists (String c f :: fs).
Qed.

(** The text after the last separator. *)
Lemma split_pop_app sep s1 s2 :
  Shape.without sep s2 → Js.split_pop sep (s1 +:+ String sep s2) = s2.
Proof.
  intros Hs2. unfold Js.split_pop.
  destruct (split_app_sep sep s1 s2) as (firsts & _ & ->).
  rewrite (split_without _ _ Hs2).
  by rewrite last_snoc.
Qed.

(** ** Analyzer: the extracted entities *)

Lemma match_extension_Some exts s e :
  Analyzer.match_extension exts s = Some e →
  ∃ ext rest, ext ∈ exts ∧ e = list_ascii_of_string ext ∧ s = e ++ rest.
Proof.
  induction exts as [|x exts IH]; simpl; [done|].
  destruct (Js.strip_prefix (list_ascii_of_string x) s) as [rest|] eqn:Hstrip.
  - case_match.
    + intros [= <-]. exists x, rest. split_and!; [apply list_elem_of_here | done |].
      by apply strip_prefix_Some.
    + intros (ext & rest' & Hin & He & Hs)%IH. exists ext, rest'.
      split_and!; [by apply list_elem_of_further | done..].
  - intros (ext & rest' & Hin & He & Hs)%IH. exists ext, rest'.
    split_and!; [by apply list_elem_of_further | done..].
Qed.

Lemma name_run_take k s :
  k ≤ Analyzer.name_run s →
  Forall (λ c, Analyzer.is_name_char c = true) (take k s) ∧ length (take k s) = k.
Proof.
  revert k. induction s as [|c s IH]; intros k; simpl.
  - intros Hk. assert (k = 0) as -> by lia. by split.
  - destruct (Analyzer.is_name_char c) eqn:Hc.
    + destruct k as [|k]; simpl; [by split|]. intros Hk.
      destruct (IH k) as [Hall Hlen]; [lia|]. split; [by constructor | by rewrite Hlen].
    + intros Hk. assert (k = 0) as -> by lia. by split.
Qed.

Lemma match_name_Some n s m :
  Analyzer.match_name n s = Some m →
  ∃ k ext rest,
    0 < k ≤ n ∧ ext ∈ Analyzer.file_extensions ∧
    m = take k s ++ "."%char :: list_ascii_of_string ext ∧ s = m ++ rest.
Proof.
  induction n as [|n IH]; cbn [Analyzer.match_name]; [done|].
  assert (Analyzer.match_name n s = Some m →
          ∃ k ext rest,
            0 < k ≤ S n ∧ ext ∈ Analyzer.file_extensions ∧
            m = take k s ++ "."%char :: list_ascii_of_string ext ∧ s = m ++ rest) as Hback.
  { intros (k & ext & rest & Hk & ?)%IH. exists k, ext, rest. split; [lia | done]. }
  destruct (drop (S n) s) as [|c after] eqn:Hdrop; [done|].
  case_bool_decide as Hdot; [|done]. subst c.
  destruct (Analyzer.match_extension Analyzer.file_extensions after) as [e|] eqn:Hext;
    [|done].
  intros [= <-]. apply match_extension_Some in Hext as (ext & rest & Hin & -> & ->).
  exists (S n), ext, rest. split_and!; [lia | lia | done | done |].
  rewrite <- (take_drop (S n) s) at 1. by rewrite Hdrop, <- app_assoc.
Qed.

Lemma match_file_at_Some before s m :
  Analyzer.match_file_at before s = Some m →
  ∃ name ext rest,
    name ≠ [] ∧ Forall (λ c, Analyzer.is_name_char c = true) name ∧
    ext ∈ Analyzer.file_extensions ∧
    m = name ++ "."%char :: list_ascii_of_string ext ∧ s = m ++ rest.
Proof.
  unfold Analyzer.match_file_at. case_match; [|done].
  intros (k & ext & rest & [Hpos Hk] & Hin & -> & Hs)%match_name_Some.
  destruct (name_run_take k s Hk) as [Hall Hlen].
  exists (take k s), ext, rest. split_and!; try done.
  intros Hnil. rewrite Hnil in Hlen. simpl in Hlen. lia.
Qed.

Lemma match_all_elem before skip s f :
  f ∈ Analyzer.match_all before skip s →
  ∃ pre name ext post,
    s = pre ++ (name ++ "."%char :: list_ascii_of_string ext) ++ post ∧
    f = string_of_list_ascii (name ++ "."%char :: list_ascii_of_string ext) ∧
    name ≠ [] ∧ Forall (λ c, Analyzer.is_name_char c = true) name ∧
    ext ∈ Analyzer.file_extensions.
Proof.
  revert before skip.
  induction s as [|c s IH]; intros before skip; cbn [Analyzer.match_all].
  - by intros ?%elem_of_nil.
  - assert (∀ b k, f ∈ Analyzer.match_all b k s →
              ∃ pre name ext post,
                c :: s = pre ++ (name ++ "."%char :: list_ascii_of_string ext) ++ post ∧
                f = string_of_list_ascii (name ++ "."%char :: list_ascii_of_string ext) ∧
                name ≠ [] ∧ Forall (λ c, Analyzer.is_name_char c = true) name ∧
                ext ∈ Analyzer.file_extensions) as Htail.
    { intros b k (pre & name & ext & post & -> & ?)%IH.
      by exists (c :: pre), name, ext, post. }
    destruct skip as [|k]; [|apply Htail].
    destruct (Analyzer.match_file_at before (c :: s)) as [m|] eqn:Hm; [|apply Htail].
    intros [->|Hin]%elem_of_cons; [|by eapply Htail].
    apply match_file_at_Some in Hm as (name & ext & rest & Hne & Hall & Hin & -> & Hs).
    exists [], name, ext, rest. by rewrite Hs.
Qed.

Lemma file_extensions_without_dot ext :
  ext ∈ Analyzer.file_extensions → Shape.without "." ext.
Proof.
  unfold Analyzer.file_extensions. rewrite !elem_of_cons, elem_of_nil.
  intros [->|[->|[->|[->|[->|[->|[->|[->|[->|[->|[]]]]]]]]]]]; simpl; repeat split; done.
Qed.

(** X1. Every file reference the analyzer extracts is a name of letters,
    digits, underscores and dashes, a dot and one of the ten extensions; it
    occurs literally in the query; and the extension the matcher later
    reads from it ([split('.').pop()]) is that extension. *)
Theorem extracted_files_are_references (query f : string) :
  f ∈ Analyzer.extractFileReferences query →
  Shape.fileReference f ∧
  Js.includes query f = true ∧
  Js.split_pop "." f ∈ Analyzer.file_extensions.
Proof.
  unfold Analyzer.extractFileReferences.
  intros (pre & name & ext & post & Hquery & -> & Hne & Hall & Hext)%match_all_elem.
  assert (string_of_list_ascii (name ++ "."%char :: list_ascii_of_string ext) =
          string_of_list_ascii name +:+ String "." ext) as Hf.
  { rewrite string_of_list_ascii_app. simpl. by rewrite string_of_list_ascii_of_string. }
  split_and!.
  - exists name, ext. by rewrite Hf.
  - rewrite <- (string_of_list_ascii_of_string query), Hquery.
    rewrite !string_of_list_ascii_app. apply includes_app.
  - rewrite Hf, split_pop_app; [done|]. by apply file_extensions_without_dot.
Qed.

Lemma extracted_files_are_references_witness :
  Shape.fileReference "q3-report.json" ∧
  Js.includes "Load q3-report.json, then plot it" "q3-report.json" = true.
Proof.
  destruct (extracted_files_are_references "Load q3-report.json, then plot it"
              "q3-report.json") as (Hshape & Hsub & _).
  - vm_compute. apply list_elem_of_here.
  - by split.
Defined.

Ltac sublist_of_literal :=
  solve [repeat first [apply sublist_nil_l | apply sublist_skip | apply sublist_cons]].

Section EntityFacts.
Variable toLowerCase : string → string.

Lemma pushed_dataTypes_sublist (b1 b2 b3 b4 : bool) :
  Analyzer.push_if b4 "image"
    (Analyzer.push_if b3 "text"
       (Analyzer.push_if b2 "json" (Analyzer.push_if b1 "tabular" [])))
  `sublist_of` Shape.dataTypes.
Proof. destruct b1, b2, b3, b4; sublist_of_literal. Qed.

Lemma extractDataTypes_sublist query :
  Analyzer.extractDataTypes toLowerCase query `sublist_of` Shape.dataTypes.
Proof. apply pushed_dataTypes_sublist. Qed.

Lemma pushed_visualizationTypes_sublist (b1 b2 b3 b4 b5 b6 b7 : bool) :
  Analyzer.push_if b7 "box_plot"
    (Analyzer.push_if b6 "histogram"
       (Analyzer.push_if b5 "heatmap"
          (Analyzer.push_if b4 "scatter_plot"
             (Analyzer.push_if b3 "pie_chart"
                (Analyzer.push_if b2 "line_chart" (Analyzer.push_if b1 "bar_chart" []))))))
  `sublist_of` Shape.visualizationTypes.
Proof. destruct b1, b2, b3, b4, b5, b6, b7; sublist_of_literal. Qed.

Lemma extractVisualizationTypes_sublist query :
  Analyzer.extractVisualizationTypes toLowerCase query `sublist_of` Shape.visualizationTypes.
Proof. apply pushed_visualizationTypes_sublist. Qed.

Lemma extractCodeLanguages_sublist query :
  Analyzer.extractCodeLanguages toLowerCase query `sublist_of` Shape.codeLanguages.
Proof.
  unfold Analyzer.extractCodeLanguages. cbv zeta.
  change Shape.codeLanguages with (Analyzer.languagePatterns.*2).
  apply (fmap_sublist snd), sublist_filter.
Qed.

End EntityFacts.

(** X2. The data types, visualization types and languages the analyzer
    extracts are drawn from the three closed lists, in the order of those
    lists, each value at most once. *)
Theorem extracted_entities_in_closed_lists (toLowerCase : string → string) (query : string) :
  let dataTypes := Analyzer.extractDataTypes toLowerCase query in
  let visualizationTypes := Analyzer.extractVisualizationTypes toLowerCase query in
  let codeLanguages := Analyzer.extractCodeLanguages toLowerCase query in
  (dataTypes `sublist_of` Shape.dataTypes ∧ NoDup dataTypes) ∧
  (visualizationTypes `sublist_of` Shape.visualizationTypes ∧ NoDup visualizationTypes) ∧
  (codeLanguages `sublist_of` Shape.codeLanguages ∧ NoDup codeLanguages).
Proof.
  assert (NoDup Shape.dataTypes ∧ NoDup Shape.visualizationTypes ∧
          NoDup Shape.codeLanguages) as (Hd & Hv & Hl).
  { split_and!; apply (bool_decide_unpack _); vm_compute; exact I. }
  pose proof (extractDataTypes_sublist toLowerCase query) as Hsd.
  pose proof (extractVisualizationTypes_sublist toLowerCase query) as Hsv.
  pose proof (extractCodeLanguages_sublist toLowerCase query) as Hsl.
  intros dataTypes visualizationTypes codeLanguages.
  split_and!; [exact Hsd | exact (sublist_NoDup _ _ Hd Hsd)
              | exact Hsv | exact (sublist_NoDup _ _ Hv Hsv)
              | exact Hsl | exact (sublist_NoDup _ _ Hl Hsl)].
Qed.

Lemma sublist_List_filter {A} (f : A → bool) (l : list A) : List.filter f l `sublist_of` l.
Proof.
  induction l as [|x l IH]; simpl; [constructor|].
  destruct (f x); [by apply sublist_skip | by apply sublist_cons].
Qed.

(** X3. The intents of a classification are either UNKNOWN alone or a
    selection of the seven classified intents in the order of the keyword
    table; no intent occurs twice and UNKNOWN never accompanies another
    intent. *)
Theorem detected_intents_shape (toLowerCase : string → string) (query : string) :
  let intents := Analyzer.detectIntents toLowerCase query in
  (intents = [UNKNOWN] ∨
   intents ≠ [] ∧ intents `sublist_of` Spec.classifiedIntents ∧ UNKNOWN ∉ intents) ∧
  NoDup intents.
Proof.
  intros intents. subst intents. rewrite detectIntents_table. cbv zeta.
  pose proof (sublist_List_filter (Spec.triggered (toLowerCase query)) Spec.classifiedIntents)
    as Hsub.
  assert (NoDup Spec.classifiedIntents) as Hnodup
    by (apply (bool_decide_unpack _); vm_compute; exact I).
  assert (UNKNOWN ∉ Spec.classifiedIntents) as Hunknown
    by (apply (bool_decide_unpack _); vm_compute; exact I).
  destruct (List.filter _ _) as [|intent hits] eqn:Hhits.
  - split; [by left | apply NoDup_singleton].
  - split; [right | exact (sublist_NoDup _ _ Hnodup Hsub)].
    split_and!; [done..|].
    intros Hin. apply Hunknown. by apply (sublist_subseteq _ _ Hsub).
Qed.

(** ** Matching: order among equal scores *)

Section StableSort.
Context {A : Type} (key : A → Z).

Lemma insert_sorted_stable x l k :
  filter (λ y, key y = k) (Js.insert_sorted (λ a b, (key b - key a)%Z) x l) =
  filter (λ y, key y = k) (x :: l).
Proof.
  induction l as [|y l IH]; simpl; [done|].
  destruct (Z.leb_spec (key y - key x) 0); [done|].
  rewrite (filter_cons _ y), IH, !filter_cons.
  repeat case_decide; try done; lia.
Qed.

(** The sort keeps the order of elements with equal keys. *)
Lemma sort_stable l k :
  filter (λ y, key y = k) (Js.sort (λ a b, (key b - key a)%Z) l) =
  filter (λ y, key y = k) l.
Proof.
  induction l as [|x l IH]; simpl; [done|].
  by rewrite insert_sorted_stable, !filter_cons, IH.
Qed.

(** Sorting a sorted list changes nothing. *)
Lemma sort_sorted_id l :
  StronglySorted (λ a b, (key b ≤ key a)%Z) l →
  Js.sort (λ a b, (key b - key a)%Z) l = l.
Proof.
  induction 1 as [|x l Hl IH Hx]; simpl; [done|]. rewrite IH.
  destruct Hx as [|y l Hy _]; simpl; [done|].
  destruct (Z.leb_spec (key y - key x) 0); [done | lia].
Qed.

End StableSort.

Lemma collectMatches_sublist toLowerCase allTools intents entities :
  MatchedTool.tool <$> Analyzer.collectMatches toLowerCase allTools intents entities
  `sublist_of` allTools.
Proof.
  induction allTools as [|tool rest IH]; simpl; [constructor|].
  destruct (Analyzer.intentMatch tool intents); [|by apply sublist_cons].
  case_match; [by apply sublist_skip | by apply sublist_cons].
Qed.

(** X4. Among matched tools of equal score the order of the registry is
    kept: the matched tools with a given score are, in this order, the
    tools found with that score when the registry is walked from its first
    tool to its last. *)
Theorem matched_tools_ties_in_registry_order
    (toLowerCase : string → string) (registry : ToolRegistry.t)
    (intents : list Intent) (entities : Entities.t) (score : Z) :
  let found :=
    Analyzer.collectMatches toLowerCase (ToolRegistry.getTools registry) intents entities in
  filter (λ mt, MatchedTool.score mt = score)
         (Analyzer.matchToolsToIntents toLowerCase registry intents entities) =
  filter (λ mt, MatchedTool.score mt = score) found ∧
  MatchedTool.tool <$> found `sublist_of` ToolRegistry.getTools registry.
Proof.
  split; [apply (sort_stable MatchedTool.score) | apply collectMatches_sublist].
Qed.

(** X5. The confidence is a number between 0 and 1, never NaN. *)
Theorem confidence_between_0_and_1 (intents : list Intent) (entities : Entities.t) :
  let confidence := Analyzer.calculateConfidence intents entities in
  PrimFloat.leb 0 confidence = true ∧ PrimFloat.leb confidence 1 = true.
Proof.
  unfold Analyzer.calculateConfidence.
  destruct entities as [[|? ?] [|? ?] [|? ?] [|? ?]];
    destruct (bool_decide (UNKNOWN ∈ intents)); split; reflexivity.
Qed.

(** ** Orchestrator: suggestions *)

Lemma suggestToolsToCreate_intents intents entities :
  Suggestion.intent <$> Orchestrator.suggestToolsToCreate intents entities =
  filter (λ intent, intent ≠ UNKNOWN) intents.
Proof.
  induction intents as [|intent rest IH]; [done|].
  cbn [Orchestrator.suggestToolsToCreate]. rewrite filter_cons. case_bool_decide.
  - rewrite decide_False by auto. exact IH.
  - rewrite decide_True by done. rewrite fmap_cons. cbn [Suggestion.intent].
    by rewrite IH.
Qed.

Lemma suggestToolsToCreate_templates intents entities :
  Forall (λ suggestion,
            Suggestion.template suggestion =
              Orchestrator.generateToolTemplate (Suggestion.intent suggestion) entities ∧
            Tool.capabilities (Suggestion.template suggestion) ≫= Capabilities.intents =
              Some [Suggestion.intent suggestion] ∧
            Suggestion.intent suggestion ≠ UNKNOWN)
         (Orchestrator.suggestToolsToCreate intents entities).
Proof.
  induction intents as [|intent rest IH]; simpl; [constructor|].
  case_bool_decide; [done|]. constructor; [|done].
  simpl. split_and!; [done | by destruct intent | done].
Qed.

(** X6. Without matched tools the plan cannot be executed, states the
    reason "No suitable tools found" and has no steps; it carries one
    suggestion per intent other than UNKNOWN, in the order of the intents,
    each with a template that declares exactly that intent; there is a
    suggestion at all exactly when some intent is not UNKNOWN. *)
Theorem plan_without_tools_suggests (env : Env.t) (analysis : Analysis.t) :
  Analysis.matchedTools analysis = [] →
  let plan := Orchestrator.createExecutionPlan env analysis in
  Plan.canExecute plan = false ∧
  Plan.reason plan = Some "No suitable tools found" ∧
  Plan.steps plan = None ∧
  ∃ suggestions,
    Plan.suggestedTools plan = Some suggestions ∧
    Suggestion.intent <$> suggestions =
      filter (λ intent, intent ≠ UNKNOWN) (Analysis.intents analysis) ∧
    Forall (λ suggestion,
              Tool.capabilities (Suggestion.template suggestion) ≫= Capabilities.intents =
              Some [Suggestion.intent suggestion]) suggestions ∧
    (suggestions ≠ [] ↔ ∃ intent, intent ∈ Analysis.intents analysis ∧ intent ≠ UNKNOWN).
Proof.
  intros Hnone. unfold Orchestrator.createExecutionPlan. rewrite Hnone. simpl.
  split_and!; try done.
  eexists. split; [reflexivity|].
  pose proof (suggestToolsToCreate_intents (Analysis.intents analysis)
                (Analysis.entities analysis)) as Hintents.
  split_and!.
  - exact Hintents.
  - eapply Forall_impl; [apply suggestToolsToCreate_templates|]. by intros ? (_ & ? & _).
  - split.
    + intros Hne.
      destruct (Orchestrator.suggestToolsToCreate _ _) as [|suggestion rest]; [done|].
      exists (Suggestion.intent suggestion).
      assert (Suggestion.intent suggestion ∈
                filter (λ intent, intent ≠ UNKNOWN) (Analysis.intents analysis)) as Hin.
      { rewrite <- Hintents. apply list_elem_of_here. }
      apply list_elem_of_filter in Hin as [? ?]. by split.
    + intros (intent & Hin & Hne) Hnil.
      assert (intent ∈ filter (λ intent, intent ≠ UNKNOWN) (Analysis.intents analysis))
        as Hfiltered by (by apply list_elem_of_filter).
      rewrite <- Hintents, Hnil in Hfiltered. by apply elem_of_nil in Hfiltered.
Qed.

Lemma plan_without_tools_suggests_witness :
  let analysis :=
    Analysis.mk "Search the web" [KNOWLEDGE_RETRIEVAL; WEB_SEARCH] (Entities.mk [] [] [] [])
                [] 0.4%float "" in
  ∃ suggestions,
    Plan.suggestedTools (Orchestrator.createExecutionPlan (Env.mk 0 0 "") analysis)
      = Some suggestions ∧
    Suggestion.intent <$> suggestions = [KNOWLEDGE_RETRIEVAL; WEB_SEARCH].
Proof.
  intros analysis.
  destruct (plan_without_tools_suggests (Env.mk 0 0 "") analysis)
    as (_ & _ & _ & suggestions & Hs & Hintents & _); [reflexivity|].
  exists suggestions. split; [exact Hs | exact Hintents].
Defined.

(** ** Orchestrator: unaddressed intents *)

Section UnaddressedFacts.
Variables (entities : Entities.t) (matchedTools : list MatchedTool.t).

Lemma foldl_addressIntent_set intents steps addressedIntents :
  (foldl (Orchestrator.addressIntent entities matchedTools) (steps, addressedIntents)
         intents).2 =
  addressedIntents ∪ list_to_set (Spec.addressed matchedTools intents).
Proof.
  revert steps addressedIntents.
  induction intents as [|intent rest IH]; intros steps addressedIntents; simpl.
  - set_solver.
  - unfold Spec.addressable at 1.
    case_bool_decide; simpl; [apply IH|].
    destruct (Orchestrator.findBestToolForIntent intent matchedTools) eqn:Hbest.
    + destruct (existsb _ _) eqn:Hex.
      * rewrite IH. simpl. set_solver.
      * apply findBestToolForIntent_None in Hex. congruence.
    + apply findBestToolForIntent_None in Hbest as ->. apply IH.
Qed.

Lemma elem_of_addressed intent intents :
  intent ∈ Spec.addressed matchedTools intents ↔
  intent ∈ intents ∧ Spec.addressable matchedTools intent = true.
Proof.
  unfold Spec.addressed. rewrite !list_elem_of_In, filter_In. done.
Qed.

Lemma filter_unaddressed intents (addressedIntents : gset Intent) :
  addressedIntents = list_to_set (Spec.addressed matchedTools intents) →
  filter (λ intent, intent ≠ UNKNOWN ∧ intent ∉ addressedIntents) intents =
  filter (λ intent, intent ≠ UNKNOWN ∧ Spec.addressable matchedTools intent = false) intents.
Proof.
  intros ->.
  assert (∀ l, l ⊆ intents →
    filter (λ intent, intent ≠ UNKNOWN ∧
              intent ∉ (list_to_set (Spec.addressed matchedTools intents) : gset Intent)) l =
    filter (λ intent, intent ≠ UNKNOWN ∧ Spec.addressable matchedTools intent = false) l)
    as Hfilter; [|by apply Hfilter].
  induction l as [|intent l IH]; intros Hsub; [done|].
  rewrite !filter_cons, IH by set_solver.
  assert (intent ∈ intents) as Hin by set_solver.
  assert (intent ∉ (list_to_set (Spec.addressed matchedTools intents) : gset Intent) ↔
          Spec.addressable matchedTools intent = false) as Hiff.
  { rewrite elem_of_list_to_set, elem_of_addressed.
    destruct (Spec.addressable matchedTools intent); naive_solver. }
  repeat case_decide; try done; naive_solver.
Qed.

End UnaddressedFacts.

(** X7. With matched tools, the plan reports as unaddressed exactly the
    intents, other than UNKNOWN, that no matched tool declares, in the
    order of the intents, and carries one suggestion for each; when every
    intent is addressed both properties are absent.  Addressed or not,
    the steps for the addressed intents are planned. *)
Theorem plan_reports_unaddressed_intents (env : Env.t) (analysis : Analysis.t) :
  Analysis.matchedTools analysis ≠ [] →
  let plan := Orchestrator.createExecutionPlan env analysis in
  let unaddressed :=
    filter (λ intent, intent ≠ UNKNOWN ∧
                      Spec.addressable (Analysis.matchedTools analysis) intent = false)
           (Analysis.intents analysis) in
  Plan.unaddressedIntents plan = (if unaddressed is [] then None else Some unaddressed) ∧
  Suggestion.intent <$> default [] (Plan.suggestedTools plan) = unaddressed ∧
  (Plan.suggestedTools plan = None ↔ unaddressed = []) ∧
  Step.intent <$> default [] (Plan.steps plan) =
    Spec.addressed (Analysis.matchedTools analysis) (Analysis.intents analysis).
Proof.
  intros Hne plan unaddressed. subst plan. unfold Orchestrator.createExecutionPlan.
  rewrite bool_decide_eq_false_2 by (by destruct (Analysis.matchedTools analysis)).
  pose proof (foldl_addressIntent (Analysis.entities analysis)
                (Analysis.matchedTools analysis) (Analysis.intents analysis) [] ∅) as Hsteps.
  pose proof (foldl_addressIntent_set (Analysis.entities analysis)
                (Analysis.matchedTools analysis) (Analysis.intents analysis) [] ∅) as Hset.
  destruct (foldl _ _ _) as [steps addressedIntents]. simpl in Hsteps, Hset.
  rewrite union_empty_l_L in Hset.
  rewrite (filter_unaddressed _ _ _ Hset). fold unaddressed. simpl.
  assert (Suggestion.intent <$>
            Orchestrator.suggestToolsToCreate unaddressed (Analysis.entities analysis)
          = unaddressed) as Hsuggested.
  { rewrite suggestToolsToCreate_intents.
    subst unaddressed. rewrite list_filter_filter.
    apply list_filter_iff. naive_solver. }
  split_and!.
  - by destruct unaddressed.
  - destruct unaddressed; [done|]. simpl. exact Hsuggested.
  - destruct unaddressed; simpl; [done|]. split; discriminate.
  - subst steps. apply emitted_intents.
Qed.

Lemma plan_reports_unaddressed_intents_witness :
  let tool := MatchedTool.mk Spec.fileProcessor 10 in
  let analysis :=
    Analysis.mk "Plot sales.csv" [FILE_OPERATION; VISUALIZATION]
                (Entities.mk ["sales.csv"] ["tabular"] [] []) [tool] 0.7%float "" in
  Plan.unaddressedIntents (Orchestrator.createExecutionPlan (Env.mk 0 0 "") analysis)
  = Some [VISUALIZATION].
Proof.
  intros tool analysis.
  destruct (plan_reports_unaddressed_intents (Env.mk 0 0 "") analysis) as (Hun & _);
    [done|].
  exact Hun.
Defined.

(** ** Orchestrator: a suggested template against the matcher *)

Section TemplateFacts.
Variable toLowerCase : string → string.

Lemma filter_all_length {A} (P : A → Prop) `{!∀ x, Decision (P x)} (l : list A) :
  Forall P l → length (filter P l) = length l.
Proof.
  induction 1 as [|x l Hx _ IH]; [done|].
  rewrite filter_cons, decide_True by done. simpl. by rewrite IH.
Qed.

Lemma matched_self (values : list string) :
  Spec.matched values (Some values) = Z.of_nat (length values).
Proof.
  unfold Spec.matched. simpl. f_equal. apply filter_all_length.
  by apply Forall_forall.
Qed.

Lemma matched_undeclared (values : list string) : Spec.matched values None = 0%Z.
Proof. unfold Spec.matched. simpl. by rewrite filter_elem_of_nil. Qed.

End TemplateFacts.

(** X8. A tool created from a suggested template and scored by the
    matcher: for KNOWLEDGE_RETRIEVAL, TERMINAL_EXECUTION and WEB_SEARCH the
    template declares no capability list, so its score is 0 against every
    query and the matcher never returns it; for DATA_PROCESSING,
    CODE_GENERATION and VISUALIZATION its score against the entities it
    was made from is 5, 8 and 7 times the number of data types, languages
    and visualization types. *)
Theorem suggested_template_score
    (toLowerCase : string → string) (intent : Intent) (entities : Entities.t) :
  let template := Orchestrator.generateToolTemplate intent entities in
  (intent ∈ [KNOWLEDGE_RETRIEVAL; TERMINAL_EXECUTION; WEB_SEARCH] →
   ∀ registry intents queryEntities mt,
     mt ∈ Analyzer.matchToolsToIntents toLowerCase registry intents queryEntities →
     MatchedTool.tool mt ≠ template) ∧
  Analyzer.calculateToolMatchScore toLowerCase template entities =
    match intent with
    | DATA_PROCESSING => (5 * Z.of_nat (length (Entities.dataTypes entities)))%Z
    | CODE_GENERATION => (8 * Z.of_nat (length (Entities.codeLanguages entities)))%Z
    | VISUALIZATION => (7 * Z.of_nat (length (Entities.visualizationTypes entities)))%Z
    | FILE_OPERATION =>
        (10 * Spec.matched
                ((λ file, toLowerCase (Js.split_pop "." file)) <$> Entities.files entities)
                (Some (Js.split_pop "." <$> Entities.files entities)))%Z
    | _ => 0%Z
    end.
Proof.
  intros template. subst template. split.
  - intros Hintent registry intents queryEntities mt Hin Heq.
    unfold Analyzer.matchToolsToIntents in Hin.
    apply (proj1 (elem_of_sort MatchedTool.score _ _)) in Hin.
    apply (proj1 (elem_of_collectMatches _ _ _ _ _)) in Hin as (_ & _ & Hscore & Hpos).
    rewrite Hscore, calculateToolMatchScore_formula, Heq in Hpos.
    unfold Spec.score in Hpos.
    rewrite !elem_of_cons, elem_of_nil in Hintent.
    destruct Hintent as [->|[->|[->|[]]]]; simpl in Hpos;
      rewrite !matched_undeclared in Hpos; lia.
  - rewrite calculateToolMatchScore_formula. unfold Spec.score.
    destruct intent; simpl; rewrite ?matched_undeclared, ?matched_self; lia.
Qed.

Lemma suggested_template_score_witness :
  let template := Orchestrator.generateToolTemplate WEB_SEARCH (Entities.mk [] [] [] []) in
  MatchedTool.tool (MatchedTool.mk Spec.fileProcessor 10) ≠ template.
Proof.
  intros template.
  destruct (suggested_template_score Js.toLowerCase_ascii WEB_SEARCH (Entities.mk [] [] [] []))
    as [Hnever _].
  apply (Hnever ltac:(set_solver)
           (ToolRegistry.mk {[ 0 := template; 1 := Spec.fileProcessor ]} [0; 1])
           [DATA_PROCESSING; WEB_SEARCH] (Entities.mk ["a.csv"] [] [] [])).
  vm_compute. apply list_elem_of_here.
Defined.

(** ** Orchestrator: step ids and plan ids *)

Lemma stepId_inj : Inj (=) (=) Spec.stepId.
Proof.
  intros n m Heq. unfold Spec.stepId in Heq.
  apply (inj (String.app "step_")) in Heq. by apply (inj pretty) in Heq.
Qed.

(** X9. The step ids of a plan built with matched tools are pairwise
    distinct, and no step is planned for UNKNOWN: every such plan meets
    what the executor's map of step results relies on. *)
Theorem plan_step_ids_distinct (env : Env.t) (analysis : Analysis.t) :
  Analysis.matchedTools analysis ≠ [] →
  ∃ steps,
    Plan.steps (Orchestrator.createExecutionPlan env analysis) = Some steps ∧
    NoDup (Step.stepId <$> steps) ∧
    Forall (λ step, Step.intent step ≠ UNKNOWN ∧ Step.intent step ∈ Analysis.intents analysis)
           steps.
Proof.
  intros Hne.
  destruct (createExecutionPlan_steps env analysis Hne) as (Hsteps & _ & _).
  eexists. split; [exact Hsteps|]. split.
  - rewrite emitted_stepIds. apply NoDup_fmap_2; [apply stepId_inj | apply NoDup_seq].
  - apply Forall_forall. intros step Hin.
    assert (Step.intent step ∈
              Spec.addressed (Analysis.matchedTools analysis) (Analysis.intents analysis))
      as Haddressed.
    { rewrite <- (emitted_intents (Analysis.entities analysis) _ 0).
      apply list_elem_of_fmap. eauto. }
    apply elem_of_addressed in Haddressed as [Hintent Hable].
    split; [|done]. intros Hunknown. rewrite Hunknown in Hable. done.
Qed.

Lemma plan_step_ids_distinct_witness :
  let tool := MatchedTool.mk Spec.fileProcessor 10 in
  let analysis :=
    Analysis.mk "Process sales.csv" [FILE_OPERATION; DATA_PROCESSING]
                (Entities.mk ["sales.csv"] ["tabular"] [] []) [tool] 0.7%float "" in
  ∃ steps,
    Plan.steps (Orchestrator.createExecutionPlan (Env.mk 0 0 "") analysis) = Some steps ∧
    NoDup (Step.stepId <$> steps).
Proof.
  intros tool analysis.
  destruct (plan_step_ids_distinct (Env.mk 0 0 "") analysis) as (steps & Hs & Hn & _);
    [done|].
  by exists steps.
Defined.

Lemma pretty_N_go_without c x s :
  (∀ d, pretty_N_char d ≠ c) → Shape.without c s → Shape.without c (pretty_N_go x s).
Proof.
  intros Hc. revert s. induction (N.lt_wf_0 x) as [x _ IH]; intros s Hs.
  destruct (decide (x = 0)%N) as [->|]; [by rewrite pretty_N_go_0|].
  rewrite pretty_N_go_step by lia.
  apply IH; [apply N.div_lt; lia|]. by split.
Qed.

Lemma pretty_N_without c (x : N) :
  c ≠ "0"%char → (∀ d, pretty_N_char d ≠ c) → Shape.without c (pretty x).
Proof.
  intros H0 Hc. unfold pretty, pretty_N.
  case_decide; [by repeat split | by apply pretty_N_go_without].
Qed.

Lemma append_sep_inj c s1 s2 t1 t2 :
  Shape.without c s1 → Shape.without c s2 →
  s1 +:+ String c t1 = s2 +:+ String c t2 → s1 = s2 ∧ t1 = t2.
Proof.
  revert s2. induction s1 as [|x s1 IH]; intros [|y s2]; simpl.
  - by intros _ _ [= <-].
  - intros _ [Hy _] [= <- _]. done.
  - intros [Hx _] _ [= -> _]. done.
  - intros [_ H1] [_ H2] [= -> Heq]. destruct (IH _ H1 H2 Heq) as [-> ->]. done.
Qed.

(** X10. Plan ids do not collide: two plan ids are equal only if they were
    made from the same clock reading and the same random number. *)
Theorem generatePlanId_injective (env1 env2 : Env.t) :
  Orchestrator.generatePlanId env1 = Orchestrator.generatePlanId env2 →
  Env.dateNow env1 = Env.dateNow env2 ∧ Env.random1000 env1 = Env.random1000 env2.
Proof.
  unfold Orchestrator.generatePlanId.
  intros Heq%(inj (String.app "plan_")).
  assert (∀ x : N, Shape.without "_" (pretty x)) as Hfree.
  { intros x. apply pretty_N_without; [done|].
    intros d. unfold pretty_N_char. by repeat case_match. }
  change ("_" +:+ pretty (Env.random1000 env1)) with (String "_" (pretty (Env.random1000 env1)))
    in Heq.
  change ("_" +:+ pretty (Env.random1000 env2)) with (String "_" (pretty (Env.random1000 env2)))
    in Heq.
  apply append_sep_inj in Heq as [Hnow Hrandom]; [|apply Hfree..].
  split; by apply (inj pretty).
Qed.

Lemma generatePlanId_injective_witness :
  Env.dateNow (Env.mk 1700000000000 42 "") = 1700000000000%N ∧
  Env.random1000 (Env.mk 1700000000000 42 "") = 42%N.
Proof.
  apply (generatePlanId_injective (Env.mk 1700000000000 42 "")
           (Env.mk 1700000000000 42 "2026")).
  reflexivity.
Defined.

(** ** Orchestrator on the matcher's output *)

Lemma StronglySorted_filter_sorted {A} (R : A → A → Prop) (P : A → Prop)
    `{!∀ x, Decision (P x)} (l : list A) :
  StronglySorted R l → StronglySorted R (filter P l).
Proof.
  induction 1 as [|x l Hl IH Hx]; [constructor|].
  rewrite filter_cons. case_decide; [|done].
  constructor; [done|]. apply Forall_forall. intros y [_ Hy]%list_elem_of_filter.
  rewrite Forall_forall in Hx. by apply Hx.
Qed.

(** X11. On a list of matched tools that is sorted by score, as the
    matcher returns it, the tool selected for an intent is simply the
    first of the list that declares the intent. *)
Theorem best_tool_is_first_declaring
    (intent : Intent) (matchedTools : list MatchedTool.t) :
  StronglySorted Spec.scoreDescending matchedTools →
  Orchestrator.findBestToolForIntent intent matchedTools =
  head (filter (λ mt, Analyzer.declares (MatchedTool.tool mt) intent = true) matchedTools).
Proof.
  intros Hsorted. unfold Orchestrator.findBestToolForIntent.
  rewrite (sort_sorted_id MatchedTool.score).
  - by destruct (filter _ matchedTools).
  - by apply StronglySorted_filter_sorted.
Qed.

Lemma best_tool_is_first_declaring_witness :
  Orchestrator.findBestToolForIntent DATA_PROCESSING
    [MatchedTool.mk Tool.empty 22; MatchedTool.mk Spec.fileProcessor 15] =
  Some (MatchedTool.mk Spec.fileProcessor 15).
Proof.
  rewrite best_tool_is_first_declaring; [reflexivity|].
  repeat constructor; unfold Spec.scoreDescending; simpl; lia.
Defined.

(** ** Executor: fail-fast runs *)

Section FailFast.
Variables (registry : ToolRegistry.t) (dataFlow : option (JsObject.t DataFlow.t)).







End FailFast.



(** ** Executor: invoking a tool *)

(** X13. A tool without a handler runs exactly when it has an execution
    configuration of type http or command-line, or has none and is an MCP
    server with an endpoint; the configuration takes precedence, so an MCP
    server whose configuration has another type fails.  When it runs, the
    result reports status "success". *)
Theorem executeTool_without_handler (tool : Tool.t) (params : Params) :
  Tool.execute tool = None →
  let usable :=
    match Tool.executionConfig tool with
    | Some config =>
        ExecutionConfig.type config = Some "http" ∨
        ExecutionConfig.type config = Some "command-line"
    | None =>
        Tool.type tool = Some "mcp-server" ∧ Executor.falsy (Tool.apiEndpoint tool) = false
    end in
  match Executor.executeTool tool params with
  | Js.Normal result =>
      usable ∧ ∃ o, result = Js.VObj o ∧ JsObject.get o "status" = Some (Js.VStr "success")
  | Js.Throw error => ¬ usable ∧ Js.error_name error = "Error"
  | Js.ThrowValue _ => False
  end.
Proof.
  intros Hexecute. unfold Executor.executeTool. rewrite Hexecute.
  destruct (Tool.executionConfig tool) as [config|].
  - unfold Executor.executeDeclarativeTool.
    repeat case_bool_decide; simpl; [eauto..|].
    split; [|done]. by intros [?|?].
  - case_bool_decide as Htype.
    + unfold Executor.executeMcpServer.
      destruct (Executor.falsy (Tool.apiEndpoint tool)); simpl; [|eauto].
      split; [|done]. by intros [_ ?].
    + simpl. split; [|done]. by intros [? _].
Qed.

Lemma executeTool_without_handler_witness :
  ∃ error,
    Executor.executeTool
      (Tool.mk (Some "grpc-tool") None None None (Some "mcp-server")
               (Some "http://localhost:3001") None None None None
               (Some (ExecutionConfig.mk (Some "grpc") None None))) [] = Js.Throw error ∧
    Js.message error = "Unknown execution type: grpc".
Proof.
  pose proof (executeTool_without_handler
                (Tool.mk (Some "grpc-tool") None None None (Some "mcp-server")
                         (Some "http://localhost:3001") None None None None
                         (Some (ExecutionConfig.mk (Some "grpc") None None))) []
                eq_refl) as Hrun.
  destruct (Executor.executeTool _ _) as [result|error|value] eqn:Hexec.
  - destruct Hrun as [[Habs|Habs] _]; discriminate Habs.
  - exists error. split; [reflexivity|]. vm_compute in Hexec. by injection Hexec as <-.
  - destruct Hrun.
Defined.

(** ** Executor: resolving the inputs of a step *)

Lemma applyMappings_frame sourceResult mappings (inputParams resolved : Params) key :
  Executor.applyMappings sourceResult mappings inputParams = Js.Normal resolved →
  key ∉ Mapping.toParam <$> mappings →
  JsObject.get resolved key = JsObject.get inputParams key.
Proof.
  revert inputParams. induction mappings as [|mapping rest IH]; intros inputParams; simpl.
  - by intros [= <-].
  - destruct (Executor.readProperty _ _) as [sourceValue| |]; simpl; [|done..].
    intros Hrest [Hne Hnot]%not_elem_of_cons.
    rewrite (IH _ Hrest Hnot).
    destruct sourceValue; try done; by apply get_set_ne.
Qed.

Lemma applyConnections_frame stepResults connections (inputParams resolved : Params) key :
  Executor.applyConnections stepResults connections inputParams = Js.Normal resolved →
  (∀ connection, connection ∈ connections →
                 key ∉ Mapping.toParam <$> DataFlow.mappings connection) →
  JsObject.get resolved key = JsObject.get inputParams key.
Proof.
  revert inputParams.
  induction connections as [|connection rest IH]; intros inputParams; simpl.
  - by intros [= <-].
  - intros Hrun Hframe.
    assert (∀ c, c ∈ rest → key ∉ Mapping.toParam <$> DataFlow.mappings c) as Hrest.
    { intros c Hc. apply Hframe. by apply list_elem_of_further. }
    destruct (JsObject.get stepResults (DataFlow.from connection)) as [source|];
      [|by apply IH].
    destruct (StepResult.success source); [|by apply IH].
    destruct (Executor.applyMappings _ _ _) as [mapped| |] eqn:Hmapped; simpl in Hrun;
      [|done..].
    rewrite (IH _ Hrun Hrest). eapply applyMappings_frame; [exact Hmapped|].
    apply Hframe, list_elem_of_here.
Qed.

(** X14. Resolving the inputs of a step only ever writes the target
    fields of the data-flow entries that lead to the step: a step no
    entry leads to gets its declared input parameters unchanged, and in
    general every other declared parameter keeps its value. *)
Theorem transformInputParams_frame
    (step : Step.t) (stepResults : JsObject.t StepResult.t)
    (dataFlow : JsObject.t DataFlow.t) :
  ((∀ flow, flow ∈ JsObject.values dataFlow → DataFlow.to flow ≠ Step.stepId step) →
   Executor.transformInputParams step stepResults (Some dataFlow) =
   Js.Normal (Step.inputParams step)) ∧
  (∀ resolved key,
     Executor.transformInputParams step stepResults (Some dataFlow) = Js.Normal resolved →
     (∀ flow, flow ∈ JsObject.values dataFlow → DataFlow.to flow = Step.stepId step →
              key ∉ Mapping.toParam <$> DataFlow.mappings flow) →
     JsObject.get resolved key = JsObject.get (Step.inputParams step) key).
Proof.
  unfold Executor.transformInputParams. split.
  - intros Hnone.
    assert (filter (λ flow, DataFlow.to flow = Step.stepId step) (JsObject.values dataFlow)
            = []) as ->; [|done].
    induction (JsObject.values dataFlow) as [|flow flows IH]; [done|].
    rewrite filter_cons, decide_False.
    + apply IH. intros f Hf. apply Hnone. by apply list_elem_of_further.
    + apply Hnone, list_elem_of_here.
  - intros resolved key Hrun Hframe.
    eapply applyConnections_frame; [exact Hrun|].
    intros connection [Hto Hin]%list_elem_of_filter. by apply Hframe.
Qed.

Lemma transformInputParams_frame_witness :
  let step := Step.mk "step_1" FILE_OPERATION (Some "file-processor") None
                      [("filePath", Js.VStr "sales.csv")] (Js.VObj []) in
  Executor.transformInputParams step []
    (Some (Orchestrator.createDataFlowMap
             [step; Step.mk "step_2" DATA_PROCESSING None None [] (Js.VObj [])]))
  = Js.Normal [("filePath", Js.VStr "sales.csv")].
Proof.
  intros step.
  apply (transformInputParams_frame step []).
  intros flow Hin. vm_compute in Hin.
  apply list_elem_of_singleton in Hin as ->. discriminate.
Defined.

(** ** Executor: what flows along the chain *)

Lemma edges_into (m a n : nat) :
  filter (λ flow, DataFlow.to flow = Spec.stepId m) (Spec.chainEdge <$> seq a n).*2 =
  if decide (a < m ≤ a + n) then [(Spec.chainEdge (m - 1)).2] else [].
Proof.
  revert a. induction n as [|n IH]; intros a.
  - simpl. case_decide; [lia | done].
  - cbn [seq fmap list_fmap]. rewrite filter_cons, IH. cbn [snd Spec.chainEdge DataFlow.to].
    destruct (decide (Spec.stepId (S a) = Spec.stepId m)) as [Heq%stepId_inj|Hne].
    + subst m. rewrite decide_False by lia. rewrite decide_True by lia.
      by replace (S a - 1) with a by lia.
    + assert (S a ≠ m) by congruence.
      repeat case_decide; try done; lia.
Qed.

(** X16. In a plan whose steps are step_1 ... step_N with the data flow
    built for them, the first step runs on its declared input parameters;
    the step after step_n reads only the result of step_n: when that step
    succeeded with an object holding a defined [result] field, the field
    becomes the parameter [input], when the field is absent the declared
    parameters are used as they are, and a result that is [undefined] or
    [null] makes the resolution throw. *)
Theorem chain_feeds_result_into_input
    (steps : list Step.t) (stepResults : JsObject.t StepResult.t)
    (i : nat) (step : Step.t) :
  Step.stepId <$> steps = Spec.stepId <$> seq 1 (length steps) →
  steps !! i = Some step →
  Executor.transformInputParams step stepResults
    (Some (Orchestrator.createDataFlowMap steps)) =
  match i with
  | 0 => Js.Normal (Step.inputParams step)
  | S _ =>
      match JsObject.get stepResults (Spec.stepId i) with
      | Some source =>
          if StepResult.success source then
            Js.bind (Executor.readProperty (StepResult.result source) "result")
              (λ value, Js.Normal
                 match value with
                 | Js.VUndefined => Step.inputParams step
                 | _ => JsObject.set (Step.inputParams step) "input" value
                 end)
          else Js.Normal (Step.inputParams step)
      | None => Js.Normal (Step.inputParams step)
      end
  end.
Proof.
  intros Hids Hstep. unfold Executor.transformInputParams.
  rewrite (createDataFlowMap_chain _ Hids). unfold JsObject.values.
  assert (Step.stepId step = Spec.stepId (S i)) as ->.
  { assert ((Step.stepId <$> steps) !! i = Some (Step.stepId step)) as Hid
      by (by rewrite list_lookup_fmap, Hstep).
    rewrite Hids, list_lookup_fmap in Hid.
    destruct (seq 1 (length steps) !! i) as [n|] eqn:Hn; [|done].
    apply lookup_seq in Hn as [-> _]. simpl in Hid. by injection Hid as <-. }
  rewrite edges_into.
  pose proof (lookup_lt_Some _ _ _ Hstep) as Hlt.
  destruct i as [|j].
  - by rewrite decide_False by lia.
  - rewrite decide_True by lia. replace (S (S j) - 1) with (S j) by lia.
    cbn [Executor.applyConnections Spec.chainEdge snd DataFlow.from DataFlow.mappings].
    destruct (JsObject.get stepResults (Spec.stepId (S j))) as [source|]; [|done].
    destruct (StepResult.success source); [|done].
    cbn [Executor.applyMappings Mapping.fromParam Mapping.toParam].
    destruct (Executor.readProperty _ _) as [value| |]; [|done..]. simpl. by destruct value.
Qed.

Lemma chain_feeds_result_into_input_witness :
  let step n := Step.mk (Spec.stepId n) DATA_PROCESSING None None [] (Js.VObj []) in
  Executor.transformInputParams (step 2)
    [(Spec.stepId 1, StepResult.succeeded (Js.VObj [("result", Js.VStr "rows")]))]
    (Some (Orchestrator.createDataFlowMap [step 1; step 2]))
  = Js.Normal [("input", Js.VStr "rows")].
Proof.
  intros step.
  rewrite (chain_feeds_result_into_input [step 1; step 2] _ 1 (step 2));
    reflexivity.
Defined.

(** ** The request route *)

Section RunErrors.
Variables (registry : ToolRegistry.t) (dataFlow : option (JsObject.t DataFlow.t)).


End RunErrors.




(** ** Registry: ids and lookups *)

Section RegistryLookups.
Implicit Types (h : gmap ToolRegistry.loc Tool.t) (l : list ToolRegistry.loc).
Implicit Types (st : ToolRegistry.t) (id : option string).

Lemma find_app h id l1 l2 :
  ToolRegistry.find h id (l1 ++ l2) =
  match ToolRegistry.find h id l1 with
  | Some found => Some found
  | None => ToolRegistry.find h id l2
  end.
Proof.
  induction l1 as [|r l1 IH]; simpl; [done|].
  destruct (h !! r); [case_bool_decide|]; done.
Qed.

(** A merge into an entry with another id does not affect a search. *)
Lemma find_other_id h id l e old merged :
  h !! e = Some old → Tool.id old ≠ id → Tool.id merged ≠ id →
  ToolRegistry.find (<[e := merged]> h) id l = ToolRegistry.find h id l.
Proof.
  intros He Hold Hmerged. induction l as [|r l IH]; simpl; [done|].
  destruct (decide (r = e)) as [->|Hne].
  - rewrite lookup_insert_eq, He. by rewrite !bool_decide_eq_false_2.
  - rewrite lookup_insert_ne by done. destruct (h !! r); [case_bool_decide|]; done.
Qed.

Lemma getToolInstance_after_register st tool payload :
  ToolRegistry.heap st !! tool = Some payload →
  let st' := ToolRegistry.registerTool st tool in
  (∃ stored,
     Executor.getToolInstance st' (Tool.id payload) = Some stored ∧
     Tool.assign stored payload = stored) ∧
  (∀ id, id ≠ Tool.id payload →
         Executor.getToolInstance st' id = Executor.getToolInstance st id).
Proof.
  intros Htool st'. subst st'. unfold Executor.getToolInstance.
  destruct (ToolRegistry.find (ToolRegistry.heap st) (Tool.id payload) (ToolRegistry.tools st))
    as [[existing old]|] eqn:Hfind.
  - rewrite (registerTool_existing _ _ _ _ _ Htool Hfind). simpl.
    destruct (find_Some _ _ _ _ _ Hfind) as (_ & _ & Hexisting & Hid & _).
    split.
    + exists (Tool.assign old payload).
      rewrite (find_after_merge _ _ _ _ old) by (done || by apply assign_id).
      split; [done | apply assign_idem].
    + intros id Hne. rewrite (find_other_id _ _ _ _ old); [done..| |].
      * congruence.
      * rewrite (assign_id _ _ Hid). congruence.
  - rewrite (registerTool_fresh _ _ _ Htool Hfind). simpl. split.
    + exists payload. rewrite find_app, Hfind. simpl. rewrite Htool.
      rewrite bool_decide_eq_true_2 by done. split; [done | apply assign_self].
    + intros id Hne. rewrite find_app.
      destruct (ToolRegistry.find _ id _) as [found|]; [done|]. simpl. rewrite Htool.
      by rewrite bool_decide_eq_false_2 by congruence.
Qed.

End RegistryLookups.

(** X17. Registration keeps the ids of the registry pairwise distinct. *)
Theorem registerTool_keeps_ids_distinct
    (st : ToolRegistry.t) (tool : ToolRegistry.loc) (payload : Tool.t) :
  ToolRegistry.wf st →
  ToolRegistry.heap st !! tool = Some payload →
  NoDup (Tool.id <$> ToolRegistry.getTools st) →
  NoDup (Tool.id <$> ToolRegistry.getTools (ToolRegistry.registerTool st tool)).
Proof.
  intros Hwf Htool Hnodup.
  destruct (ToolRegistry.find (ToolRegistry.heap st) (Tool.id payload) (ToolRegistry.tools st))
    as [[existing old]|] eqn:Hfind.
  - rewrite (registerTool_existing _ _ _ _ _ Htool Hfind).
    destruct (find_Some _ _ _ _ _ Hfind) as (i & Hi & Hold & Hid & _).
    rewrite (getTools_after_merge st i) by done.
    rewrite list_fmap_insert, list_insert_id; [done|].
    rewrite (assign_id _ _ Hid), <- Hid.
    rewrite list_lookup_fmap, (getTools_lookup _ _ Hwf), Hi. simpl. by rewrite Hold.
  - rewrite (registerTool_fresh _ _ _ Htool Hfind).
    rewrite (getTools_after_push _ _ payload) by done. rewrite fmap_app.
    apply NoDup_app. split_and!; [done| |apply NoDup_singleton].
    intros id (other & -> & (r & Hr & Hother)%elem_of_getTools)%list_elem_of_fmap
           Hin%list_elem_of_singleton.
    by destruct (find_None _ _ _ Hfind r other Hr Hother).
Qed.

Lemma registerTool_keeps_ids_distinct_witness :
  NoDup (Tool.id <$> ToolRegistry.getTools
           (ToolRegistry.registerTool
              (ToolRegistry.mk {[ 0 := Spec.fileProcessor; 1 := Spec.fileProcessor ]} [0]) 1)).
Proof.
  apply (registerTool_keeps_ids_distinct _ 1 Spec.fileProcessor).
  - split; [apply NoDup_singleton | by repeat constructor].
  - reflexivity.
  - apply NoDup_singleton.
Defined.

(** X18. After a registration, looking the payload's id up finds a
    descriptor with that id that carries every property of the payload
    (it reads the payload's value for each property the payload has), and
    the lookup of every other id gives what it gave before. *)
Theorem registered_tool_is_found
    (st : ToolRegistry.t) (tool : ToolRegistry.loc) (payload : Tool.t) :
  ToolRegistry.heap st !! tool = Some payload →
  let st' := ToolRegistry.registerTool st tool in
  (∃ stored,
     Executor.getToolInstance st' (Tool.id payload) = Some stored ∧
     Tool.id stored = Tool.id payload ∧
     Spec.carries payload stored) ∧
  (∀ id, id ≠ Tool.id payload →
         Executor.getToolInstance st' id = Executor.getToolInstance st id).
Proof.
  intros Htool st'.
  destruct (getToolInstance_after_register st tool payload Htool)
    as [(stored & Hfound & Hassign) Hothers].
  split; [|exact Hothers].
  exists stored. split_and!; [done| |by apply assign_fixed_carries].
  unfold Executor.getToolInstance in Hfound.
  destruct (ToolRegistry.find _ _ _) as [[r t]|] eqn:Hfind; [|done].
  simpl in Hfound. injection Hfound as ->.
  by destruct (find_Some _ _ _ _ _ Hfind) as (_ & _ & _ & ? & _).
Qed.

Lemma registered_tool_is_found_witness :
  let renamed :=
    Tool.mk (Some "file-processor") (Some "Renamed") None None None None None None None
            None None in
  let st := ToolRegistry.mk {[ 0 := Spec.fileProcessor; 1 := renamed ]} [0] in
  let st' := ToolRegistry.registerTool st 1 in
  (∃ stored, Executor.getToolInstance st' (Some "file-processor") = Some stored ∧
             Tool.name stored = Some "Renamed") ∧
  Executor.getToolInstance st' (Some "visualization-creator") = None.
Proof.
  intros renamed st st'.
  destruct (registered_tool_is_found st 1 renamed)
    as [(stored & Hfound & _ & _ & Hname & _) Hothers]; [reflexivity|].
  split.
  - exists stored. split; [exact Hfound | by apply Hname].
  - fold st'. rewrite Hothers; [reflexivity | discriminate].
Defined.

(** X19. [createMcpServer] completes the definition before it registers
    it: afterwards the registry finds, under the given id or, when none
    was given, under "mcp-server-<clock>", a descriptor with that id and
    the type "mcp-server". *)
Theorem createMcpServer_registers_under_id
    (dateNow : N) (registry : ToolRegistry.t) (definition : ToolRegistry.loc)
    (given : Tool.t) :
  ToolRegistry.heap registry !! definition = Some given →
  let id :=
    if Executor.falsy (Tool.id given) then "mcp-server-" +:+ pretty dateNow
    else Js.show (Tool.id given) in
  ∃ stored,
    Executor.getToolInstance (Executor.createMcpServer dateNow registry definition) (Some id)
      = Some stored ∧
    Tool.id stored = Some id ∧
    Tool.type stored = Some "mcp-server".
Proof.
  intros Hgiven id. unfold Executor.createMcpServer. rewrite Hgiven.
  set (completed := Tool.with_type _ _).
  set (st1 := ToolRegistry.mk _ _).
  assert (ToolRegistry.heap st1 !! definition = Some completed) as Hcompleted
    by apply lookup_insert_eq.
  assert (Tool.id completed = Some id ∧ Tool.type completed = Some "mcp-server")
    as [Hid Htype].
  { subst completed id. unfold Executor.falsy.
    destruct (Tool.id given) as [s|] eqn:Hgivenid; [case_bool_decide|]; simpl;
      rewrite ?Hgivenid; done. }
  destruct (getToolInstance_after_register st1 definition completed Hcompleted)
    as [(stored & Hfound & Hassign) _].
  rewrite Hid in Hfound. exists stored. split; [exact Hfound|].
  clearbody completed. rewrite <- Hassign. unfold Tool.assign.
  cbn [Tool.id Tool.type]. by rewrite Hid, Htype.
Qed.

Lemma createMcpServer_registers_under_id_witness :
  ∃ stored,
    Executor.getToolInstance
      (Executor.createMcpServer 1700000000000
         (ToolRegistry.mk {[ 0 := Tool.mk None (Some "My Server") None None None None None
                                          None None None None ]} []) 0)
      (Some "mcp-server-1700000000000") = Some stored ∧
    Tool.type stored = Some "mcp-server".
Proof.
  destruct (createMcpServer_registers_under_id 1700000000000
              (ToolRegistry.mk {[ 0 := Tool.mk None (Some "My Server") None None None None None
                                               None None None None ]} []) 0
              (Tool.mk None (Some "My Server") None None None None None None None None None))
    as (stored & Hfound & _ & Htype); [reflexivity|].
  by exists stored.
Defined.

(** ** Tool generator: slugs *)

Lemma keeps_not_dash c : ToolGenerator.keeps c = true → c ≠ "-"%char.
Proof. by intros Hc ->. Qed.

Lemma dashes_shape inRun s :
  let slug := ToolGenerator.dashes inRun s in
  Forall (λ c, ToolGenerator.keeps c = true ∨ c = "-"%char) (list_ascii_of_string slug) ∧
  Js.includes slug "--" = false ∧
  (inRun = true → String.prefix "-" slug = false).
Proof.
  revert inRun. induction s as [|c s IH]; intros inRun; cbn [ToolGenerator.dashes].
  - cbv zeta. split_and!; [constructor | reflexivity | reflexivity].
  - destruct (ToolGenerator.keeps c) eqn:Hc.
    + destruct (IH false) as (Hall & Hdouble & _). cbv zeta. split_and!.
      * constructor; [by left | done].
      * cbn [Js.includes String.prefix]. rewrite Hdouble.
        destruct (ascii_dec "-" c) as [<-|]; [by apply keeps_not_dash in Hc | done].
      * intros _. cbn [String.prefix].
        destruct (ascii_dec "-" c) as [<-|]; [by apply keeps_not_dash in Hc | done].
    + destruct inRun.
      * apply IH.
      * destruct (IH true) as (Hall & Hdouble & Hstart). cbv zeta. split_and!.
        -- constructor; [by right | done].
        -- cbn [Js.includes]. rewrite Hdouble.
           change (String.prefix "--" (String "-" (ToolGenerator.dashes true s)))
             with (String.prefix "-" (ToolGenerator.dashes true s)).
           by rewrite Hstart.
        -- done.
Qed.

(** X20. A derived id consists of lower-case letters, digits and dashes
    only, and never has two dashes in a row, whatever the name and the
    case mapping. *)
Theorem slug_shape (toLowerCase : string → string) (name : string) :
  let id := ToolGenerator.slug toLowerCase name in
  Forall (λ c, Js.is_lower c = true ∨ Js.is_digit c = true ∨ c = "-"%char)
         (list_ascii_of_string id) ∧
  Js.includes id "--" = false.
Proof.
  destruct (dashes_shape false (toLowerCase name)) as (Hall & Hdouble & _).
  split; [|exact Hdouble].
  eapply Forall_impl; [exact Hall|]. intros c [Hkeep | ->]; [|auto].
  unfold ToolGenerator.keeps in Hkeep. apply orb_true_iff in Hkeep. tauto.
Qed.

(** ** The registration route *)

(** X21. Registering through the route an MCP server that has a name but
    no id, when every registered tool has an id: the tool is appended.
    When the tools directory is there or can be created, the definition
    generator completes the very object that was stored, and the registry
    then lists it under the id derived from its name, whether or not the
    file can be written; when the directory is missing and cannot be
    created, the generator fails before it derives the id, the route goes
    on, and the stored descriptor stays without an id. *)
Theorem registerRoute_new_mcp_server
    (toLowerCase : string → string) (fs : Fs.t) (registry : ToolRegistry.t)
    (toolDefinition : ToolRegistry.loc) (body : Tool.t) (name : string) :
  ToolRegistry.wf registry →
  ToolRegistry.heap registry !! toolDefinition = Some body →
  Tool.name body = Some name → name ≠ EmptyString →
  Tool.type body = Some "mcp-server" →
  Tool.id body = None →
  (∀ other, other ∈ ToolRegistry.getTools registry → Tool.id other ≠ None) →
  let after := ToolGenerator.registerRoute toLowerCase fs registry toolDefinition in
  (Fs.access fs = None ∨ Fs.mkdir fs = None →
   ToolRegistry.getTools after =
   ToolRegistry.getTools registry ++
   [Tool.with_id body (ToolGenerator.slug toLowerCase name)]) ∧
  (Fs.access fs ≠ None → Fs.mkdir fs ≠ None →
   ToolRegistry.getTools after = ToolRegistry.getTools registry ++ [body]).
Proof.
  intros Hwf Hbody Hname Hnonempty Htype Hid Hothers after. subst after.
  assert (ToolRegistry.find (ToolRegistry.heap registry) (Tool.id body)
            (ToolRegistry.tools registry) = None) as Hfind.
  { destruct (ToolRegistry.find _ _ _) as [[existing old]|] eqn:Hfind; [exfalso|done].
    apply find_Some in Hfind as (i & Hi & Hold & Hsame & _).
    apply (Hothers old); [|congruence]. apply elem_of_getTools.
    exists existing. split; [by eapply list_elem_of_lookup_2 | done]. }
  unfold ToolGenerator.registerRoute. rewrite Hbody, Hname. unfold Executor.falsy.
  rewrite bool_decide_eq_false_2 by done. rewrite bool_decide_eq_true_2 by done.
  pose proof (registerTool_wf registry toolDefinition body Hwf Hbody) as Hwf'.
  rewrite (registerTool_fresh _ _ _ Hbody Hfind) in Hwf' |- *.
  unfold ToolGenerator.generateToolDefinition, ToolGenerator.ensureToolsDir.
  cbn [ToolRegistry.heap ToolRegistry.tools]. split.
  - intros Hdirectory.
    assert (match Fs.access fs with
            | Some _ => from_option Js.Throw (Js.Normal ()) (Fs.mkdir fs)
            | None => Js.Normal ()
            end = Js.Normal ()) as ->.
    { destruct Hdirectory as [-> | ->]; [done | by destruct (Fs.access fs)]. }
    unfold ToolGenerator.deriveId. rewrite Hbody, Hid, Hname. cbn [Executor.falsy fst].
    rewrite (getTools_after_merge
               (ToolRegistry.mk (ToolRegistry.heap registry)
                                (ToolRegistry.tools registry ++ [toolDefinition]))
               (length (ToolRegistry.tools registry))); [|done|].
    + rewrite (getTools_after_push _ _ body) by done.
      rewrite <- (getTools_length registry) by done.
      rewrite insert_app_r_alt by done. by rewrite Nat.sub_diag.
    + simpl. by rewrite lookup_app_r, Nat.sub_diag.
  - intros Haccess Hmkdir.
    destruct (Fs.access fs) as [denied|]; [|done].
    destruct (Fs.mkdir fs) as [failed|]; [|done]. cbn [from_option fst].
    by apply getTools_after_push.
Qed.

Lemma registerRoute_new_mcp_server_witness :
  let myTool :=
    Tool.mk None (Some "My  Tool 2!") None None (Some "mcp-server")
            (Some "http://localhost:3001/api/process") None None None None None in
  let registry := ToolRegistry.mk {[ 0 := myTool ]} [] in
  let denied := Js.mkError "Error" "EACCES: permission denied" in
  Tool.id <$> ToolRegistry.getTools
    (ToolGenerator.registerRoute Js.toLowerCase_ascii (Fs.mk (Some denied) None (Some denied))
       registry 0)
  = [Some "my-tool-2-"] ∧
  Tool.id <$> ToolRegistry.getTools
    (ToolGenerator.registerRoute Js.toLowerCase_ascii (Fs.mk (Some denied) (Some denied) None)
       registry 0)
  = [None].
Proof.
  intros myTool registry denied.
  split.
  - destruct (registerRoute_new_mcp_server Js.toLowerCase_ascii
                (Fs.mk (Some denied) None (Some denied)) registry 0 myTool "My  Tool 2!")
      as [Hderived _].
    + split; constructor.
    + reflexivity.
    + reflexivity.
    + discriminate.
    + reflexivity.
    + reflexivity.
    + intros other Hin. by apply elem_of_nil in Hin.
    + rewrite Hderived; [reflexivity | by right].
  - destruct (registerRoute_new_mcp_server Js.toLowerCase_ascii
                (Fs.mk (Some denied) (Some denied) None) registry 0 myTool "My  Tool 2!")
      as [_ Hkept].
    + split; constructor.
    + reflexivity.
    + reflexivity.
    + discriminate.
    + reflexivity.
    + reflexivity.
    + intros other Hin. by apply elem_of_nil in Hin.
    + rewrite Hkept; [reflexivity | discriminate..].
Defined.
